(** * Business Insights Assistant: orchestration glue, embedded and verified

    The repository is call-and-branch glue around a hosted chat model and
    three data stores.  This development embeds the Python modules
    [agent_router], [text_to_sql], [text_to_query], [fetch_data_from_pdf]
    and [sqlite_setup], and the pass of [app] for a submitted question, as
    executable Rocq functions in a small monad that carries

    - a logical clock (one tick per external call), used to index the
      answers of the outside world, so that two identical requests may be
      answered differently;
    - the list of external calls performed, in order;
    - a store of dictionary objects, because the feedback records are
      Python dicts that are shared by reference and mutated in place, and
      the rows of the SQLite table that [get_sqlite_conn] rewrites;
    - Python exceptions, as an error result, with a mark on those that
      [except Exception] does not catch.

    Modelling conventions.
    - A Python [str] is a [string] of ASCII characters; bytes above 127 are
      neither whitespace, digits nor letters.
    - JSON-like Python values are the inductive [pyval]; dicts are
      association lists because Python dicts keep insertion order.
    - The prompt templates are not reproduced: a chat request records the
      call site and the values interpolated into its template.  The one
      exception is the rewritten question of [generate_sql_query], which is
      built from the previous query and its error.
    - [chat_memory_dict] is [None] or the dict that [app.py] builds from its
      history, [{q1: .., a1: .., .., qn: .., an: ..}]; it is modelled by the
      list of its (question, answer) pairs.
    - [json.loads], [json.dumps] and [str()] are library code taken as
      parameters.  [json.dumps] may raise: a row or a record can hold a
      value that it rejects (a BLOB, a timestamp); such values are not
      represented, so the parameter may fail on any value.
    - The libraries raise exceptions that derive from [Exception].  The
      code that [eval] runs can do more: it can raise [SystemExit], it can
      update the records it is given, and its value can be anything.  It
      is taken to touch nothing but those records, and to make none of the
      external calls recorded here.
    - Calls to the logger are not external calls of interest and are left
      out. *)

From Stdlib Require Import ZArith Ascii String List Bool Lia.
From Stdlib Require DecimalString DecimalNat.
From Corelib Require Import SpecFloat.
From stdpp Require Import base list strings.

Local Open Scope Z_scope.

(** ** Strings *)

Module Str.

Definition code (a : ascii) : nat := nat_of_ascii a.

(** [str.isspace] on ASCII: tab, LF, VT, FF, CR, FS, GS, RS, US, space. *)
Definition is_space (a : ascii) : bool :=
  let n := code a in
  ((9 <=? n) && (n <=? 13) || (28 <=? n) && (n <=? 31) || (n =? 32))%nat.

Definition is_digit (a : ascii) : bool :=
  let n := code a in ((48 <=? n) && (n <=? 57))%nat.

Definition is_upper (a : ascii) : bool :=
  let n := code a in ((65 <=? n) && (n <=? 90))%nat.

Definition lower_char (a : ascii) : ascii :=
  if is_upper a then ascii_of_nat (code a + 32) else a.

(** [s.lower()] *)
Fixpoint lower (s : string) : string :=
  match s with
  | EmptyString => EmptyString
  | String a s' => String (lower_char a) (lower s')
  end.

(** [s.lstrip()] *)
Fixpoint lstrip (s : string) : string :=
  match s with
  | EmptyString => EmptyString
  | String a s' => if is_space a then lstrip s' else s
  end.

(** [s.rstrip()] *)
Fixpoint rstrip (s : string) : string :=
  match s with
  | EmptyString => EmptyString
  | String a s' =>
      match rstrip s' with
      | EmptyString => if is_space a then EmptyString else String a EmptyString
      | r => String a r
      end
  end.

(** [s.strip()] *)
Definition strip (s : string) : string := rstrip (lstrip s).

(** [s.startswith(p)] *)
Definition startswith (p s : string) : bool := String.prefix p s.

(** [s.startswith((p1, p2, ...))] *)
Definition startswith_any (ps : list string) (s : string) : bool :=
  existsb (fun p => startswith p s) ps.

(** [sub in s] *)
Fixpoint contains (sub s : string) : bool :=
  startswith sub s ||
  match s with
  | EmptyString => false
  | String _ s' => contains sub s'
  end.

Definition eqb (s t : string) : bool := String.eqb s t.

Definition truthy (s : string) : bool :=
  match s with EmptyString => false | _ => true end.

Definition newline : string := String (ascii_of_nat 10) EmptyString.

(** Value of a run of decimal digits, [int("0123")]. *)
Fixpoint digits_value (acc : Z) (s : string) : Z :=
  match s with
  | EmptyString => acc
  | String a s' => digits_value (10 * acc + Z.of_nat (code a - 48)) s'
  end.

Fixpoint all_digits (s : string) : bool :=
  match s with
  | EmptyString => true
  | String a s' => is_digit a && all_digits s'
  end.

(** [re.findall(r'\d+', s)]: the maximal runs of digits, left to right.
    [cur] is the run being read, in reverse. *)
Fixpoint digit_runs_aux (cur : list ascii) (s : string) : list string :=
  match s with
  | EmptyString =>
      match cur with
      | [] => []
      | _ => [string_of_list_ascii (rev cur)]
      end
  | String a s' =>
      if is_digit a then digit_runs_aux (a :: cur) s'
      else match cur with
           | [] => digit_runs_aux [] s'
           | _ => string_of_list_ascii (rev cur) :: digit_runs_aux [] s'
           end
  end.

Definition digit_runs (s : string) : list string := digit_runs_aux [] s.

(** [s[len(p):]] when [s.startswith(p)]. *)
Fixpoint drop_prefix (p s : string) : option string :=
  match p, s with
  | EmptyString, _ => Some s
  | String a p', String b s' =>
      if Ascii.eqb a b then drop_prefix p' s' else None
  | String _ _, EmptyString => None
  end.

(** The longest prefix of digits, and what follows it. *)
Fixpoint take_digits (s : string) : string * string :=
  match s with
  | EmptyString => (EmptyString, EmptyString)
  | String a s' =>
      if is_digit a
      then let '(d, r) := take_digits s' in (String a d, r)
      else (EmptyString, s)
  end.

(** A match of [property\s*(?:id)?\s*(\d+)] anchored at the start of
    [s]: the digits of group 1 and the text after the match.  Each
    quantifier is followed by a character class disjoint from it, so the
    greedy reading loses no match. *)
Definition match_property (s : string) : option (string * string) :=
  match drop_prefix "property" s with
  | None => None
  | Some r1 =>
      let r2 := lstrip r1 in
      let r3 := match drop_prefix "id" r2 with Some r => r | None => r2 end in
      let '(d, rest) := take_digits (lstrip r3) in
      match d with
      | EmptyString => None
      | _ => Some (d, rest)
      end
  end.

(** [re.findall(r'property\s*(?:id)?\s*(\d+)', s)]: group 1 of the
    non-overlapping matches, left to right.  [skip] counts the characters
    still covered by the last match. *)
Fixpoint findall_property_aux (skip : nat) (s : string) : list string :=
  match s with
  | EmptyString => []
  | String _ s' =>
      match skip with
      | S k => findall_property_aux k s'
      | O =>
          match match_property s with
          | Some (d, rest) =>
              d :: findall_property_aux
                     (String.length s - String.length rest - 1) s'
          | None => findall_property_aux 0 s'
          end
      end
  end.

Definition findall_property (s : string) : list string :=
  findall_property_aux 0 s.

(** ["\n".join(l)] *)
Fixpoint join (sep : string) (l : list string) : string :=
  match l with
  | [] => EmptyString
  | [x] => x
  | x :: l' => x +:+ sep +:+ join sep l'
  end.

(** [s[:n]] *)
Fixpoint take (n : nat) (s : string) : string :=
  match n, s with
  | S n', String a s' => String a (take n' s')
  | _, _ => EmptyString
  end.

(** [c in s], for a character. *)
Fixpoint has (c : ascii) (s : string) : bool :=
  match s with
  | EmptyString => false
  | String a s' => Ascii.eqb c a || has c s'
  end.

Definition squote : ascii := ascii_of_nat 39.
Definition dquote : ascii := ascii_of_nat 34.
Definition backslash : ascii := ascii_of_nat 92.

Definition hex_digit (n : nat) : ascii :=
  ascii_of_nat (if (n <? 10)%nat then 48 + n else 87 + n).

(** The characters of [repr(s)] between its quotes. *)
Fixpoint repr_body (quote : ascii) (s : string) : string :=
  match s with
  | EmptyString => EmptyString
  | String a s' =>
      let n := code a in
      let rest := repr_body quote s' in
      if Ascii.eqb a quote || Ascii.eqb a backslash
      then String backslash (String a rest)
      else if (n =? 9)%nat then String backslash (String "t" rest)
      else if (n =? 10)%nat then String backslash (String "n" rest)
      else if (n =? 13)%nat then String backslash (String "r" rest)
      else if ((n <? 32) || (n =? 127))%nat
      then String backslash
             (String "x" (String (hex_digit (n / 16))
                            (String (hex_digit (n mod 16)) rest)))
      else String a rest
  end.

(** [repr(s)]: single quotes, unless [s] holds one and no double quote. *)
Definition repr (s : string) : string :=
  let quote := if has squote s && negb (has dquote s) then dquote else squote in
  String quote (repr_body quote s +:+ String quote EmptyString).

End Str.

(** ** Python values *)

#[warnings="-register-all"]
Inductive pyval : Type :=
| PNone
| PBool (b : bool)
| PInt (n : Z)
| PFloat (f : spec_float)
| PStr (s : string)
| PList (l : list pyval)
| PDict (d : list (string * pyval)).

Abbreviation pydict := (list (string * pyval)).

(** [dict.get(k)] on the association list of a dict. *)
Fixpoint dict_get (k : string) (d : pydict) : pyval :=
  match d with
  | [] => PNone
  | (k', v) :: d' => if Str.eqb k k' then v else dict_get k d'
  end.

(** [k in d] *)
Fixpoint dict_mem (k : string) (d : pydict) : bool :=
  match d with
  | [] => false
  | (k', _) :: d' => Str.eqb k k' || dict_mem k d'
  end.

(** [list(d.keys())] *)
Definition dict_keys (d : pydict) : list string := map fst d.

(** [d.pop(k, None)], for its effect on [d]. *)
Fixpoint dict_pop (k : string) (d : pydict) : pydict :=
  match d with
  | [] => []
  | (k', v) :: d' => if Str.eqb k k' then dict_pop k d' else (k', v) :: dict_pop k d'
  end.

(** [l[:n]] *)
Definition slice_to {A} (n : nat) (l : list A) : list A := firstn n l.

(** [bool(v)] *)
Definition truthy (v : pyval) : bool :=
  match v with
  | PNone => false
  | PBool b => b
  | PInt n => negb (n =? 0)
  | PFloat f => match f with S754_zero _ => false | _ => true end
  | PStr s => Str.truthy s
  | PList l => match l with [] => false | _ => true end
  | PDict d => match d with [] => false | _ => true end
  end.

(** [a or b] *)
Definition py_or (a b : pyval) : pyval := if truthy a then a else b.

Definition is_str (v : pyval) : bool :=
  match v with PStr _ => true | _ => false end.

Definition is_list (v : pyval) : bool :=
  match v with PList _ => true | _ => false end.

(** [isinstance(v, int)]: [bool] is a subclass of [int]. *)
Definition is_int (v : pyval) : bool :=
  match v with PInt _ | PBool _ => true | _ => false end.

(** [int == float], compared exactly as Python does. *)
Definition int_eq_float (n : Z) (f : spec_float) : bool :=
  match f with
  | S754_zero _ => n =? 0
  | S754_finite s m e =>
      let sm := if s then - Z.pos m else Z.pos m in
      if 0 <=? e then n =? sm * 2 ^ e else n * 2 ^ (- e) =? sm
  | _ => false
  end.

(** [a == b] on the values above; numbers compare by value across
    [bool], [int] and [float]. *)
Fixpoint py_eq (a b : pyval) {struct a} : bool :=
  match a, b with
  | PNone, PNone => true
  | PBool x, PBool y => Bool.eqb x y
  | PBool x, PInt y => Z.b2z x =? y
  | PInt x, PBool y => x =? Z.b2z y
  | PInt x, PInt y => x =? y
  | PBool x, PFloat f => int_eq_float (Z.b2z x) f
  | PInt x, PFloat f => int_eq_float x f
  | PFloat f, PBool y => int_eq_float (Z.b2z y) f
  | PFloat f, PInt y => int_eq_float y f
  | PFloat f, PFloat g => SFeqb f g
  | PStr s, PStr t => Str.eqb s t
  | PList l, PList m =>
      (fix go (l : list pyval) (m : list pyval) : bool :=
         match l, m with
         | [], [] => true
         | x :: l', y :: m' => py_eq x y && go l' m'
         | _, _ => false
         end) l m
  | PDict d, PDict e =>
      (length d =? length e)%nat &&
      (fix go (d : pydict) : bool :=
         match d with
         | [] => true
         | (k, v) :: d' => dict_mem k e && py_eq v (dict_get k e) && go d'
         end) d
  | _, _ => false
  end.

(** [v in l] *)
Definition py_in (v : pyval) (l : list pyval) : bool := existsb (py_eq v) l.

(** ** Exceptions *)

Record exn : Type := mk_exn {
  exn_type : string;   (** class name, e.g. [OperationalError] *)
  exn_msg : string;    (** [str(e)] *)
  exn_frames : string  (** the stack frames printed by the traceback *)
}.

(** [traceback.format_exc()] while handling [e]. *)
Definition format_exc (e : exn) : string :=
  "Traceback (most recent call last):" +:+ Str.newline +:+
  exn_frames e +:+ exn_type e +:+ ": " +:+ exn_msg e +:+ Str.newline.

Inductive result (A : Type) : Type :=
| Ok (a : A)
| Raise (e : exn).
Arguments Ok {A} a.
Arguments Raise {A} e.

Definition ValueError (msg : string) : exn := mk_exn "ValueError" msg "".
Definition TypeError (msg : string) : exn := mk_exn "TypeError" msg "".
Definition AttributeError (msg : string) : exn := mk_exn "AttributeError" msg "".

(** [type(v).__name__] *)
Definition type_name (v : pyval) : string :=
  match v with
  | PNone => "NoneType"
  | PBool _ => "bool"
  | PInt _ => "int"
  | PFloat _ => "float"
  | PStr _ => "str"
  | PList _ => "list"
  | PDict _ => "dict"
  end.

(** The exception of [v.name] when [v] has no attribute [name]. *)
Definition no_attribute (v : pyval) (name : string) : exn :=
  AttributeError ("'" +:+ type_name v +:+ "' object has no attribute '" +:+
                  name +:+ "'").

(** [str(i)] for a natural number. *)
Definition str_of_nat (i : nat) : string :=
  DecimalString.NilEmpty.string_of_uint (Nat.to_uint i).

(** [sys.get_int_max_str_digits()], as the interpreter sets it. *)
Definition max_str_digits : nat := 4300.

(** The digits of an [int] literal: the longest prefix of [s] made of
    decimal digits and of single underscores between them.  The result is
    the number of digits, their value and the text after them; [None] when
    there is no digit or an underscore is misplaced. *)
Fixpoint int_scan (after_digit : bool) (digits : nat) (acc : Z) (s : string)
  : option (nat * Z * string) :=
  match s with
  | EmptyString => if after_digit then Some (digits, acc, EmptyString) else None
  | String a s' =>
      if Str.is_digit a
      then int_scan true (S digits) (10 * acc + Z.of_nat (Str.code a - 48)) s'
      else if (Str.code a =? 95)%nat
      then (if after_digit then int_scan false digits acc s' else None)
      else (if after_digit then Some (digits, acc, s) else None)
  end.

Definition invalid_literal (s : string) : exn :=
  ValueError ("invalid literal for int() with base 10: " +:+ Str.repr s).

Definition too_many_digits (digits : nat) : exn :=
  ValueError ("Exceeds the limit (" +:+ str_of_nat max_str_digits +:+
              " digits) for integer string conversion: value has " +:+
              str_of_nat digits +:+
              " digits; use sys.set_int_max_str_digits() to increase the limit").

(** [int(s)] for a [str]: surrounding whitespace, an optional sign, then
    decimal digits with single underscores allowed between digits.  A
    literal of more than [max_str_digits] digits is refused, before the
    text after the digits is looked at. *)
Definition int_of_str (s : string) : result Z :=
  let t := Str.strip s in
  let '(negative, body) :=
    match t with
    | String a t' =>
        if (Str.code a =? 43)%nat then (false, t')
        else if (Str.code a =? 45)%nat then (true, t')
        else (false, t)
    | EmptyString => (false, t)
    end in
  match int_scan false 0 0 body with
  | None => Raise (invalid_literal s)
  | Some (digits, n, rest) =>
      if (max_str_digits <? digits)%nat then Raise (too_many_digits digits)
      else match rest with
           | EmptyString => Ok (if negative then - n else n)
           | _ => Raise (invalid_literal s)
           end
  end.

(** [int(v)] for [v] a [str] or an [int], the only values the code applies
    it to (other elements are filtered out first). *)
Definition py_int (v : pyval) : result Z :=
  match v with
  | PInt n => Ok n
  | PBool b => Ok (Z.b2z b)
  | PStr s => int_of_str s
  | _ => Raise (TypeError
                  ("int() argument must be a string, a bytes-like object or a " +:+
                   "real number, not '" +:+ type_name v +:+ "'"))
  end.

(** ** What evaluated code can come to *)

(** An item of the list that the generated filter returns: the record at a
    position of [data], which is a dict object shared with [data], or a
    value that the code made. *)
Inductive eval_item : Type :=
| Kept (position : nat)
| Made (v : pyval).

(** Its value: a list of such items, or anything else. *)
Inductive eval_value : Type :=
| Items (items : list eval_item)
| Single (v : pyval).

(** How the evaluation ends: with a value, with an exception that
    [except Exception] catches, or with one that it does not catch, as the
    [SystemExit] of [exit()]. *)
Inductive eval_end : Type :=
| Returned (v : eval_value)
| Raised (e : exn)
| Exited (e : exn).

(** The answer of [eval]: the records of [data] as the code leaves them,
    in the order of [data], and how it ends. *)
Record eval_answer : Type := {
  eval_records : list pydict;
  eval_ended : eval_end
}.

(** ** External calls and the monad of the embedding *)

(** The functions that call [client.chat.completions.create]. *)
Inductive call_site : Type :=
| IsGeneralMessage | GenerateFriendlyReply | RouteQuery | GenerateNaturalAnswer
| GenerateSqlQuery | NeedsChatContext
| ClassifyQueryType | ClassifyFeedbackFocus | InferMentions
| GenerateFilterCode | ExtractTraitSummary | GenerateFeedbackAnalysis
| ShouldUseChatHistory | ExtractPropertyMentions | ExtractRequestedCount
| GenerateAnswerFromContext.

Inductive role : Type := System | User | Assistant.

Record message : Type := Msg { msg_role : role; msg_content : string }.

Abbreviation transcript := (list (string * string)).

(** What a turn does to the outside, in the order it does it: the external
    calls, each with the answer it got, and the entries of the three backend
    handlers (each of them is wrapped by the tracing decorator, which
    records the call and its arguments). *)
Inductive event : Type :=
| EvChat (site : call_site) (messages : list message) (answer : result string)
| EvGetSqliteConn (answer : result unit)
| EvReadSqlQuery (sql : string) (answer : result (list pydict))
| EvFirestoreStream (collection : string) (answer : result (list pydict))
| EvSimilaritySearch (key query : string) (answer : result (list string))
| EvEval (code : string) (answer : eval_answer)
| EvHandleUserQuestion (question : string) (property_mention agent_mention : pyval)
    (memory : option transcript)
| EvHandleUserFeedbackQuery (question collection : string)
    (property_mention agent_mention : pyval) (memory : option transcript)
| EvSearchPropertyPdfs (question : string) (property_mention : pyval)
    (memory : option transcript).

(** The library functions and services the code calls.  A service is asked
    at a clock value, so that the same request can be answered differently
    at different times.
    - [chat] answers with [choices[0].message.content] (for the routing
      call, with [function_call.arguments]); [Raise] stands for any failure
      up to and including the reading of that field.
    - [get_sqlite_conn] tells whether the CSV could be read and written
      to the database, and [csv_rows] is what the CSV holds at that time.
    - [read_sql_query] answers with the rows of the data frame.
    - [py_eval] runs the generated code over the records.
    - [slice_of_dict] is what the interpreter raises for [d[:n]] on a
      dict: a [TypeError] before Python 3.12, a [KeyError] since. *)
Record World : Type := {
  prompt : call_site -> list string -> string;
  json_loads : string -> result pyval;
  json_dumps : pyval -> result string;
  py_str : pyval -> string;
  slice_of_dict : nat -> exn;
  faiss_index : list string;
  chat : nat -> call_site -> list message -> result string;
  get_sqlite_conn : nat -> result unit;
  csv_rows : nat -> list pydict;
  read_sql_query : nat -> string -> result (list pydict);
  firestore_stream : nat -> string -> result (list pydict);
  similarity_search : nat -> string -> string -> result (list string);
  py_eval : nat -> string -> list pydict -> eval_answer
}.

(** [f"{v}"] *)
Definition py_format (w : World) (v : pyval) : string :=
  match v with
  | PStr s => s
  | _ => py_str w v
  end.

(** The state of a run: the clock, the dict objects, and the rows of the
    table [real_estate] of the SQLite database. *)
Record State : Type := {
  clock : nat;
  store : list pydict;
  real_estate : list pydict
}.

(** What a computation comes to.  [exits] marks an exception that does not
    derive from [Exception], which no [except Exception] catches. *)
Record Outcome (A : Type) : Type := {
  val : result A;
  out : list event;
  st : State;
  exits : bool
}.
Arguments val {A} _.
Arguments out {A} _.
Arguments st {A} _.
Arguments exits {A} _.

Definition Py (A : Type) : Type := State -> Outcome A.

Definition ret {A} (a : A) : Py A :=
  fun s => {| val := Ok a; out := []; st := s; exits := false |}.

Definition raise {A} (e : exn) : Py A :=
  fun s => {| val := Raise e; out := []; st := s; exits := false |}.

Definition bind {A B} (m : Py A) (k : A -> Py B) : Py B :=
  fun s =>
    let r := m s in
    match val r with
    | Ok a =>
        let r' := k a (st r) in
        {| val := val r'; out := out r ++ out r'; st := st r'; exits := exits r' |}
    | Raise e => {| val := Raise e; out := out r; st := st r; exits := exits r |}
    end.

(** [try: m  except Exception as e: h e] *)
Definition try_except {A} (m : Py A) (h : exn -> Py A) : Py A :=
  fun s =>
    let r := m s in
    match val r with
    | Ok a => r
    | Raise e =>
        if exits r then r
        else
          let r' := h e (st r) in
          {| val := val r'; out := out r ++ out r'; st := st r';
             exits := exits r' |}
    end.

Definition lift {A} (r : result A) : Py A :=
  match r with
  | Ok a => ret a
  | Raise e => raise e
  end.

(** The state after one external call. *)
Definition tick (s : State) : State :=
  {| clock := S (clock s); store := store s; real_estate := real_estate s |}.

(** An external call: logged, answered at the current clock, one tick. *)
Definition external {A} (ev : result A -> event) (answer : nat -> result A)
  : Py A :=
  fun s =>
    {| val := answer (clock s);
       out := [ev (answer (clock s))];
       st := tick s;
       exits := false |}.

(** The entry of a traced handler. *)
Definition emit (ev : event) : Py unit :=
  fun s => {| val := Ok tt; out := [ev]; st := s; exits := false |}.

Definition get_store : Py (list pydict) :=
  fun s => {| val := Ok (store s); out := []; st := s; exits := false |}.

Definition put_store (h : list pydict) : Py unit :=
  fun s =>
    {| val := Ok tt; out := [];
       st := {| clock := clock s; store := h; real_estate := real_estate s |};
       exits := false |}.

Declare Scope py_scope.
Delimit Scope py_scope with py.
Notation "x <- m ;; k" := (bind m (fun x => k))
  (at level 100, m at next level, right associativity) : py_scope.
Notation "m ;;; k" := (bind m (fun _ => k))
  (at level 100, right associativity) : py_scope.
Local Open Scope py_scope.

(** A new dict object; its reference is its index in the store. *)
Definition alloc (d : pydict) : Py nat :=
  h <- get_store ;;
  put_store (h ++ [d]) ;;;
  ret (length h).

(** The dict behind a reference. *)
Definition deref (h : list pydict) (l : nat) : pydict :=
  match h !! l with
  | Some d => d
  | None => []
  end.

Fixpoint alloc_all (ds : list pydict) : Py (list nat) :=
  match ds with
  | [] => ret []
  | d :: ds' =>
      l <- alloc d ;;
      ls <- alloc_all ds' ;;
      ret (l :: ls)
  end.

(** [client.chat.completions.create(...)] followed by the reading of the
    answer's text. *)
Definition chat_create (w : World) (site : call_site) (messages : list message)
  : Py string :=
  external (EvChat site messages) (fun t => chat w t site messages).

(** The [User: .. \n Assistant: ..] blocks built from [chat_memory_dict]. *)
Definition memory_blocks (mem : transcript) : list string :=
  map (fun qa => "User: " +:+ fst qa +:+ Str.newline +:+ "Assistant: " +:+ snd qa) mem.

(** [bool(chat_memory_dict)] *)
Definition memory_truthy (mem : option transcript) : bool :=
  match mem with
  | Some (_ :: _) => true
  | _ => false
  end.

(** [chat_memory_dict or {}] *)
Definition memory_or_empty (mem : option transcript) : transcript :=
  match mem with
  | Some m => m
  | None => []
  end.

(** ** text_to_sql.py *)

(** The question that replaces the user's when a query has failed. *)
Definition regeneration_request (previous_query error_msg : string) : string :=
  "The following SQL query gave an error:" +:+ Str.newline +:+ Str.newline +:+
  previous_query +:+ Str.newline +:+ Str.newline +:+
  "The error was:" +:+ Str.newline +:+ error_msg +:+ Str.newline +:+ Str.newline +:+
  "Please fix and return a valid query using proper column aliases.".

Definition opt_truthy (o : option string) : bool :=
  match o with
  | Some s => Str.truthy s
  | None => false
  end.

Definition capability_message : string :=
  "I can help you analyze your property data. " +:+
  "I have access to sales data (CSV), customer and agent feedback (JSON), and property descriptions (PDFs). " +:+
  "Let me know what insights you're looking for.".

Section text_to_sql.
Variable w : World.

Definition sql_messages (user_question : string) : list message :=
  [Msg System (prompt w GenerateSqlQuery []); Msg User user_question].

Definition generate_sql_query (user_question : string)
    (previous_query error_msg : option string) : Py string :=
  let user_question :=
    match error_msg, previous_query with
    | Some e, Some q =>
        if Str.truthy e && Str.truthy q
        then regeneration_request q e
        else user_question
    | _, _ => user_question
    end in
  try_except
    (content <- chat_create w GenerateSqlQuery (sql_messages user_question) ;;
     ret (Str.strip content))
    (fun _ => ret "").

Definition needs_chat_context (question : string) (chat_memory_dict : option transcript)
  : Py bool :=
  if negb (memory_truthy chat_memory_dict) then ret false
  else
    let chat_pairs :=
      Str.join Str.newline (memory_blocks (memory_or_empty chat_memory_dict)) in
    let shown := if Str.truthy chat_pairs then chat_pairs else "[No prior chat]" in
    try_except
      (content <- chat_create w NeedsChatContext
                    [Msg User (prompt w NeedsChatContext [shown; question])] ;;
       ret (Str.eqb (Str.lower (Str.strip content)) "yes"))
      (fun _ => ret false).

(** One run of [pd.read_sql_query] under its [try]: the value to return,
    or the formatted traceback of the failure. *)
Definition execute_query (sql_query : string) : Py (pyval + string) :=
  try_except
    (result_df <- external (EvReadSqlQuery sql_query)
                    (fun t => read_sql_query w t sql_query) ;;
     match result_df with
     | [] => ret (inl PNone)
     | _ => ret (inl (PList (map PDict result_df)))
     end)
    (fun e => ret (inr (format_exc e))).

(** The loop [while attempt < max_retries].  Every path through the body
    returns, except the handler of a failed execution, which adds one to
    [attempt]; the recursion is on [max_retries - attempt]. *)
Fixpoint retry_loop (remaining : nat) (user_question : string)
    (sql_query error_msg : option string) : Py pyval :=
  match remaining with
  | O => ret PNone
  | S remaining' =>
      q <- generate_sql_query user_question sql_query error_msg ;;
      if negb (Str.truthy q) then ret (PStr "Failed to generate SQL.")
      else if negb (Str.startswith_any ["select"; "with"] (Str.lower (Str.strip q)))
      then ret (PStr capability_message)
      else
        r <- execute_query q ;;
        match r with
        | inl v => ret v
        | inr err => retry_loop remaining' user_question (Some q) (Some err)
        end
  end.

Definition handle_user_question (user_question : string)
    (property_mention agent_mention : pyval)
    (chat_memory_dict : option transcript) (max_retries : nat) : Py pyval :=
  emit (EvHandleUserQuestion user_question property_mention agent_mention
          chat_memory_dict) ;;;
  needs <- needs_chat_context user_question chat_memory_dict ;;
  let user_question :=
    if needs
    then "Conversation so far:" +:+ Str.newline +:+
         Str.join Str.newline (memory_blocks (memory_or_empty chat_memory_dict)) +:+
         Str.newline +:+ Str.newline +:+ "Now answer this: " +:+ user_question
    else user_question in
  let user_question :=
    if truthy property_mention
    then "The user is referring to " +:+ py_format w property_mention +:+ ". " +:+
         user_question
    else user_question in
  let user_question :=
    if truthy agent_mention
    then "The user is referring to " +:+ py_format w agent_mention +:+ ". " +:+
         user_question
    else user_question in
  retry_loop max_retries user_question None None.

End text_to_sql.

(** ** text_to_query.py *)

(** [v.get(k)]: only a dict has the method. *)
Definition py_get (v : pyval) (k : string) : result pyval :=
  match v with
  | PDict d => Ok (dict_get k d)
  | _ => Raise (no_attribute v "get")
  end.

(** A list comprehension whose element expression may raise. *)
Fixpoint map_result {A B} (f : A -> result B) (l : list A) : result (list B) :=
  match l with
  | [] => Ok []
  | x :: l' =>
      match f x with
      | Raise e => Raise e
      | Ok y =>
          match map_result f l' with
          | Raise e => Raise e
          | Ok ys => Ok (y :: ys)
          end
      end
  end.

(** The normalisation of [prop_id_raw] (and of [agent_id_raw]) to a list of
    integers. *)
Definition normalize_ids (raw : pyval) : result (list pyval) :=
  match raw with
  | PStr s =>
      map_result
        (fun x => match int_of_str (Str.strip x) with
                  | Ok n => Ok (PInt n)
                  | Raise e => Raise e
                  end)
        (Str.digit_runs s)
  | PList l =>
      map_result
        (fun x => match py_int x with
                  | Ok n => Ok (PInt n)
                  | Raise e => Raise e
                  end)
        (List.filter (fun x => is_str x || is_int x) l)
  | PInt _ | PBool _ => Ok [raw]
  | _ => Ok []
  end.

(** [explicit or mentions.get(key)]; the right operand is evaluated only
    when the left one is falsy. *)
Definition resolve_mention (explicit mentions : pyval) (key : string) : result pyval :=
  if truthy explicit then Ok explicit else py_get mentions key.

Definition list_truthy {A} (l : list A) : bool :=
  match l with [] => false | _ => true end.

(** An item of a list of feedback: one of the records read from the
    collection, which is a dict object of the store, or any other value. *)
Inductive obj : Type :=
| Ref (l : nat)
| Val (v : pyval).

(** What [filtered_data] can hold: a list of such items, or a value that
    is not a list. *)
Inductive pydata : Type :=
| DList (items : list obj)
| DValue (v : pyval).

(** [bool(data)] *)
Definition data_truthy (data : pydata) : bool :=
  match data with
  | DList items => list_truthy items
  | DValue v => truthy v
  end.

(** The value behind an item. *)
Definition obj_value (h : list pydict) (o : obj) : pyval :=
  match o with
  | Ref l => PDict (deref h l)
  | Val v => v
  end.

(** The value of [data[:n]], a list or a string, as [json.dumps] is given
    it. *)
Definition shown_data (h : list pydict) (data : list obj + string) : pyval :=
  match data with
  | inl items => PList (map (obj_value h) items)
  | inr text => PStr text
  end.

(** The records of [data] as evaluated code leaves them. *)
Fixpoint write_back (data : list nat) (records h : list pydict) : list pydict :=
  match data, records with
  | l :: data', d :: records' => write_back data' records' (<[l := d]> h)
  | _, _ => h
  end.

(** The item that the evaluated code returned, among the objects of the
    handler; a position outside [data] names no record and is left out. *)
Definition resolve (data : list nat) (it : eval_item) : option obj :=
  match it with
  | Kept position => option_map Ref (data !! position)
  | Made v => Some (Val v)
  end.

Definition data_of (data : list nat) (v : eval_value) : pydata :=
  match v with
  | Items items => DList (omap (resolve data) items)
  | Single (PList l) => DList (map Val l)
  | Single v => DValue v
  end.

Section text_to_query.
Variable w : World.

Definition get_feedback_data_from_firestore (collection_name : string)
  : Py (list nat) :=
  docs <- external (EvFirestoreStream collection_name)
            (fun t => firestore_stream w t collection_name) ;;
  alloc_all docs.

Definition classify_query_type (user_question : string) : Py string :=
  try_except
    (content <- chat_create w ClassifyQueryType
                  [Msg System (prompt w ClassifyQueryType []);
                   Msg User user_question] ;;
     let label := Str.lower (Str.strip content) in
     ret (if Str.eqb label "analysis" || Str.eqb label "filter"
          then label else "filter"))
    (fun _ => ret "filter").

Definition classify_feedback_focus (user_question : string) : Py string :=
  try_except
    (content <- chat_create w ClassifyFeedbackFocus
                  [Msg System (prompt w ClassifyFeedbackFocus []);
                   Msg User user_question] ;;
     let result := Str.lower (Str.strip content) in
     ret (if Str.eqb result "property" || Str.eqb result "agent" ||
             Str.eqb result "both"
          then result else "both"))
    (fun _ => ret "both").

(** The history text, one block per remembered exchange. *)
Definition history_text (chat_memory_dict : transcript) : string :=
  String.concat ""
    (map (fun b => b +:+ Str.newline) (memory_blocks chat_memory_dict)).

Definition no_mentions : pyval :=
  PDict [("property_id", PNone); ("agent_id", PNone)].

Definition infer_mentions_and_context (user_question : string)
    (chat_memory_dict : transcript) : Py pyval :=
  let history := history_text chat_memory_dict in
  try_except
    (content <- chat_create w InferMentions
                  [Msg User (prompt w InferMentions [history; user_question])] ;;
     lift (json_loads w (Str.strip content)))
    (fun _ => ret no_mentions).

Definition generate_filter_code (user_question : string) : Py (option string) :=
  try_except
    (content <- chat_create w GenerateFilterCode
                  [Msg System (prompt w GenerateFilterCode []);
                   Msg User user_question] ;;
     ret (Some (Str.strip content)))
    (fun _ => ret None).

(** The records behind a list of references, as a JSON-like value. *)
Definition snapshot (h : list pydict) (data : list nat) : pyval :=
  PList (map (fun l => PDict (deref h l)) data).

Definition extract_trait_summary (user_question : string) (data : list nat)
    (feedback_focus : string) (max_entries : nat) : Py string :=
  h <- get_store ;;
  shown <- lift (json_dumps w (snapshot h (slice_to max_entries data))) ;;
  try_except
    (content <- chat_create w ExtractTraitSummary
                  [Msg User (prompt w ExtractTraitSummary
                               [user_question; shown])] ;;
     ret (Str.strip content))
    (fun _ => ret "Could not identify specific traits from feedback.").

(** [data[:n]]: a list or a string is cut; nothing else can be sliced. *)
Definition data_slice (n : nat) (data : pydata) : result (list obj + string) :=
  match data with
  | DList items => Ok (inl (slice_to n items))
  | DValue (PList l) => Ok (inl (map Val (slice_to n l)))
  | DValue (PStr text) => Ok (inr (Str.take n text))
  | DValue (PDict _) => Raise (slice_of_dict w n)
  | DValue v =>
      Raise (TypeError ("'" +:+ type_name v +:+ "' object is not subscriptable"))
  end.

(** [entry.pop(key, None)]: a record is updated in place, in the store; a
    dict that is not a record is updated too; nothing else has such a
    method. *)
Definition pop_entry (key : string) (entry : obj) : Py obj :=
  match entry with
  | Ref l =>
      h <- get_store ;;
      put_store (alter (dict_pop key) l h) ;;;
      ret entry
  | Val (PDict d) => ret (Val (PDict (dict_pop key d)))
  | Val (PList _) => raise (TypeError "pop expected at most 1 argument, got 2")
  | Val v => raise (no_attribute v "pop")
  end.

(** [for entry in data: entry.pop(key, None)] over a list. *)
Fixpoint pop_each (key : string) (data : list obj) : Py (list obj) :=
  match data with
  | [] => ret []
  | entry :: data' =>
      entry' <- pop_entry key entry ;;
      data'' <- pop_each key data' ;;
      ret (entry' :: data'')
  end.

(** The same loop over [data[:n]]; the entries of a string are its
    characters. *)
Definition pop_entries (key : string) (data : list obj + string)
  : Py (list obj + string) :=
  match data with
  | inl items => items' <- pop_each key items ;; ret (inl items')
  | inr EmptyString => ret data
  | inr text => raise (no_attribute (PStr text) "pop")
  end.

(** [len(chat_memory_dict)] raises on [None]. *)
Definition memory_len_checked (chat_memory_dict : option transcript)
  : result transcript :=
  match chat_memory_dict with
  | Some m => Ok m
  | None => Raise (TypeError "object of type 'NoneType' has no len()")
  end.

Definition generate_feedback_analysis (user_question : string) (data : pydata)
    (chat_memory_dict : option transcript) (feedback_focus : string)
    (max_entries : nat) : Py string :=
  data <- lift (data_slice max_entries data) ;;
  data <- (if Str.eqb feedback_focus "property"
           then pop_entries "agent_feedback" data
           else if Str.eqb feedback_focus "agent"
           then pop_entries "property_feedback" data
           else ret data) ;;
  mem <- lift (memory_len_checked chat_memory_dict) ;;
  let history := history_text mem in
  h <- get_store ;;
  shown <- lift (json_dumps w (shown_data h data)) ;;
  try_except
    (content <- chat_create w GenerateFeedbackAnalysis
                  [Msg User (prompt w GenerateFeedbackAnalysis
                               [user_question; history; shown])] ;;
     ret (Str.strip content))
    (fun _ => ret "There was an error while summarizing the feedback.").

(** [[e for e in data if e.get(key) in ids]] *)
Definition filter_by (h : list pydict) (key : string) (ids : list pyval)
    (data : list nat) : list nat :=
  List.filter (fun e => py_in (dict_get key (deref h e)) ids) data.

(** [eval(code, {"data": data})].  The code is given the records, which
    it may update, and it ends with a value, with an exception, or by
    leaving the interpreter. *)
Definition eval_filter (code : string) (data : list nat) : Py pydata :=
  fun s =>
    let answer := py_eval w (clock s) code (map (deref (store s)) data) in
    let s' := {| clock := S (clock s);
                 store := write_back data (eval_records answer) (store s);
                 real_estate := real_estate s |} in
    match eval_ended answer with
    | Returned v =>
        {| val := Ok (data_of data v); out := [EvEval code answer]; st := s';
           exits := false |}
    | Raised e =>
        {| val := Raise e; out := [EvEval code answer]; st := s'; exits := false |}
    | Exited e =>
        {| val := Raise e; out := [EvEval code answer]; st := s'; exits := true |}
    end.

(** The selection of the records to summarise: by the mentioned ids, or by
    the filter that the model writes.  [inr] is the early return taken when
    the evaluation of that filter raises. *)
Definition select_feedback (user_question : string) (data : list nat)
    (prop_ids agent_ids : list pyval) : Py (pydata + string) :=
  h <- get_store ;;
  if list_truthy prop_ids && list_truthy agent_ids then
    ret (inl (DList (map Ref
                       (List.filter
                          (fun e =>
                             py_in (dict_get "property_id" (deref h e)) prop_ids &&
                             py_in (dict_get "agent_id" (deref h e)) agent_ids)
                          data))))
  else if list_truthy prop_ids then
    ret (inl (DList (map Ref (filter_by h "property_id" prop_ids data))))
  else if list_truthy agent_ids then
    ret (inl (DList (map Ref (filter_by h "agent_id" agent_ids data))))
  else
    code <- generate_filter_code user_question ;;
    match code with
    | Some c =>
        if Str.truthy c then
          try_except
            (kept <- eval_filter c data ;; ret (inl kept))
            (fun eval_err =>
               ret (inr ("Generated filter code failed: " +:+ exn_msg eval_err)))
        else ret (inl (DList []))
    | None => ret (inl (DList []))
    end.

(** The body of the [try] of [handle_user_feedback_query]. *)
Definition answer_feedback (user_question : string) (data : list nat)
    (chat_memory_dict : option transcript) (prop_ids agent_ids : list pyval)
    (query_type feedback_focus : string) : Py pyval :=
  if Str.eqb query_type "analysis" &&
     negb (list_truthy prop_ids || list_truthy agent_ids)
  then
    s <- extract_trait_summary user_question data feedback_focus 100 ;;
    ret (PStr s)
  else
    filtered <- select_feedback user_question data prop_ids agent_ids ;;
    match filtered with
    | inr early => ret (PStr early)
    | inl filtered_data =>
        if data_truthy filtered_data then
          s <- generate_feedback_analysis user_question filtered_data
                 chat_memory_dict feedback_focus 120 ;;
          ret (PStr s)
        else ret (PStr "Couldn't find relevant feedback in the dataset.")
    end.

Definition handle_user_feedback_query (user_question collection_name : string)
    (property_mention agent_mention : pyval)
    (chat_memory_dict : option transcript) : Py pyval :=
  emit (EvHandleUserFeedbackQuery user_question collection_name
          property_mention agent_mention chat_memory_dict) ;;;
  data <- get_feedback_data_from_firestore collection_name ;;
  if negb (list_truthy data) then ret (PStr "The feedback dataset is empty.")
  else
    mentions <- infer_mentions_and_context user_question
                  (memory_or_empty chat_memory_dict) ;;
    prop_id_raw <- lift (resolve_mention property_mention mentions "property_id") ;;
    agent_id_raw <- lift (resolve_mention agent_mention mentions "agent_id") ;;
    prop_ids <- lift (normalize_ids prop_id_raw) ;;
    agent_ids <- lift (normalize_ids agent_id_raw) ;;
    query_type <- classify_query_type user_question ;;
    feedback_focus <- classify_feedback_focus user_question ;;
    try_except
      (answer_feedback user_question data chat_memory_dict prop_ids agent_ids
         query_type feedback_focus)
      (fun e => ret (PStr ("Error while processing the query: " +:+ exn_msg e))).

End text_to_query.

(** ** fetch_data_from_pdf.py *)

(** A dict from property keys to lists of texts, in insertion order. *)
Abbreviation groups := (list (string * list string)).

Fixpoint group_mem (pid : string) (g : groups) : bool :=
  match g with
  | [] => false
  | (k, _) :: g' => Str.eqb pid k || group_mem pid g'
  end.

Fixpoint group_get (pid : string) (g : groups) : list string :=
  match g with
  | [] => []
  | (k, v) :: g' => if Str.eqb pid k then v else group_get pid g'
  end.

(** [g[pid].append(content)] for a key that is present. *)
Fixpoint group_append (pid content : string) (g : groups) : groups :=
  match g with
  | [] => []
  | (k, v) :: g' =>
      if Str.eqb pid k then (k, v ++ [content]) :: g'
      else (k, v) :: group_append pid content g'
  end.

(** [g.setdefault(pid, []).append(content)] *)
Definition group_setdefault_append (pid content : string) (g : groups) : groups :=
  if group_mem pid g then group_append pid content g
  else g ++ [(pid, [content])].

(** The loop that keeps at most [max_results] properties and at most two
    texts for each. *)
Definition collect_unique (max_results : nat) (all_ranked : list (string * string))
  : groups :=
  fold_left
    (fun unique_properties pd =>
       let '(pid, content) := pd in
       if negb (group_mem pid unique_properties) &&
          (length unique_properties <? max_results)%nat
       then unique_properties ++ [(pid, [content])]
       else if group_mem pid unique_properties &&
               (length (group_get pid unique_properties) <? 2)%nat
       then group_append pid content unique_properties
       else unique_properties)
    all_ranked [].

Definition assemble_context (doc_sources : list (string * string)) : string :=
  let grouped :=
    fold_left (fun g pc => group_setdefault_append (fst pc) (snd pc) g)
      doc_sources [] in
  Str.strip
    (String.concat ""
       (map (fun pc =>
               Str.newline +:+ "PROPERTY " +:+ fst pc +:+ ":" +:+ Str.newline +:+
               Str.join Str.newline (slice_to 2 (snd pc)) +:+ Str.newline)
          grouped)).

Section fetch_data_from_pdf.
Variable w : World.

Definition should_use_chat_history (user_question : string) : Py bool :=
  try_except
    (content <- chat_create w ShouldUseChatHistory
                  [Msg System (prompt w ShouldUseChatHistory []);
                   Msg User user_question] ;;
     ret (Str.eqb (Str.lower (Str.strip content)) "yes"))
    (fun _ => ret false).

Definition extract_property_mentions (user_question : string)
    (chat_memory_dict : option transcript) : Py (list string) :=
  let user_content :=
    if memory_truthy chat_memory_dict
    then Str.join Str.newline (memory_blocks (memory_or_empty chat_memory_dict))
         +:+ Str.newline +:+ user_question
    else user_question in
  try_except
    (content <- chat_create w ExtractPropertyMentions
                  [Msg System (prompt w ExtractPropertyMentions []);
                   Msg User user_content] ;;
     let matches := Str.findall_property (Str.lower (Str.strip content)) in
     ret (map (fun m => "property " +:+ m) matches))
    (fun _ => ret []).

(** The searches of the listed indexes, in order; each hit is paired with
    the key of its index. *)
Fixpoint search_each (keys : list string) (user_question : string)
  : Py (list (string * string)) :=
  match keys with
  | [] => ret []
  | key :: keys' =>
      results <- external (EvSimilaritySearch key user_question)
                   (fun t => similarity_search w t key user_question) ;;
      more <- search_each keys' user_question ;;
      ret (map (fun d => (key, d)) results ++ more)
  end.

Definition search_property_pdfs (user_question : string) (property_mention : pyval)
    (chat_memory_dict : option transcript) (max_results : nat) : Py pydict :=
  emit (EvSearchPropertyPdfs user_question property_mention chat_memory_dict) ;;;
  use_memory <- should_use_chat_history user_question ;;
  let memory_to_use := if use_memory then chat_memory_dict else None in
  mentions <- extract_property_mentions user_question memory_to_use ;;
  let explicit_mentions := Str.findall_property (Str.lower user_question) in
  let mentions :=
    if negb (list_truthy mentions) && negb (list_truthy explicit_mentions)
    then [] else mentions in
  let valid_keys :=
    omap (fun mention =>
            match Str.findall_property mention with
            | d :: _ => Some ("Property_ID_" +:+ d)
            | [] => None
            end) mentions in
  doc_sources <-
    (if list_truthy valid_keys then
       search_each
         (List.filter (fun key => existsb (Str.eqb key) (faiss_index w)) valid_keys)
         user_question
     else
       all_ranked <- search_each (faiss_index w) user_question ;;
       ret (flat_map (fun pc => map (fun c => (fst pc, c)) (snd pc))
              (collect_unique max_results all_ranked))) ;;
  let docs := map snd doc_sources in
  if negb (list_truthy docs)
  then ret [("error", PStr "No matching documents found.")]
  else ret [("context", PStr (assemble_context doc_sources));
            ("docs", PList (map PStr docs))].

Definition extract_requested_count_via_llm (user_question : string) (default : Z)
  : Py Z :=
  try_except
    (content <- chat_create w ExtractRequestedCount
                  [Msg System (prompt w ExtractRequestedCount []);
                   Msg User user_question] ;;
     match Str.digit_runs (Str.strip content) with
     | d :: _ => lift (int_of_str d)
     | [] => ret default
     end)
    (fun _ => ret default).

Definition generate_answer_from_context (user_question : string) (context : pyval)
  : Py string :=
  requested_count <- extract_requested_count_via_llm user_question 3 ;;
  try_except
    (content <- chat_create w GenerateAnswerFromContext
                  [Msg User (prompt w GenerateAnswerFromContext
                               [user_question; py_format w context;
                                py_str w (PInt requested_count)])] ;;
     ret (Str.strip content))
    (fun _ => ret "There was an error while generating the answer.").

End fetch_data_from_pdf.

(** ** sqlite_setup.py *)

Module sqlite_setup.

(** [get_sqlite_conn()]: the CSV is read and written over the table
    [real_estate], whatever the table held.  A failure is taken to leave
    the table as it was. *)
Definition get_sqlite_conn (w : World) : Py unit :=
  fun s =>
    let answer := get_sqlite_conn w (clock s) in
    {| val := answer;
       out := [EvGetSqliteConn answer];
       st := {| clock := S (clock s);
                store := store s;
                real_estate := match answer with
                               | Ok _ => csv_rows w (clock s)
                               | Raise _ => real_estate s
                               end |};
       exits := false |}.

End sqlite_setup.

(** ** agent_router.py *)

(** [{k: row[k] for k in keys_to_keep if k in row}].  For a row that is not
    a dict, [k in row] is a membership or substring test, or raises; the
    subscription [row[k]] by a string then raises. *)
Definition restrict_row (keys_to_keep : list string) (row : pyval) : result pyval :=
  match row with
  | PDict d =>
      Ok (PDict (map (fun k => (k, dict_get k d))
                   (List.filter (fun k => dict_mem k d) keys_to_keep)))
  | PList l =>
      if existsb (fun k => py_in (PStr k) l) keys_to_keep
      then Raise (TypeError "list indices must be integers or slices, not str")
      else Ok (PDict [])
  | PStr s =>
      if existsb (fun k => Str.contains k s) keys_to_keep
      then Raise (TypeError "string indices must be integers, not 'str'")
      else Ok (PDict [])
  | _ =>
      match keys_to_keep with
      | [] => Ok (PDict [])
      | _ => Raise (TypeError ("argument of type '" +:+ type_name row +:+
                               "' is not iterable"))
      end
  end.

(** The truncation block of [generate_natural_answer], with its
    [try/except]: an exception leaves [structured_data] as last assigned. *)
Definition truncate_rows (structured_data : pyval) : pyval :=
  match structured_data with
  | PList l =>
      let structured_data := slice_to 10 l in
      match structured_data with
      | [] => PList structured_data
      | PDict first :: _ =>
          let keys_to_keep := slice_to 5 (dict_keys first) in
          match map_result (restrict_row keys_to_keep) structured_data with
          | Ok rows => PList rows
          | Raise _ => PList structured_data
          end
      | _ :: _ => PList structured_data
      end
  | _ => structured_data
  end.

Definition default_route : pyval :=
  PDict [("destination", PStr "sql"); ("property_mention", PNone);
         ("agent_mention", PNone)].

Definition friendly_fallback : string :=
  "Hello! I'm here to help you analyze your property portfolio — " +:+
  "from sales performance to agent effectiveness and customer feedback. " +:+
  "Let me know what you'd like to explore today.".

Definition sorry_message (user_question : string) : string :=
  "Sorry, no relevant information found for: **" +:+ user_question +:+ "**.".

Section agent_router.
Variable w : World.

Definition is_general_message (user_message : string) : Py bool :=
  try_except
    (content <- chat_create w IsGeneralMessage
                  [Msg User (prompt w IsGeneralMessage [user_message])] ;;
     ret (Str.eqb (Str.lower (Str.strip content)) "general"))
    (fun _ => ret false).

Definition generate_friendly_reply (user_message : string) : Py string :=
  try_except
    (content <- chat_create w GenerateFriendlyReply
                  [Msg User (prompt w GenerateFriendlyReply [user_message])] ;;
     ret (Str.strip content))
    (fun _ => ret friendly_fallback).

Definition route_messages (user_question : string)
    (chat_memory_dict : option transcript) : list message :=
  [Msg System (prompt w RouteQuery [])] ++
  (if memory_truthy chat_memory_dict
   then flat_map (fun qa => [Msg User (fst qa); Msg Assistant (snd qa)])
          (memory_or_empty chat_memory_dict)
   else []) ++
  [Msg User user_question].

Definition route_query_with_function_call (user_question : string)
    (chat_memory_dict : option transcript) : Py pyval :=
  try_except
    (arguments <- chat_create w RouteQuery
                    (route_messages user_question chat_memory_dict) ;;
     lift (json_loads w arguments))
    (fun _ => ret default_route).

(** The request of [generate_natural_answer], for the text that
    [json.dumps] made of the data. *)
Definition natural_answer_messages (user_question dumped : string)
  : list message :=
  [Msg User (prompt w GenerateNaturalAnswer [user_question; dumped])].

Definition generate_natural_answer (user_question : string)
    (structured_data : pyval) : Py string :=
  let structured_data := truncate_rows structured_data in
  dumped <- lift (json_dumps w structured_data) ;;
  try_except
    (content <- chat_create w GenerateNaturalAnswer
                  (natural_answer_messages user_question dumped) ;;
     ret (Str.strip content))
    (fun _ => ret "There was an error while generating the final answer.").

Definition dest_is (destination : pyval) (name : string) : bool :=
  match destination with
  | PStr s => Str.eqb s name
  | _ => false
  end.

(** The body of the [try] of [run_query]: the call of the backend that
    [destination] names. *)
Definition dispatch (query : string) (memory : option transcript)
    (destination property_mention agent_mention : pyval) : Py (pyval * pyval) :=
  if dest_is destination "sql" then
    sqlite_setup.get_sqlite_conn w ;;;
    result <- handle_user_question w query property_mention agent_mention
                memory 3 ;;
    ret (result, destination)
  else if dest_is destination "firestore" then
    result <- handle_user_feedback_query w query "feedback_feedback"
                property_mention agent_mention memory ;;
    ret (result, destination)
  else if dest_is destination "faiss" then
    result <- search_property_pdfs w query property_mention memory 3 ;;
    if dict_mem "error" result || negb (truthy (dict_get "context" result))
    then ret (PNone, destination)
    else
      answer <- generate_answer_from_context w query (dict_get "context" result) ;;
      ret (PStr answer, destination)
  else ret (PStr "Invalid routing destination.", PStr "invalid").

(** The inner function [run_query] of [handle_routed_query]. *)
Definition run_query (query : string) (memory : option transcript)
  : Py (pyval * pyval) :=
  route_info <- route_query_with_function_call query memory ;;
  destination <- lift (py_get route_info "destination") ;;
  property_mention <- lift (py_get route_info "property_mention") ;;
  agent_mention <- lift (py_get route_info "agent_mention") ;;
  try_except
    (dispatch query memory destination property_mention agent_mention)
    (fun _ => ret (PStr "An error occurred while processing your query.",
                   PStr "error")).

(** [generate_natural_answer(q, r) if isinstance(r, list) else r] *)
Definition present (user_question : string) (result : pyval) : Py pyval :=
  if is_list result
  then answer <- generate_natural_answer user_question result ;; ret (PStr answer)
  else ret result.

(** [result and (not isinstance(result, str) or
     "no relevant" not in result.lower())] *)
Definition is_hit (result : pyval) : bool :=
  truthy result &&
  match result with
  | PStr s => negb (Str.contains "no relevant" (Str.lower s))
  | _ => true
  end.

Definition handle_routed_query (user_question : string)
    (chat_memory_dict : option transcript) : Py pyval :=
  general <- is_general_message user_question ;;
  if general then
    reply <- generate_friendly_reply user_question ;; ret (PStr reply)
  else
    primary <- run_query user_question chat_memory_dict ;;
    let result := fst primary in
    if is_hit result then present user_question result
    else if memory_truthy chat_memory_dict then
      fallback <- run_query user_question chat_memory_dict ;;
      let fallback_result := fst fallback in
      if truthy fallback_result then present user_question fallback_result
      else ret (PStr (sorry_message user_question))
    else ret (PStr (sorry_message user_question)).

End agent_router.

(** ** app.py *)

(** [d[k] = v]: the value of a present key is replaced in place, a new key
    goes to the end. *)
Fixpoint dict_set (k : string) (v : pyval) (d : pydict) : pydict :=
  match d with
  | [] => [(k, v)]
  | (k', v') :: d' =>
      if Str.eqb k k' then (k, v) :: d' else (k', v') :: dict_set k v d'
  end.

Definition KeyError (key : string) : exn := mk_exn "KeyError" (Str.repr key) "".

(** [d[k]] *)
Definition dict_index (k : string) (d : pydict) : result pyval :=
  if dict_mem k d then Ok (dict_get k d) else Raise (KeyError k).

(** The loop of [app.py] that turns the history into [chat_memory_dict]:
    [for i, (q, a) in enumerate(history, start=1): d[f"q{i}"] = q;
    d[f"a{i}"] = a], from index [i] on. *)
Fixpoint fill_memory (i : nat) (chat_history : transcript) (d : pydict) : pydict :=
  match chat_history with
  | [] => d
  | (q, a) :: rest =>
      fill_memory (S i) rest
        (dict_set ("a" +:+ str_of_nat i) (PStr a)
           (dict_set ("q" +:+ str_of_nat i) (PStr q) d))
  end.

Definition build_chat_memory_dict (chat_history : transcript) : pydict :=
  fill_memory 1 chat_history [].

(** What the backends read from the dict: the pairs
    [(d[f"q{i}"], d[f"a{i}"])] for [i in range(1, len(d) // 2 + 1)]. *)
Definition memory_pairs (d : pydict) : result (list (pyval * pyval)) :=
  map_result
    (fun i =>
       match dict_index ("q" +:+ str_of_nat i) d with
       | Raise e => Raise e
       | Ok q =>
           match dict_index ("a" +:+ str_of_nat i) d with
           | Raise e => Raise e
           | Ok a => Ok (q, a)
           end
       end)
    (seq 1 (length d / 2)).

Definition app_error_message : string := "Sorry, I couldn’t find the info.".

(** One pass of the script for a submitted question: the new history and
    the text shown to the user.  The router is given the dict built from
    the history, that is (see [memory_pairs]) the history itself. *)
Definition app_turn (w : World) (chat_history : transcript) (user_question : string)
  : Py (transcript * string) :=
  try_except
    (answer <- handle_routed_query w user_question (Some chat_history) ;;
     ret (chat_history ++ [(user_question, py_format w answer)],
          py_format w answer))
    (fun _ => ret (chat_history, app_error_message)).

(** * Vocabulary of the statements *)

(** *** Properties of computations *)

(** A computation all of whose events satisfy [P], from every state. *)
Definition emits {A} (P : event -> Prop) (m : Py A) : Prop :=
  forall s, Forall P (out (m s)).

(** A computation that leaves the store as it found it. *)
Definition keeps_store {A} (m : Py A) : Prop :=
  forall s, store (st (m s)) = store s.

(** A computation that raises only what [except Exception] catches. *)
Definition calm {A} (m : Py A) : Prop :=
  forall s, exits (m s) = false.

(** A computation that calls nothing outside: no event, no tick, the table
    as it was, and no exit. *)
Definition quiet {A} (m : Py A) : Prop :=
  forall s,
    out (m s) = [] /\ clock (st (m s)) = clock s /\
    real_estate (st (m s)) = real_estate s /\ exits (m s) = false.

(** The loop of [generate_feedback_analysis] that drops, from each entry,
    the feedback that is not in focus. *)
Definition focus_pops (feedback_focus : string) (data : list obj + string)
  : Py (list obj + string) :=
  if Str.eqb feedback_focus "property" then pop_entries "agent_feedback" data
  else if Str.eqb feedback_focus "agent" then pop_entries "property_feedback" data
  else ret data.

(** A computation that, started with at least [n] objects in the store,
    leaves those [n] as they are, and whose value satisfies [Q]. *)
Definition spares {A} (n : nat) (m : Py A) (Q : A -> Prop) : Prop :=
  forall s,
    (n <= length (store s))%nat ->
    (n <= length (store (st (m s))))%nat /\
    (forall l, (l < n)%nat -> store (st (m s)) !! l = store s !! l) /\
    (forall a, val (m s) = Ok a -> Q a).

(** A computation whose value, when it returns one, satisfies [Q]. *)
Definition yields {A} (Q : A -> Prop) (m : Py A) : Prop :=
  forall s a, val (m s) = Ok a -> Q a.

(** A computation whose result is [V ev] whenever it performs an event [ev]
    that satisfies [P]. *)
Definition reacts {A} (P : event -> Prop) (V : event -> result A -> bool -> Prop)
    (m : Py A) : Prop :=
  forall s ev, In ev (out (m s)) -> P ev -> V ev (val (m s)) (exits (m s)).

(** What a computation comes to after the evaluation [ev] of generated
    code that did not return: the exception's message in a fixed frame when
    the code raised an [Exception], and the exception itself, past every
    handler, when the code left the interpreter. *)
Definition after_eval {A} (text : string -> A) (ev : event) (v : result A)
    (x : bool) : Prop :=
  forall code answer,
    ev = EvEval code answer ->
    match eval_ended answer with
    | Returned _ => True
    | Raised e =>
        v = Ok (text ("Generated filter code failed: " +:+ exn_msg e)) /\ x = false
    | Exited e => v = Raise e /\ x = true
    end.

(** *** Digit runs *)

(** [s] holds no digit. *)
Fixpoint no_digits (s : string) : bool :=
  match s with
  | EmptyString => true
  | String a s' => negb (Str.is_digit a) && no_digits s'
  end.

(** [s] is empty or begins with a character that is not a digit. *)
Definition digit_free_start (s : string) : bool :=
  match s with
  | EmptyString => true
  | String a _ => negb (Str.is_digit a)
  end.

(** [runs_of s runs]: [runs] are the maximal runs of digits of [s], in the
    order in which they occur.  The text is cut into a digit-free
    separator, a non-empty run that cannot be extended to the right, and
    the rest. *)
Inductive runs_of : string -> list string -> Prop :=
| runs_done (sep : string) :
    no_digits sep = true -> runs_of sep []
| runs_more (sep run rest : string) (runs : list string) :
    no_digits sep = true ->
    run <> EmptyString -> Str.all_digits run = true ->
    digit_free_start rest = true ->
    runs_of rest runs ->
    runs_of (sep +:+ run +:+ rest) (run :: runs).

(** What [int()] makes of a run of digits. *)
Definition int_of_run (run : string) : result pyval :=
  if (max_str_digits <? String.length run)%nat
  then Raise (too_many_digits (String.length run))
  else Ok (PInt (Str.digits_value 0 run)).

Definition short_run (run : string) : Prop :=
  (String.length run <= max_str_digits)%nat.

(** *** The feedback handler and its records *)

(** The key that [generate_feedback_analysis] removes from its entries. *)
Definition focus_key (feedback_focus : string) : option string :=
  if Str.eqb feedback_focus "property" then Some "agent_feedback"
  else if Str.eqb feedback_focus "agent" then Some "property_feedback"
  else None.

(** [l in refs], for references. *)
Definition ref_in (l : nat) (refs : list nat) : bool := existsb (Nat.eqb l) refs.

(** References to objects created after the first [n]. *)
Definition fresh_refs (n : nat) (refs : list nat) : Prop :=
  Forall (fun l => (n <= l)%nat) refs.

(** An item that is no record among the first [n]. *)
Definition fresh_obj (n : nat) (o : obj) : Prop :=
  match o with
  | Ref l => (n <= l)%nat
  | Val _ => True
  end.

(** Data none of whose items is a record among the first [n]. *)
Definition fresh_data (n : nat) (data : pydata) : Prop :=
  match data with
  | DList items => Forall (fresh_obj n) items
  | DValue _ => True
  end.

(** A computation that leaves the table [real_estate] as it found it. *)
Definition keeps_table {A} (m : Py A) : Prop :=
  forall s, real_estate (st (m s)) = real_estate s.

(** A feedback record, as uploaded by [firestore_setup]. *)
Definition feedback_record (property_id agent_id : Z)
    (property_feedback agent_feedback : string) : pydict :=
  [("property_id", PInt property_id); ("agent_id", PInt agent_id);
   ("property_feedback", PStr property_feedback);
   ("agent_feedback", PStr agent_feedback)].

Definition is_str_value (v : pyval) : Prop := exists str, v = PStr str.

Definition is_eval (ev : event) : Prop :=
  match ev with
  | EvEval _ _ => True
  | _ => False
  end.

(** *** Events of the SQL handler *)

Definition is_generation (ev : event) : bool :=
  match ev with
  | EvChat GenerateSqlQuery _ _ => true
  | _ => false
  end.

Definition is_execution (ev : event) : bool :=
  match ev with
  | EvReadSqlQuery _ _ => true
  | _ => false
  end.

Definition is_failed_execution (ev : event) : bool :=
  match ev with
  | EvReadSqlQuery _ (Raise _) => true
  | _ => false
  end.

Definition count (f : event -> bool) (t : list event) : nat :=
  length (List.filter f t).

(** The question that [generate_sql_query] sends. *)
Definition asked_question (user_question : string)
    (previous_query error_msg : option string) : string :=
  match error_msg, previous_query with
  | Some e, Some q =>
      if Str.truthy e && Str.truthy q then regeneration_request q e
      else user_question
  | _, _ => user_question
  end.

(** Every generation that comes right after a failed execution is asked to
    repair that query, and is given that failure's traceback. *)
Fixpoint regenerations_informed (w : World) (t : list event) : Prop :=
  match t with
  | [] => True
  | ev :: t' =>
      match ev, t' with
      | EvReadSqlQuery q (Raise e), EvChat GenerateSqlQuery messages _ :: _ =>
          messages = sql_messages w (regeneration_request q (format_exc e))
      | _, _ => True
      end /\ regenerations_informed w t'
  end.

(** The test that guards [pd.read_sql_query]. *)
Definition looks_like_sql (sql_query : string) : bool :=
  Str.startswith_any ["select"; "with"] (Str.lower (Str.strip sql_query)).

(** *** Stages of a turn *)

(** The routing decision that [route_query_with_function_call] draws from
    the answer to its chat call. *)
Definition route_of (w : World) (answer : result string) : pyval :=
  match answer with
  | Ok arguments =>
      match json_loads w arguments with
      | Ok route_info => route_info
      | Raise _ => default_route
      end
  | Raise _ => default_route
  end.

Inductive kind : Type :=
| KClassify    (** the small-talk classification call *)
| KFriendly    (** the small-talk reply *)
| KRoute       (** the routing call *)
| KConn        (** opening the SQLite database *)
| KEntry       (** the entry of a backend handler *)
| KRetrieve    (** a read of one of the three stores *)
| KSummarize   (** a chat call that writes the answer from retrieved data *)
| KAux.        (** any other call made inside a backend *)

Definition kind_of (ev : event) : kind :=
  match ev with
  | EvChat IsGeneralMessage _ _ => KClassify
  | EvChat GenerateFriendlyReply _ _ => KFriendly
  | EvChat RouteQuery _ _ => KRoute
  | EvChat GenerateNaturalAnswer _ _ => KSummarize
  | EvChat GenerateAnswerFromContext _ _ => KSummarize
  | EvChat GenerateFeedbackAnalysis _ _ => KSummarize
  | EvChat ExtractTraitSummary _ _ => KSummarize
  | EvChat _ _ _ => KAux
  | EvGetSqliteConn _ => KConn
  | EvReadSqlQuery _ _ => KRetrieve
  | EvFirestoreStream _ _ => KRetrieve
  | EvSimilaritySearch _ _ _ => KRetrieve
  | EvEval _ _ => KAux
  | EvHandleUserQuestion _ _ _ _ => KEntry
  | EvHandleUserFeedbackQuery _ _ _ _ _ => KEntry
  | EvSearchPropertyPdfs _ _ _ => KEntry
  end.

Definition kind_eqb (a b : kind) : bool :=
  match a, b with
  | KClassify, KClassify | KFriendly, KFriendly | KRoute, KRoute
  | KConn, KConn | KEntry, KEntry | KRetrieve, KRetrieve
  | KSummarize, KSummarize | KAux, KAux => true
  | _, _ => false
  end.

Definition is_kind (k : kind) (ev : event) : bool := kind_eqb (kind_of ev) k.

(** The events of [t] are all of one of the listed kinds. *)
Definition kinds_among (ks : list kind) (t : list event) : Prop :=
  Forall (fun ev => existsb (kind_eqb (kind_of ev)) ks = true) t.

(** A read of one of the stores that returned. *)
Definition retrieved (ev : event) : bool :=
  match ev with
  | EvReadSqlQuery _ (Ok _) => true
  | EvFirestoreStream _ (Ok _) => true
  | EvSimilaritySearch _ _ (Ok _) => true
  | _ => false
  end.

(** Every event of [t] that satisfies [b] comes after one that satisfies
    [a]. *)
Definition precedes (a b : event -> bool) (t : list event) : Prop :=
  forall pre ev post,
    t = pre ++ ev :: post -> b ev = true ->
    Exists (fun ev' => a ev' = true) pre.

(** The entries of backend handlers in a trace. *)
Definition entries (t : list event) : list event := List.filter (is_kind KEntry) t.

Definition conn_failed (t : list event) : bool :=
  existsb (fun ev => match ev with EvGetSqliteConn (Raise _) => true | _ => false end) t.

(** What the small-talk classification makes of the answer to its call. *)
Definition general_of (answer : result string) : bool :=
  match answer with
  | Ok content => Str.eqb (Str.lower (Str.strip content)) "general"
  | Raise _ => false
  end.

(** The handler that [dispatch] is to call for a destination. *)
Definition selected (query : string) (memory : option transcript)
    (destination property_mention agent_mention : pyval) : option event :=
  if dest_is destination "sql" then
    Some (EvHandleUserQuestion query property_mention agent_mention memory)
  else if dest_is destination "firestore" then
    Some (EvHandleUserFeedbackQuery query "feedback_feedback" property_mention
            agent_mention memory)
  else if dest_is destination "faiss" then
    Some (EvSearchPropertyPdfs query property_mention memory)
  else None.

(** The handler that a routing decision selects, with the arguments it is
    called with. *)
Definition dispatched (route_info : pyval) (query : string) (memory : option transcript)
  : option event :=
  match route_info with
  | PDict d =>
      selected query memory (dict_get "destination" d)
        (dict_get "property_mention" d) (dict_get "agent_mention" d)
  | _ => None
  end.

(** One routing round of a turn: the routing call, then at most one
    backend, the one that the answer to that call selects. *)
Definition routing_round (w : World) (query : string) (memory : option transcript)
    (round : list event) : Prop :=
  exists answer body,
    round = EvChat RouteQuery (route_messages w query memory) answer :: body /\
    kinds_among [KConn; KEntry; KRetrieve; KSummarize; KAux] body /\
    entries body =
      match dispatched (route_of w answer) query memory with
      | Some entry => if conn_failed body then [] else [entry]
      | None => []
      end.

(** What a routing round must look like after its routing call. *)
Definition round_body (query : string) (memory : option transcript)
    (destination property_mention agent_mention : pyval) (body : list event) : Prop :=
  kinds_among [KConn; KEntry; KRetrieve; KSummarize; KAux] body /\
  entries body =
    match selected query memory destination property_mention agent_mention with
    | Some entry => if conn_failed body then [] else [entry]
    | None => []
    end /\
  precedes retrieved (is_kind KSummarize) body.

(** The reply to small talk drawn from the answer to its chat call. *)
Definition friendly_of (answer : result string) : string :=
  match answer with
  | Ok content => Str.strip content
  | Raise _ => friendly_fallback
  end.

(** The events of a business turn after its classification call: one
    routing round, or two when the chat memory is not empty, then at most
    the call that phrases the rows found. *)
Definition business_turn (w : World) (query : string) (memory : option transcript)
    (rest : list event) : Prop :=
  exists rounds tail,
    rest = concat rounds ++ tail /\
    (length rounds = 1%nat \/ (length rounds = 2%nat /\ memory_truthy memory = true)) /\
    Forall (routing_round w query memory) rounds /\
    Forall (precedes retrieved (is_kind KSummarize)) rounds /\
    kinds_among [KSummarize] tail /\
    (tail = [] \/ Exists (fun ev => retrieved ev = true) (concat rounds)).

(** A computation that has read a store whenever it returns a value that
    satisfies [Q]. *)
Definition retrieves {A} (Q : A -> Prop) (m : Py A) : Prop :=
  forall s a, val (m s) = Ok a -> Q a ->
              Exists (fun ev => retrieved ev = true) (out (m s)).

(** *** Worlds and states for the examples *)

(** Nothing outside answers: every chat call fails, the stores are empty. *)
Definition offline_world : World := {|
  prompt := fun _ args => String.concat " | " args;
  json_loads := fun _ => Raise (ValueError "Expecting value");
  json_dumps := fun _ => Ok "[...]";
  py_str := fun _ => "None";
  slice_of_dict := fun _ => TypeError "unhashable type: 'slice'";
  faiss_index := [];
  chat := fun _ _ _ => Raise (mk_exn "APIConnectionError" "Connection error." "");
  get_sqlite_conn := fun _ => Ok tt;
  csv_rows := fun _ => [];
  read_sql_query := fun _ _ => Ok [];
  firestore_stream := fun _ _ => Ok [];
  similarity_search := fun _ _ _ => Ok [];
  py_eval := fun _ _ records =>
               {| eval_records := records; eval_ended := Returned (Items []) |}
|}.

Definition with_chat (w : World)
    (f : nat -> call_site -> list message -> result string) : World := {|
  prompt := prompt w; json_loads := json_loads w; json_dumps := json_dumps w;
  py_str := py_str w; slice_of_dict := slice_of_dict w;
  faiss_index := faiss_index w;
  chat := f;
  get_sqlite_conn := get_sqlite_conn w; csv_rows := csv_rows w;
  read_sql_query := read_sql_query w;
  firestore_stream := firestore_stream w;
  similarity_search := similarity_search w; py_eval := py_eval w
|}.

Definition with_read_sql_query (w : World)
    (f : nat -> string -> result (list pydict)) : World := {|
  prompt := prompt w; json_loads := json_loads w; json_dumps := json_dumps w;
  py_str := py_str w; slice_of_dict := slice_of_dict w;
  faiss_index := faiss_index w;
  chat := chat w;
  get_sqlite_conn := get_sqlite_conn w; csv_rows := csv_rows w;
  read_sql_query := f;
  firestore_stream := firestore_stream w;
  similarity_search := similarity_search w; py_eval := py_eval w
|}.

Definition with_firestore (w : World)
    (f : nat -> string -> result (list pydict)) : World := {|
  prompt := prompt w; json_loads := json_loads w; json_dumps := json_dumps w;
  py_str := py_str w; slice_of_dict := slice_of_dict w;
  faiss_index := faiss_index w;
  chat := chat w;
  get_sqlite_conn := get_sqlite_conn w; csv_rows := csv_rows w;
  read_sql_query := read_sql_query w;
  firestore_stream := f;
  similarity_search := similarity_search w; py_eval := py_eval w
|}.

Definition with_eval (w : World)
    (f : nat -> string -> list pydict -> eval_answer) : World := {|
  prompt := prompt w; json_loads := json_loads w; json_dumps := json_dumps w;
  py_str := py_str w; slice_of_dict := slice_of_dict w;
  faiss_index := faiss_index w;
  chat := chat w;
  get_sqlite_conn := get_sqlite_conn w; csv_rows := csv_rows w;
  read_sql_query := read_sql_query w;
  firestore_stream := firestore_stream w;
  similarity_search := similarity_search w; py_eval := f
|}.

Definition with_json_loads (w : World) (f : string -> result pyval) : World := {|
  prompt := prompt w; json_loads := f; json_dumps := json_dumps w;
  py_str := py_str w; slice_of_dict := slice_of_dict w;
  faiss_index := faiss_index w;
  chat := chat w;
  get_sqlite_conn := get_sqlite_conn w; csv_rows := csv_rows w;
  read_sql_query := read_sql_query w;
  firestore_stream := firestore_stream w;
  similarity_search := similarity_search w; py_eval := py_eval w
|}.

Definition with_json_dumps (w : World) (f : pyval -> result string) : World := {|
  prompt := prompt w; json_loads := json_loads w; json_dumps := f;
  py_str := py_str w; slice_of_dict := slice_of_dict w;
  faiss_index := faiss_index w;
  chat := chat w;
  get_sqlite_conn := get_sqlite_conn w; csv_rows := csv_rows w;
  read_sql_query := read_sql_query w;
  firestore_stream := firestore_stream w;
  similarity_search := similarity_search w; py_eval := py_eval w
|}.

Definition start : State := {| clock := 0; store := []; real_estate := [] |}.

(** A state whose store holds one record, at reference 0. *)
Definition one_record : State :=
  {| clock := 0; store := [feedback_record 1 3 "bright rooms" "answered late"];
     real_estate := [] |}.

(** The model always answers with the same query, and the database rejects
    every query. *)
Definition stubborn_world : World :=
  with_read_sql_query
    (with_chat offline_world
       (fun _ site _ =>
          match site with
          | GenerateSqlQuery => Ok "SELECT price FROM real_estate"
          | _ => Raise (mk_exn "APIConnectionError" "Connection error." "")
          end))
    (fun _ _ => Raise (mk_exn "DatabaseError" "no such column: price" "")).

(** The model answers every request for a query with blanks. *)
Definition blank_world : World :=
  with_chat offline_world
    (fun _ site _ =>
       match site with
       | GenerateSqlQuery => Ok "   "
       | _ => Raise (mk_exn "APIConnectionError" "Connection error." "")
       end).

(** The model writes a filter that names an unknown variable; its
    evaluation raises. *)
Definition bad_filter_world : World :=
  with_eval
    (with_firestore
       (with_chat offline_world
          (fun _ site _ =>
             match site with
             | GenerateFilterCode => Ok "[entry for entry in entries]"
             | _ => Raise (mk_exn "APIConnectionError" "Connection error." "")
             end))
       (fun _ _ => Ok [feedback_record 1 3 "bright rooms" "answered late"]))
    (fun _ _ records =>
       {| eval_records := records;
          eval_ended := Raised (mk_exn "NameError" "name 'entries' is not defined" "") |}).

(** A mention made of [n] digits. *)
Fixpoint ones (n : nat) : string :=
  match n with
  | O => EmptyString
  | S n' => String "1" (ones n')
  end.

(** The model writes a filter that leaves the interpreter. *)
Definition exit_world : World :=
  with_eval
    (with_firestore
       (with_chat offline_world
          (fun _ site _ =>
             match site with
             | GenerateFilterCode => Ok "exit()"
             | _ => Raise (mk_exn "APIConnectionError" "Connection error." "")
             end))
       (fun _ _ => Ok [feedback_record 1 3 "bright rooms" "answered late"]))
    (fun _ _ records =>
       {| eval_records := records;
          eval_ended := Exited (mk_exn "SystemExit" "" "") |}).

(** The model writes a query that finds no row. *)
Definition no_rows_world : World :=
  with_chat offline_world
    (fun _ site _ =>
       match site with
       | GenerateSqlQuery => Ok "SELECT city FROM real_estate WHERE 1 = 0"
       | _ => Raise (mk_exn "APIConnectionError" "Connection error." "")
       end).

(** The routing call answers with the given decision. *)
Definition routed_world (route_info : pyval) : World :=
  with_json_loads
    (with_chat offline_world
       (fun _ site _ =>
          match site with
          | RouteQuery => Ok "{...}"
          | _ => Raise (mk_exn "APIConnectionError" "Connection error." "")
          end))
    (fun _ => Ok route_info).

(** The model finds the message to be small talk. *)
Definition small_talk_world : World :=
  with_chat offline_world
    (fun _ site _ =>
       match site with
       | IsGeneralMessage => Ok "General"
       | GenerateFriendlyReply => Ok " Hello! Ask me about your properties. "
       | _ => Raise (mk_exn "APIConnectionError" "Connection error." "")
       end).

(** A world in which a sales question is answered: the model classifies it
    as business, routes it to SQL, writes a query, and phrases the rows. *)
Definition sales_world : World :=
  with_read_sql_query
    (with_json_loads
       (with_chat offline_world
          (fun _ site _ =>
             match site with
             | IsGeneralMessage => Ok "business"
             | RouteQuery => Ok "{...}"
             | GenerateSqlQuery =>
                 Ok "SELECT city, COUNT(*) AS sales FROM real_estate GROUP BY city"
             | GenerateNaturalAnswer => Ok " Hartford leads with 12 sales. "
             | _ => Raise (mk_exn "APIConnectionError" "Connection error." "")
             end))
       (fun _ => Ok (PDict [("destination", PStr "sql")])))
    (fun _ _ => Ok [[("city", PStr "Hartford"); ("sales", PInt 12)]]).

(** A world in which a question about feedback is answered twice: the
    model routes it to the feedback store, and the summary it writes says
    that there is no relevant feedback, so that the router tries again. *)
Definition fallback_world : World :=
  with_firestore
    (with_json_loads
       (with_chat offline_world
          (fun _ site _ =>
             match site with
             | IsGeneralMessage => Ok "business"
             | RouteQuery => Ok "{...}"
             | ClassifyQueryType => Ok "analysis"
             | ExtractTraitSummary => Ok "No relevant feedback."
             | _ => Raise (mk_exn "APIConnectionError" "Connection error." "")
             end))
       (fun _ => Ok (PDict [("destination", PStr "firestore")])))
    (fun _ _ => Ok [feedback_record 1 3 "bright rooms" "answered late"]).

(** *** The chat memory *)

(** The entries that [app.py] writes for a history, numbered from [i]. *)
Fixpoint memory_entries (i : nat) (chat_history : transcript) : pydict :=
  match chat_history with
  | [] => []
  | (q, a) :: rest =>
      ("q" +:+ str_of_nat i, PStr q) :: ("a" +:+ str_of_nat i, PStr a)
      :: memory_entries (S i) rest
  end.

(** [d] holds no key [q<j>] or [a<j>] with [j] from [i] on. *)
Definition no_later (i : nat) (d : pydict) : Prop :=
  forall j, (i <= j)%nat ->
            dict_mem ("q" +:+ str_of_nat j) d = false /\
            dict_mem ("a" +:+ str_of_nat j) d = false.

(** *** Values and exceptions of computations *)

(** A computation whose value satisfies [Q] when it returns and whose
    exception satisfies [E] when it raises one that [except Exception]
    would catch. *)
Definition results {A} (Q : A -> Prop) (E : exn -> Prop) (m : Py A) : Prop :=
  forall s,
    match val (m s) with
    | Ok a => Q a
    | Raise e => exits (m s) = false -> E e
    end.

(** A computation that is left past the handlers only by evaluated code
    that left the interpreter. *)
Definition exits_by_eval {A} (m : Py A) : Prop :=
  forall s,
    exits (m s) = true ->
    exists code answer e,
      In (EvEval code answer) (out (m s)) /\ eval_ended answer = Exited e /\
      val (m s) = Raise e.

(** What a backend hands to the router: [None], a string or a list. *)
Definition is_answer (v : pyval) : Prop :=
  v = PNone \/ is_str_value v \/ is_list v = true.

Definition is_dict_value (v : pyval) : Prop := exists d, v = PDict d.

(** *** The mentions of the feedback handler *)

(** The request by which [infer_mentions_and_context] asks for the
    mentions. *)
Definition mention_messages (w : World) (user_question : string)
    (chat_memory_dict : option transcript) : list message :=
  [Msg User (prompt w InferMentions
               [history_text (memory_or_empty chat_memory_dict); user_question])].

(** The mentions that it draws from the answer to that call. *)
Definition mentions_of (w : World) (answer : result string) : pyval :=
  match answer with
  | Ok content =>
      match json_loads w (Str.strip content) with
      | Ok mentions => mentions
      | Raise _ => no_mentions
      end
  | Raise _ => no_mentions
  end.

(** The world in which the model's inference for [key] is replaced by
    [v]. *)
Definition with_inferred (w : World) (key : string) (v : pyval) : World :=
  with_json_loads w
    (fun text =>
       match json_loads w text with
       | Ok (PDict d) => Ok (PDict (dict_set key v d))
       | parsed => parsed
       end).

(** The lists of ids that the handler computes from the mentions it was
    passed and the inferred ones, before it asks the classifiers. *)
Definition ids_of (property_mention agent_mention mentions : pyval)
  : result (list pyval * list pyval) :=
  match resolve_mention property_mention mentions "property_id" with
  | Raise e => Raise e
  | Ok prop_id_raw =>
      match resolve_mention agent_mention mentions "agent_id" with
      | Raise e => Raise e
      | Ok agent_id_raw =>
          match normalize_ids prop_id_raw with
          | Raise e => Raise e
          | Ok prop_ids =>
              match normalize_ids agent_id_raw with
              | Raise e => Raise e
              | Ok agent_ids => Ok (prop_ids, agent_ids)
              end
          end
      end
  end.

(** *** Groups of texts *)

(** The texts that a ranked list pairs with the key [pid], in order. *)
Definition texts_of (pid : string) (ranked : list (string * string)) : list string :=
  map snd (List.filter (fun pc => Str.eqb pid (fst pc)) ranked).

(** *** The searches of the PDFs *)

(** The property numbers that the answer of the extraction names. *)
Definition mentioned_ids (answer : result string) : list string :=
  match answer with
  | Ok content => Str.findall_property (Str.lower (Str.strip content))
  | Raise _ => []
  end.

(** The indexes to search for those numbers: theirs, as far as they exist,
    or all when no number is named. *)
Definition search_keys (w : World) (ids : list string) : list string :=
  match ids with
  | [] => faiss_index w
  | _ => List.filter (fun key => existsb (Str.eqb key) (faiss_index w))
           (map (fun d => "Property_ID_" +:+ d) ids)
  end.

(** The keys of the indexes searched in a trace, in order. *)
Fixpoint searched (t : list event) : list string :=
  match t with
  | [] => []
  | EvSimilaritySearch key _ _ :: t' => key :: searched t'
  | _ :: t' => searched t'
  end.

(** *** Calls of the feedback handler *)

(** The request for a filter, and the evaluation of the code that the
    model wrote for it. *)
Definition generated_filter (ev : event) : Prop :=
  match ev with
  | EvChat GenerateFilterCode _ _ => True
  | EvEval _ _ => True
  | _ => False
  end.

(** The chat call that summarises the selected feedback. *)
Definition is_feedback_summary (ev : event) : Prop :=
  match ev with
  | EvChat GenerateFeedbackAnalysis _ _ => True
  | _ => False
  end.

(** * Properties *)

(** ** Equations of the monad *)

Section monad_equations.
Context {A B : Type}.

Lemma out_bind (m : Py A) (k : A -> Py B) s :
  out (bind m k s) =
  out (m s) ++ match val (m s) with
               | Ok a => out (k a (st (m s)))
               | Raise _ => []
               end.
Proof.
  unfold bind. destruct (val (m s)); simpl; [reflexivity|].
  now rewrite app_nil_r.
Qed.

Lemma val_bind (m : Py A) (k : A -> Py B) s :
  val (bind m k s) =
  match val (m s) with
  | Ok a => val (k a (st (m s)))
  | Raise e => Raise e
  end.
Proof. unfold bind. now destruct (val (m s)). Qed.

Lemma st_bind (m : Py A) (k : A -> Py B) s :
  st (bind m k s) =
  match val (m s) with
  | Ok a => st (k a (st (m s)))
  | Raise _ => st (m s)
  end.
Proof. unfold bind. now destruct (val (m s)). Qed.

Lemma exits_bind (m : Py A) (k : A -> Py B) s :
  exits (bind m k s) =
  match val (m s) with
  | Ok a => exits (k a (st (m s)))
  | Raise _ => exits (m s)
  end.
Proof. unfold bind. now destruct (val (m s)). Qed.

Lemma out_try_except (m : Py A) (h : exn -> Py A) s :
  out (try_except m h s) =
  out (m s) ++ match val (m s) with
               | Ok _ => []
               | Raise e => if exits (m s) then [] else out (h e (st (m s)))
               end.
Proof.
  unfold try_except. destruct (val (m s)); simpl; [now rewrite app_nil_r|].
  destruct (exits (m s)); simpl; [now rewrite app_nil_r | reflexivity].
Qed.

Lemma val_try_except (m : Py A) (h : exn -> Py A) s :
  val (try_except m h s) =
  match val (m s) with
  | Ok a => Ok a
  | Raise e => if exits (m s) then Raise e else val (h e (st (m s)))
  end.
Proof.
  unfold try_except. destruct (val (m s)) eqn:E; [exact E|].
  now destruct (exits (m s)).
Qed.

Lemma st_try_except (m : Py A) (h : exn -> Py A) s :
  st (try_except m h s) =
  match val (m s) with
  | Ok _ => st (m s)
  | Raise e => if exits (m s) then st (m s) else st (h e (st (m s)))
  end.
Proof.
  unfold try_except. destruct (val (m s)); [reflexivity|].
  now destruct (exits (m s)).
Qed.

Lemma exits_try_except (m : Py A) (h : exn -> Py A) s :
  exits (try_except m h s) =
  match val (m s) with
  | Ok _ => exits (m s)
  | Raise e => if exits (m s) then true else exits (h e (st (m s)))
  end.
Proof.
  unfold try_except. destruct (val (m s)); [reflexivity|].
  now destruct (exits (m s)) eqn:E.
Qed.

(** Under a [try] whose body raises only what the handler catches. *)
Lemma out_try_calm (m : Py A) (h : exn -> Py A) s :
  calm m ->
  out (try_except m h s) =
  out (m s) ++ match val (m s) with
               | Ok _ => []
               | Raise e => out (h e (st (m s)))
               end.
Proof. intros H. now rewrite out_try_except, (H s). Qed.

Lemma val_try_calm (m : Py A) (h : exn -> Py A) s :
  calm m ->
  val (try_except m h s) =
  match val (m s) with
  | Ok a => Ok a
  | Raise e => val (h e (st (m s)))
  end.
Proof. intros H. now rewrite val_try_except, (H s). Qed.

Lemma st_try_calm (m : Py A) (h : exn -> Py A) s :
  calm m ->
  st (try_except m h s) =
  match val (m s) with
  | Ok _ => st (m s)
  | Raise e => st (h e (st (m s)))
  end.
Proof. intros H. now rewrite st_try_except, (H s). Qed.

End monad_equations.

Section calm_rules.
Context {A B : Type}.

Lemma calm_ret (a : A) : calm (ret a).
Proof. intros s. reflexivity. Qed.

Lemma calm_raise (e : exn) : calm (@raise A e).
Proof. intros s. reflexivity. Qed.

Lemma calm_lift (r : result A) : calm (lift r).
Proof. destruct r; [apply calm_ret | apply calm_raise]. Qed.

Lemma calm_bind (m : Py A) (k : A -> Py B) :
  calm m -> (forall a, calm (k a)) -> calm (bind m k).
Proof.
  intros Hm Hk s. rewrite exits_bind.
  destruct (val (m s)); [apply Hk | apply Hm].
Qed.

Lemma calm_try_except (m : Py A) (h : exn -> Py A) :
  calm m -> (forall e, calm (h e)) -> calm (try_except m h).
Proof.
  intros Hm Hh s. rewrite exits_try_except, (Hm s).
  destruct (val (m s)); [reflexivity | apply Hh].
Qed.

Lemma calm_external (ev : result A -> event) (answer : nat -> result A) :
  calm (external ev answer).
Proof. intros s. reflexivity. Qed.

Lemma calm_emit (ev : event) : calm (emit ev).
Proof. intros s. reflexivity. Qed.

Lemma calm_get_store : calm get_store.
Proof. intros s. reflexivity. Qed.

Lemma calm_put_store h : calm (put_store h).
Proof. intros s. reflexivity. Qed.

End calm_rules.

Section emits_rules.
Context {A B : Type} (P : event -> Prop).

Lemma emits_ret (a : A) : emits P (ret a).
Proof. intros s. constructor. Qed.

Lemma emits_raise (e : exn) : emits P (@raise A e).
Proof. intros s. constructor. Qed.

Lemma emits_lift (r : result A) : emits P (lift r).
Proof. destruct r; [apply emits_ret | apply emits_raise]. Qed.

Lemma emits_bind (m : Py A) (k : A -> Py B) :
  emits P m -> (forall a, emits P (k a)) -> emits P (bind m k).
Proof.
  intros Hm Hk s. rewrite out_bind. apply Forall_app. split; [apply Hm|].
  destruct (val (m s)); [apply Hk | constructor].
Qed.

Lemma emits_try_except (m : Py A) (h : exn -> Py A) :
  emits P m -> (forall e, emits P (h e)) -> emits P (try_except m h).
Proof.
  intros Hm Hh s. rewrite out_try_except. apply Forall_app. split; [apply Hm|].
  destruct (val (m s)); [constructor|].
  destruct (exits (m s)); [constructor | apply Hh].
Qed.

Lemma emits_external (ev : result A -> event) (answer : nat -> result A) :
  (forall r, P (ev r)) -> emits P (external ev answer).
Proof. intros H s. simpl. constructor; [apply H | constructor]. Qed.

Lemma emits_emit (ev : event) : P ev -> emits P (emit ev).
Proof. intros H s. simpl. constructor; [exact H | constructor]. Qed.

Lemma emits_get_store : emits P get_store.
Proof. intros s. constructor. Qed.

Lemma emits_put_store h : emits P (put_store h).
Proof. intros s. constructor. Qed.

End emits_rules.

Section keeps_store_rules.
Context {A B : Type}.

Lemma keeps_ret (a : A) : keeps_store (ret a).
Proof. intros s. reflexivity. Qed.

Lemma keeps_raise (e : exn) : keeps_store (@raise A e).
Proof. intros s. reflexivity. Qed.

Lemma keeps_lift (r : result A) : keeps_store (lift r).
Proof. destruct r; [apply keeps_ret | apply keeps_raise]. Qed.

Lemma keeps_bind (m : Py A) (k : A -> Py B) :
  keeps_store m -> (forall a, keeps_store (k a)) -> keeps_store (bind m k).
Proof.
  intros Hm Hk s. rewrite st_bind.
  destruct (val (m s)); [rewrite Hk|]; apply Hm.
Qed.

Lemma keeps_try_except (m : Py A) (h : exn -> Py A) :
  keeps_store m -> (forall e, keeps_store (h e)) -> keeps_store (try_except m h).
Proof.
  intros Hm Hh s. rewrite st_try_except.
  destruct (val (m s)); [apply Hm|].
  destruct (exits (m s)); [|rewrite Hh]; apply Hm.
Qed.

Lemma keeps_external (ev : result A -> event) (answer : nat -> result A) :
  keeps_store (external ev answer).
Proof. intros s. reflexivity. Qed.

Lemma keeps_emit (ev : event) : keeps_store (emit ev).
Proof. intros s. reflexivity. Qed.

Lemma keeps_get_store : keeps_store get_store.
Proof. intros s. reflexivity. Qed.

End keeps_store_rules.

Lemma emits_chat_create (P : event -> Prop) (w : World) (site : call_site)
    (messages : list message) :
  (forall r, P (EvChat site messages r)) -> emits P (chat_create w site messages).
Proof. intros H. unfold chat_create. now apply emits_external. Qed.

Lemma keeps_chat_create (w : World) (site : call_site) (messages : list message) :
  keeps_store (chat_create w site messages).
Proof. intros s. reflexivity. Qed.

Lemma calm_chat_create (w : World) (site : call_site) (messages : list message) :
  calm (chat_create w site messages).
Proof. intros s. reflexivity. Qed.

Section keeps_table_rules.
Context {A B : Type}.

Lemma table_ret (a : A) : keeps_table (ret a).
Proof. intros s. reflexivity. Qed.

Lemma table_raise (e : exn) : keeps_table (@raise A e).
Proof. intros s. reflexivity. Qed.

Lemma table_lift (r : result A) : keeps_table (lift r).
Proof. destruct r; [apply table_ret | apply table_raise]. Qed.

Lemma table_bind (m : Py A) (k : A -> Py B) :
  keeps_table m -> (forall a, keeps_table (k a)) -> keeps_table (bind m k).
Proof.
  intros Hm Hk s. rewrite st_bind.
  destruct (val (m s)); [rewrite Hk|]; apply Hm.
Qed.

Lemma table_try_except (m : Py A) (h : exn -> Py A) :
  keeps_table m -> (forall e, keeps_table (h e)) -> keeps_table (try_except m h).
Proof.
  intros Hm Hh s. rewrite st_try_except.
  destruct (val (m s)); [apply Hm|].
  destruct (exits (m s)); [|rewrite Hh]; apply Hm.
Qed.

Lemma table_external (ev : result A -> event) (answer : nat -> result A) :
  keeps_table (external ev answer).
Proof. intros s. reflexivity. Qed.

Lemma table_emit (ev : event) : keeps_table (emit ev).
Proof. intros s. reflexivity. Qed.

Lemma table_get_store : keeps_table get_store.
Proof. intros s. reflexivity. Qed.

Lemma table_put_store h : keeps_table (put_store h).
Proof. intros s. reflexivity. Qed.

End keeps_table_rules.

Lemma table_chat_create (w : World) (site : call_site) (messages : list message) :
  keeps_table (chat_create w site messages).
Proof. intros s. reflexivity. Qed.

Lemma emits_get_sqlite_conn (P : event -> Prop) (w : World) :
  (forall r, P (EvGetSqliteConn r)) -> emits P (sqlite_setup.get_sqlite_conn w).
Proof. intros H s. cbn. constructor; [apply H | constructor]. Qed.

Lemma keeps_get_sqlite_conn (w : World) :
  keeps_store (sqlite_setup.get_sqlite_conn w).
Proof. intros s. reflexivity. Qed.

Lemma calm_get_sqlite_conn (w : World) : calm (sqlite_setup.get_sqlite_conn w).
Proof. intros s. reflexivity. Qed.

Create HintDb py discriminated.
#[export] Hint Resolve emits_get_sqlite_conn keeps_get_sqlite_conn
  calm_get_sqlite_conn : py.
#[export] Hint Resolve emits_chat_create keeps_chat_create calm_chat_create
  table_chat_create : py.
#[export] Hint Resolve table_ret table_raise table_lift table_external table_emit
  table_get_store table_put_store : py.
#[export] Hint Resolve calm_ret calm_raise calm_lift calm_external calm_emit
  calm_get_store calm_put_store : py.
#[export] Hint Resolve emits_ret emits_raise emits_lift emits_external emits_emit
  emits_get_store emits_put_store : py.
#[export] Hint Resolve keeps_ret keeps_raise keeps_lift keeps_external keeps_emit
  keeps_get_store : py.

(** Splits a goal about a composite computation along its structure. *)
Ltac py_step :=
  first
    [ solve [auto with py]
    | apply emits_bind; [|intro]
    | apply emits_try_except; [|intro]
    | apply keeps_bind; [|intro]
    | apply keeps_try_except; [|intro]
    | apply calm_bind; [|intro]
    | apply calm_try_except; [|intro]
    | apply table_bind; [|intro]
    | apply table_try_except; [|intro]
    | match goal with
      | |- emits _ (if ?b then _ else _) => destruct b
      | |- keeps_store (if ?b then _ else _) => destruct b
      | |- calm (if ?b then _ else _) => destruct b
      | |- keeps_table (if ?b then _ else _) => destruct b
      | |- emits _ (match ?x with _ => _ end) => destruct x
      | |- keeps_store (match ?x with _ => _ end) => destruct x
      | |- calm (match ?x with _ => _ end) => destruct x
      | |- keeps_table (match ?x with _ => _ end) => destruct x
      end ].

Ltac py_auto := repeat py_step.

(** The shape shared by most call sites: one chat call under a [try] whose
    handler returns a default. *)
Lemma try_chat_ret {A} (w : World) (site : call_site) (messages : list message)
    (f : string -> A) (d : exn -> A) (s : State) :
  try_except (bind (chat_create w site messages) (fun content => ret (f content)))
    (fun e => ret (d e)) s =
  {| val := Ok match chat w (clock s) site messages with
               | Ok content => f content
               | Raise e => d e
               end;
     out := [EvChat site messages (chat w (clock s) site messages)];
     st := tick s;
       exits := false |}.
Proof.
  unfold try_except, bind, chat_create, external, ret. simpl.
  destruct (chat w (clock s) site messages); reflexivity.
Qed.

(** ** Truncation before summarisation (C10) *)

Lemma dict_get_restricted (d : pydict) (keys : list string) (k : string) :
  dict_mem k (map (fun k => (k, dict_get k d)) keys) = true ->
  dict_get k (map (fun k => (k, dict_get k d)) keys) = dict_get k d.
Proof.
  induction keys as [|k' keys IH]; simpl; [discriminate|].
  unfold Str.eqb. destruct (String.eqb k k') eqn:E.
  - apply String.eqb_eq in E. now subst.
  - simpl. exact IH.
Qed.

Lemma restrict_rows_of_dicts (keys : list string) (rows : list pydict) :
  map_result (restrict_row keys) (map PDict rows) =
  Ok (map (fun d => PDict (map (fun k => (k, dict_get k d))
                             (List.filter (fun k => dict_mem k d) keys))) rows).
Proof.
  induction rows as [|d rows IH]; simpl; [reflexivity|].
  now rewrite IH.
Qed.

Lemma truncate_rows_of_dicts (rows : list pydict) :
  truncate_rows (PList (map PDict rows)) =
  PList (map (fun d => PDict (map (fun k => (k, dict_get k d))
                                (List.filter (fun k => dict_mem k d)
                                   (firstn 5 (dict_keys (hd [] rows))))))
           (firstn 10 rows)).
Proof.
  unfold truncate_rows, slice_to.
  destruct rows as [|first rows]; [reflexivity|].
  change (firstn 10 (map PDict (first :: rows)))
    with (PDict first :: firstn 9 (map PDict rows)).
  cbv iota beta.
  change (PDict first :: firstn 9 (map PDict rows))
    with (firstn 10 (map PDict (first :: rows))).
  rewrite firstn_map, restrict_rows_of_dicts. simpl hd. reflexivity.
Qed.

(** C10.  [generate_natural_answer] sends to the model the truncated data:
    a list of row dicts is cut to its first 10 rows and every kept row to
    those of the first 5 keys of the first row that it has, with the row's
    own values; a value that is not a list is sent as it is.  What is sent
    is the text that [json.dumps] makes of the truncated data; when
    [json.dumps] rejects them nothing is sent and its exception is
    raised. *)
Theorem generate_natural_answer_truncates (w : World) (user_question : string) :
  (forall rows : list pydict,
     exists kept : list pydict,
       truncate_rows (PList (map PDict rows)) = PList (map PDict kept) /\
       length kept = Nat.min 10 (length rows) /\
       forall (i : nat) (row row' : pydict),
         rows !! i = Some row -> kept !! i = Some row' ->
         dict_keys row' =
           List.filter (fun k => dict_mem k row)
             (firstn 5 (dict_keys (hd [] rows))) /\
         forall k, dict_mem k row' = true -> dict_get k row' = dict_get k row) /\
  (forall v, is_list v = false -> truncate_rows v = v) /\
  (forall data s,
     match json_dumps w (truncate_rows data) with
     | Ok dumped =>
         exists answer,
           out (generate_natural_answer w user_question data s) =
           [EvChat GenerateNaturalAnswer
              (natural_answer_messages w user_question dumped) answer]
     | Raise e =>
         out (generate_natural_answer w user_question data s) = [] /\
         val (generate_natural_answer w user_question data s) = Raise e
     end).
Proof.
  split; [|split].
  - intros rows.
    set (keys := firstn 5 (dict_keys (hd [] rows))).
    set (f := fun d : pydict =>
                map (fun k => (k, dict_get k d))
                  (List.filter (fun k => dict_mem k d) keys)).
    exists (map f (firstn 10 rows)). split; [|split].
    + rewrite truncate_rows_of_dicts, map_map. reflexivity.
    + rewrite length_map, length_firstn. reflexivity.
    + intros i row row' Hrow Hkept.
      rewrite list_lookup_fmap in Hkept.
      assert (Hi : firstn 10 rows !! i = Some row).
      { destruct (firstn 10 rows !! i) as [r|] eqn:E; [|discriminate].
        change firstn with (@take pydict) in E.
        apply lookup_take_Some in E as [E _]. congruence. }
      rewrite Hi in Hkept. simpl in Hkept. injection Hkept as <-.
      split.
      * unfold f, dict_keys. rewrite map_map. simpl. apply map_id.
      * intros k Hk. unfold f in *. revert Hk.
        generalize (List.filter (fun k0 => dict_mem k0 row) keys).
        intros l. apply dict_get_restricted.
  - intros v Hv. destruct v; try reflexivity. discriminate.
  - intros data s. unfold generate_natural_answer. cbv zeta.
    rewrite out_bind, val_bind.
    destruct (json_dumps w (truncate_rows data)) as [dumped|e];
      cbn [lift ret raise val out st app]; [|now split].
    rewrite try_chat_ret. eexists. reflexivity.
Qed.

Lemma generate_natural_answer_truncates_witness :
  truncate_rows (PStr "no rows") = PStr "no rows" /\
  exists kept,
    truncate_rows (PList [PDict [("city", PStr "Hartford"); ("sales", PInt 12)];
                          PDict [("sales", PInt 7); ("agent", PInt 3)]]) =
      PList (map PDict kept) /\
    length kept = 2%nat /\
    forall row', kept !! 1%nat = Some row' -> dict_keys row' = ["sales"].
Proof.
  destruct (generate_natural_answer_truncates offline_world "top cities?")
    as (H1 & H2 & _).
  split; [apply H2; reflexivity|].
  destruct (H1 [[("city", PStr "Hartford"); ("sales", PInt 12)];
                [("sales", PInt 7); ("agent", PInt 3)]]) as (kept & E & Hlen & Hrow).
  exists kept. split; [exact E|]. split; [exact Hlen|].
  intros row' Hk.
  exact (proj1 (Hrow 1%nat [("sales", PInt 7); ("agent", PInt 3)] row' eq_refl Hk)).
Defined.

(** ** Normalisation of the mentions (C9) *)

Lemma append_cons (a : ascii) (s t : string) :
  String a s +:+ t = String a (s +:+ t).
Proof. reflexivity. Qed.

Lemma append_empty_l (s : string) : EmptyString +:+ s = s.
Proof. reflexivity. Qed.

Lemma append_empty_r (s : string) : s +:+ EmptyString = s.
Proof.
  induction s as [|a s IH]; [reflexivity|]. now rewrite append_cons, IH.
Qed.

Lemma string_of_snoc (l : list ascii) (a : ascii) (d : string) :
  string_of_list_ascii (l ++ [a]) +:+ d = string_of_list_ascii l +:+ String a d.
Proof.
  induction l as [|b l IH]; [reflexivity|].
  simpl. now rewrite !append_cons, IH.
Qed.

Lemma digit_runs_aux_open (s : string) (cur : list ascii) :
  cur <> [] ->
  Str.digit_runs_aux cur s =
  (string_of_list_ascii (rev cur) +:+ fst (Str.take_digits s))
    :: Str.digit_runs (snd (Str.take_digits s)).
Proof.
  revert cur. induction s as [|a s IH]; intros cur Hcur.
  - simpl. rewrite append_empty_r. destruct cur; [contradiction | reflexivity].
  - simpl. destruct (Str.is_digit a) eqn:Ha.
    + rewrite IH by discriminate.
      destruct (Str.take_digits s) as [d r]. simpl.
      now rewrite string_of_snoc.
    + simpl. rewrite append_empty_r. unfold Str.digit_runs. simpl. rewrite Ha.
      destruct cur; [contradiction | reflexivity].
Qed.

Lemma digit_runs_cons (a : ascii) (s : string) :
  Str.digit_runs (String a s) =
  if Str.is_digit a
  then String a (fst (Str.take_digits s)) :: Str.digit_runs (snd (Str.take_digits s))
  else Str.digit_runs s.
Proof.
  unfold Str.digit_runs at 1. simpl. destruct (Str.is_digit a); [|reflexivity].
  now rewrite digit_runs_aux_open by discriminate.
Qed.

Lemma take_digits_spec (s : string) :
  s = fst (Str.take_digits s) +:+ snd (Str.take_digits s) /\
  Str.all_digits (fst (Str.take_digits s)) = true /\
  digit_free_start (snd (Str.take_digits s)) = true /\
  (String.length (snd (Str.take_digits s)) <= String.length s)%nat.
Proof.
  induction s as [|a s (IH1 & IH2 & IH3 & IH4)]; simpl.
  - repeat split; auto.
  - destruct (Str.is_digit a) eqn:Ha.
    + destruct (Str.take_digits s) as [d r]. simpl in *.
      rewrite Ha, IH2. repeat split; auto. rewrite append_cons. now rewrite <- IH1.
    + simpl. rewrite Ha. repeat split; auto.
Qed.

Lemma runs_of_skip (a : ascii) (s : string) (runs : list string) :
  Str.is_digit a = false -> runs_of s runs -> runs_of (String a s) runs.
Proof.
  intros Ha H. destruct H as [sep Hsep | sep run rest runs Hsep Hne Hrun Hrest H].
  - apply runs_done. simpl. now rewrite Ha.
  - change (String a (sep +:+ run +:+ rest)) with (String a sep +:+ run +:+ rest).
    apply runs_more; auto. simpl. now rewrite Ha.
Qed.

Lemma digit_runs_are_the_runs (s : string) : runs_of s (Str.digit_runs s).
Proof.
  remember (String.length s) as n eqn:Hn. revert s Hn.
  induction n as [n IH] using lt_wf_ind. intros s Hn.
  destruct s as [|a s].
  - apply runs_done. reflexivity.
  - rewrite digit_runs_cons. destruct (Str.is_digit a) eqn:Ha.
    + destruct (take_digits_spec s) as (E & Hd & Hr & Hlen).
      rewrite E at 1.
      change (String a (fst (Str.take_digits s) +:+ snd (Str.take_digits s)))
        with (EmptyString +:+ String a (fst (Str.take_digits s)) +:+
              snd (Str.take_digits s)).
      apply runs_more;
        [reflexivity | discriminate | simpl; now rewrite Ha, Hd | exact Hr |].
      eapply IH; [|reflexivity]. subst n. simpl. lia.
    + apply runs_of_skip; auto. eapply IH; [|reflexivity]. subst n. simpl. lia.
Qed.

Lemma digit_not_space (a : ascii) : Str.is_digit a = true -> Str.is_space a = false.
Proof.
  unfold Str.is_digit, Str.is_space. generalize (Str.code a). intros n H.
  apply andb_true_iff in H as [H1 H2].
  apply Nat.leb_le in H1. apply Nat.leb_le in H2.
  repeat match goal with
         | |- context [(?x <=? ?y)%nat] => destruct (Nat.leb_spec x y)
         | |- context [(?x =? ?y)%nat] => destruct (Nat.eqb_spec x y)
         end; simpl; try reflexivity; lia.
Qed.

Lemma lstrip_digits (s : string) : Str.all_digits s = true -> Str.lstrip s = s.
Proof.
  destruct s as [|a s]; simpl; [reflexivity|]. intros H.
  apply andb_true_iff in H as [H _]. now rewrite (digit_not_space a H).
Qed.

Lemma rstrip_digits (s : string) : Str.all_digits s = true -> Str.rstrip s = s.
Proof.
  induction s as [|a s IH]; simpl; [reflexivity|]. intros H.
  apply andb_true_iff in H as [Ha Hs]. rewrite (IH Hs).
  destruct s; [now rewrite (digit_not_space a Ha) | reflexivity].
Qed.

Lemma int_scan_digits (s : string) (b : bool) (digits : nat) (acc : Z) :
  Str.all_digits s = true -> (b = true \/ s <> EmptyString) ->
  int_scan b digits acc s =
    Some ((digits + String.length s)%nat, Str.digits_value acc s, EmptyString).
Proof.
  revert b digits acc. induction s as [|a s IH]; intros b digits acc H Hb; simpl.
  - rewrite Nat.add_0_r. destruct Hb as [-> | Hb]; [reflexivity | contradiction].
  - simpl in H. apply andb_true_iff in H as [Ha Hs]. rewrite Ha.
    rewrite IH by auto. now rewrite Nat.add_succ_r.
Qed.

(** [int()] of a run of digits: its value, unless the run is longer than
    the interpreter allows. *)
Lemma int_of_digits (r : string) :
  Str.all_digits r = true -> r <> EmptyString ->
  int_of_str r =
    if (max_str_digits <? String.length r)%nat
    then Raise (too_many_digits (String.length r))
    else Ok (Str.digits_value 0 r).
Proof.
  intros Hd Hne.
  assert (E : Str.strip r = r).
  { unfold Str.strip. now rewrite (lstrip_digits r Hd), (rstrip_digits r Hd). }
  unfold int_of_str. cbv zeta. rewrite E.
  destruct r as [|a r]; [contradiction|].
  assert (Ha : Str.is_digit a = true) by (simpl in Hd; now apply andb_true_iff in Hd).
  assert (H43 : (Str.code a =? 43)%nat = false).
  { unfold Str.is_digit in Ha. apply andb_true_iff in Ha as [H1 _].
    apply Nat.leb_le in H1. apply Nat.eqb_neq. lia. }
  assert (H45 : (Str.code a =? 45)%nat = false).
  { unfold Str.is_digit in Ha. apply andb_true_iff in Ha as [H1 _].
    apply Nat.leb_le in H1. apply Nat.eqb_neq. lia. }
  rewrite H43, H45.
  rewrite (int_scan_digits (String a r) false 0 0 Hd) by (right; discriminate).
  cbn [Nat.add]. now destruct (max_str_digits <? _)%nat.
Qed.

Lemma int_of_digit_run (r : string) :
  Str.all_digits r = true -> r <> EmptyString ->
  int_of_str (Str.strip r) =
    if (max_str_digits <? String.length r)%nat
    then Raise (too_many_digits (String.length r))
    else Ok (Str.digits_value 0 r).
Proof.
  intros Hd Hne.
  assert (E : Str.strip r = r).
  { unfold Str.strip. now rewrite (lstrip_digits r Hd), (rstrip_digits r Hd). }
  rewrite E. now apply int_of_digits.
Qed.

Lemma runs_are_digit_strings (s : string) (runs : list string) :
  runs_of s runs ->
  Forall (fun r => Str.all_digits r = true /\ r <> EmptyString) runs.
Proof. induction 1; constructor; auto. Qed.

Lemma normalize_str (s : string) :
  normalize_ids (PStr s) = map_result int_of_run (Str.digit_runs s).
Proof.
  unfold normalize_ids.
  pose proof (runs_are_digit_strings s _ (digit_runs_are_the_runs s)) as H.
  induction H as [|r runs [Hd Hne] _ IH]; simpl; [reflexivity|].
  rewrite (int_of_digit_run r Hd Hne), IH. unfold int_of_run.
  now destruct (max_str_digits <? String.length r)%nat.
Qed.

Lemma normalize_short_runs (runs : list string) :
  Forall short_run runs ->
  map_result int_of_run runs =
    Ok (map (fun r => PInt (Str.digits_value 0 r)) runs).
Proof.
  induction 1 as [|r runs Hr _ IH]; simpl; [reflexivity|].
  unfold int_of_run at 1. unfold short_run in Hr.
  destruct (Nat.ltb_spec max_str_digits (String.length r)); [lia|].
  now rewrite IH.
Qed.

Lemma normalize_long_run (before after : list string) (run : string) :
  Forall short_run before -> ~ short_run run ->
  map_result int_of_run (before ++ run :: after) =
    Raise (too_many_digits (String.length run)).
Proof.
  intros Hb Hr. induction Hb as [|r runs Hs _ IH]; simpl.
  - unfold int_of_run at 1. unfold short_run in Hr.
    destruct (Nat.ltb_spec max_str_digits (String.length run)); [reflexivity | lia].
  - unfold int_of_run at 1. unfold short_run in Hs.
    destruct (Nat.ltb_spec max_str_digits (String.length r)); [lia|].
    now rewrite IH.
Qed.

Lemma normalize_list (l : list pyval) :
  (forall x, In x l -> is_str x = true -> exists n, py_int x = Ok n) ->
  exists ns,
    map_result py_int (List.filter (fun x => is_str x || is_int x) l) = Ok ns /\
    normalize_ids (PList l) = Ok (map PInt ns).
Proof.
  unfold normalize_ids. induction l as [|x l IH]; intros H.
  - exists []. split; reflexivity.
  - destruct IH as (ns & E1 & E2); [intros y Hy; apply H; now right|].
    simpl. destruct (is_str x || is_int x) eqn:Hx.
    + assert (exists n, py_int x = Ok n) as [n Hn].
      { destruct (is_str x) eqn:Hs; [apply H; auto; now left|].
        simpl in Hx. destruct x; try discriminate; simpl; eauto. }
      exists (n :: ns). simpl. rewrite Hn, E1, E2. split; reflexivity.
    + exists ns. split; assumption.
Qed.

(** ** Catch and default (C2, C5) *)

Lemma route_query_run (w : World) (q : string) (mem : option transcript) (s : State) :
  route_query_with_function_call w q mem s =
  {| val := Ok (route_of w (chat w (clock s) RouteQuery (route_messages w q mem)));
     out := [EvChat RouteQuery (route_messages w q mem)
               (chat w (clock s) RouteQuery (route_messages w q mem))];
     st := tick s;
       exits := false |}.
Proof.
  unfold route_query_with_function_call, try_except, bind, chat_create, external,
    route_of, tick. simpl.
  destruct (chat w (clock s) RouteQuery (route_messages w q mem)) as [a|e];
    simpl; [|reflexivity].
  destruct (json_loads w a); reflexivity.
Qed.

Lemma is_general_message_run (w : World) (q : string) (s : State) :
  is_general_message w q s =
  {| val := Ok match chat w (clock s) IsGeneralMessage
                       [Msg User (prompt w IsGeneralMessage [q])] with
               | Ok content => Str.eqb (Str.lower (Str.strip content)) "general"
               | Raise _ => false
               end;
     out := [EvChat IsGeneralMessage [Msg User (prompt w IsGeneralMessage [q])]
               (chat w (clock s) IsGeneralMessage
                  [Msg User (prompt w IsGeneralMessage [q])])];
     st := tick s;
       exits := false |}.
Proof. unfold is_general_message. now rewrite try_chat_ret. Qed.

Lemma run_query_starts_with_routing (w : World) (q : string)
    (mem : option transcript) (s : State) :
  exists rest,
    out (run_query w q mem s) =
    EvChat RouteQuery (route_messages w q mem)
      (chat w (clock s) RouteQuery (route_messages w q mem)) :: rest.
Proof.
  unfold run_query. rewrite out_bind, route_query_run. simpl. eauto.
Qed.

(** C2.  A failed classification falls back to a fixed route.  When the
    routing call raises, or its arguments do not parse, the route is the
    fixed record with destination [sql] and no mentions.  When the
    small-talk classification raises, [is_general_message] answers [False],
    and the turn goes on with the routing call. *)
Theorem classification_failures_default (w : World) (user_question : string)
    (chat_memory_dict : option transcript) (s : State) :
  (forall e,
     chat w (clock s) RouteQuery (route_messages w user_question chat_memory_dict)
       = Raise e ->
     val (route_query_with_function_call w user_question chat_memory_dict s)
       = Ok default_route) /\
  (forall arguments e,
     chat w (clock s) RouteQuery (route_messages w user_question chat_memory_dict)
       = Ok arguments ->
     json_loads w arguments = Raise e ->
     val (route_query_with_function_call w user_question chat_memory_dict s)
       = Ok default_route) /\
  (forall e,
     chat w (clock s) IsGeneralMessage
       [Msg User (prompt w IsGeneralMessage [user_question])] = Raise e ->
     val (is_general_message w user_question s) = Ok false /\
     exists answer rest,
       out (handle_routed_query w user_question chat_memory_dict s) =
       EvChat IsGeneralMessage
         [Msg User (prompt w IsGeneralMessage [user_question])] (Raise e)
       :: EvChat RouteQuery (route_messages w user_question chat_memory_dict) answer
       :: rest).
Proof.
  split; [|split].
  - intros e H. rewrite route_query_run. simpl. now rewrite H.
  - intros a e H J. rewrite route_query_run. simpl. rewrite H. simpl. now rewrite J.
  - intros e H. rewrite is_general_message_run. simpl. rewrite H.
    split; [reflexivity|].
    unfold handle_routed_query. rewrite out_bind, is_general_message_run. simpl.
    rewrite H.
    rewrite out_bind.
    destruct (run_query_starts_with_routing w user_question chat_memory_dict (tick s))
      as [rest E].
    rewrite E. simpl. eauto.
Qed.

Lemma classification_failures_default_witness :
  val (route_query_with_function_call offline_world "best city?" None start)
    = Ok default_route /\
  val (route_query_with_function_call
         (with_chat offline_world (fun _ _ _ => Ok "not json")) "best city?" None
         start)
    = Ok default_route /\
  val (is_general_message offline_world "best city?" start) = Ok false /\
  exists answer rest,
    out (handle_routed_query offline_world "best city?" None start) =
    EvChat IsGeneralMessage [Msg User "best city?"]
      (Raise (mk_exn "APIConnectionError" "Connection error." ""))
    :: EvChat RouteQuery (route_messages offline_world "best city?" None) answer
    :: rest.
Proof.
  destruct (classification_failures_default offline_world "best city?" None start)
    as (H1 & _ & H3).
  destruct (classification_failures_default
              (with_chat offline_world (fun _ _ _ => Ok "not json"))
              "best city?" None start) as (_ & H2 & _).
  split; [eapply H1; reflexivity|].
  split; [eapply H2; reflexivity|].
  exact (H3 _ eq_refl).
Defined.

Section quiet_rules.
Context {A B : Type}.

Lemma quiet_ret (a : A) : quiet (ret a).
Proof. intros s. now cbn. Qed.

Lemma quiet_raise (e : exn) : quiet (@raise A e).
Proof. intros s. now cbn. Qed.

Lemma quiet_lift (r : result A) : quiet (lift r).
Proof. destruct r; [apply quiet_ret | apply quiet_raise]. Qed.

Lemma quiet_get_store : quiet get_store.
Proof. intros s. now cbn. Qed.

Lemma quiet_put_store h : quiet (put_store h).
Proof. intros s. now cbn. Qed.

Lemma quiet_bind (m : Py A) (k : A -> Py B) :
  quiet m -> (forall a, quiet (k a)) -> quiet (bind m k).
Proof.
  intros Hm Hk s. destruct (Hm s) as (Ho & Hc & Ht & Hx).
  rewrite out_bind, st_bind, exits_bind, Ho.
  destruct (val (m s)) as [a|e]; [|now rewrite Hc, Ht, Hx].
  destruct (Hk a (st (m s))) as (Ho' & Hc' & Ht' & Hx').
  now rewrite Ho', Hc', Ht', Hx', Hc, Ht.
Qed.

End quiet_rules.

Lemma pop_entry_quiet (key : string) (entry : obj) : quiet (pop_entry key entry).
Proof.
  destruct entry as [l|v]; cbn [pop_entry].
  - apply quiet_bind; [apply quiet_get_store|]. intros h.
    apply quiet_bind; [apply quiet_put_store|]. intros _. apply quiet_ret.
  - destruct v; (apply quiet_ret || apply quiet_raise).
Qed.

Lemma pop_each_quiet (key : string) (data : list obj) : quiet (pop_each key data).
Proof.
  induction data as [|entry data IH]; cbn [pop_each]; [apply quiet_ret|].
  apply quiet_bind; [apply pop_entry_quiet|]. intros entry'.
  apply quiet_bind; [exact IH|]. intros data'. apply quiet_ret.
Qed.

Lemma pop_entries_quiet (key : string) (data : list obj + string) :
  quiet (pop_entries key data).
Proof.
  destruct data as [items|[|a text]]; cbn [pop_entries].
  - apply quiet_bind; [apply pop_each_quiet|]. intros. apply quiet_ret.
  - apply quiet_ret.
  - apply quiet_raise.
Qed.

Lemma focus_pops_quiet (feedback_focus : string) (data : list obj + string) :
  quiet (focus_pops feedback_focus data).
Proof.
  unfold focus_pops.
  destruct (Str.eqb feedback_focus "property"); [apply pop_entries_quiet|].
  destruct (Str.eqb feedback_focus "agent"); [apply pop_entries_quiet|].
  apply quiet_ret.
Qed.

Lemma quiet_emits {A} (P : event -> Prop) (m : Py A) : quiet m -> emits P m.
Proof. intros H s. rewrite (proj1 (H s)). constructor. Qed.

Lemma quiet_calm {A} (m : Py A) : quiet m -> calm m.
Proof. intros H s. apply (H s). Qed.

Lemma quiet_keeps_table {A} (m : Py A) : quiet m -> keeps_table m.
Proof. intros H s. apply (H s). Qed.

Lemma pop_entries_silent (P : event -> Prop) (key : string)
    (data : list obj + string) :
  emits P (pop_entries key data).
Proof. apply quiet_emits, pop_entries_quiet. Qed.

Lemma pop_entries_calm (key : string) (data : list obj + string) :
  calm (pop_entries key data).
Proof. apply quiet_calm, pop_entries_quiet. Qed.

Lemma pop_entries_keeps_table (key : string) (data : list obj + string) :
  keeps_table (pop_entries key data).
Proof. apply quiet_keeps_table, pop_entries_quiet. Qed.

#[export] Hint Resolve pop_entries_silent pop_entries_calm
  pop_entries_keeps_table : py.

(** [generate_feedback_analysis] opened: it raises before it calls the
    model, or it makes its one call and returns. *)
Lemma generate_feedback_analysis_open (w : World) (q : string) (data : pydata)
    (mem : option transcript) (focus : string) (n : nat) (s : State) :
  let r := generate_feedback_analysis w q data mem focus n s in
  exits r = false /\
  ((out r = [] /\ exists e, val r = Raise e) \/
   exists messages,
     out r = [EvChat GenerateFeedbackAnalysis messages
                (chat w (clock s) GenerateFeedbackAnalysis messages)] /\
     val r = Ok match chat w (clock s) GenerateFeedbackAnalysis messages with
                | Ok content => Str.strip content
                | Raise _ => "There was an error while summarizing the feedback."
                end).
Proof.
  cbv zeta. unfold generate_feedback_analysis.
  change (if Str.eqb focus "property" then pop_entries "agent_feedback" ?d
          else if Str.eqb focus "agent" then pop_entries "property_feedback" ?d
          else ret ?d) with (focus_pops focus d).
  rewrite out_bind, val_bind, exits_bind.
  destruct (data_slice w n data) as [sliced|e];
    cbn [lift ret raise val out st exits app]; [|split; [reflexivity | left; eauto]].
  change (fun data0 : list obj + string =>
            if Str.eqb focus "property" then pop_entries "agent_feedback" data0
            else if Str.eqb focus "agent" then pop_entries "property_feedback" data0
            else ret data0) with (focus_pops focus).
  rewrite out_bind, val_bind, exits_bind.
  destruct (focus_pops_quiet focus sliced s) as (Ho & Hc & _ & Hx).
  rewrite Ho, Hx.
  destruct (val (focus_pops focus sliced s)) as [popped|e];
    [|split; [reflexivity | left; eauto]].
  rewrite out_bind, val_bind, exits_bind.
  destruct mem as [m|]; cbn [memory_len_checked lift ret raise val out st exits app];
    [|split; [reflexivity | left; eauto]].
  rewrite out_bind, val_bind, exits_bind. cbn [get_store val out st exits app].
  rewrite out_bind, val_bind, exits_bind.
  destruct (json_dumps w _) as [shown|e];
    cbn [lift ret raise val out st exits app]; [|split; [reflexivity | left; eauto]].
  rewrite try_chat_ret. cbn [val out st exits]. rewrite Hc.
  split; [reflexivity|]. right. eexists. split; reflexivity.
Qed.

Lemma extract_requested_count_run (w : World) (q : string) (default : Z) (s : State) :
  exists n,
    extract_requested_count_via_llm w q default s =
    {| val := Ok n;
       out := [EvChat ExtractRequestedCount
                 [Msg System (prompt w ExtractRequestedCount []); Msg User q]
                 (chat w (clock s) ExtractRequestedCount
                    [Msg System (prompt w ExtractRequestedCount []); Msg User q])];
       st := tick s;
       exits := false |}.
Proof.
  unfold extract_requested_count_via_llm, try_except, bind, chat_create, external,
    tick. simpl.
  destruct (chat w (clock s) ExtractRequestedCount _) as [content|e]; simpl;
    [|eauto].
  destruct (Str.digit_runs (Str.strip content)) as [|d ds]; simpl; [eauto|].
  destruct (int_of_str d); simpl; eauto.
Qed.

Lemma generate_natural_answer_open (w : World) (q : string) (data : pyval)
    (s : State) :
  let r := generate_natural_answer w q data s in
  exits r = false /\
  match json_dumps w (truncate_rows data) with
  | Raise e => out r = [] /\ val r = Raise e /\ st r = s
  | Ok dumped =>
      let messages := natural_answer_messages w q dumped in
      out r = [EvChat GenerateNaturalAnswer messages
                 (chat w (clock s) GenerateNaturalAnswer messages)] /\
      val r = Ok match chat w (clock s) GenerateNaturalAnswer messages with
                 | Ok content => Str.strip content
                 | Raise _ => "There was an error while generating the final answer."
                 end /\
      st r = tick s
  end.
Proof.
  cbv zeta. unfold generate_natural_answer.
  rewrite out_bind, val_bind, exits_bind, st_bind.
  destruct (json_dumps w (truncate_rows data)) as [dumped|e];
    cbn [lift ret raise val out st exits app]; [|now repeat split].
  rewrite try_chat_ret. now repeat split.
Qed.

(** C5.  When the chat call that writes the final answer raises, each of the
    three generators returns its fixed apology. *)
Theorem generation_failures_apologise (w : World) (user_question : string)
    (s : State) :
  (forall structured_data messages e,
     In (EvChat GenerateNaturalAnswer messages (Raise e))
        (out (generate_natural_answer w user_question structured_data s)) ->
     val (generate_natural_answer w user_question structured_data s) =
       Ok "There was an error while generating the final answer.") /\
  (forall context messages e,
     In (EvChat GenerateAnswerFromContext messages (Raise e))
        (out (generate_answer_from_context w user_question context s)) ->
     val (generate_answer_from_context w user_question context s) =
       Ok "There was an error while generating the answer.") /\
  (forall data chat_memory_dict feedback_focus max_entries messages e,
     In (EvChat GenerateFeedbackAnalysis messages (Raise e))
        (out (generate_feedback_analysis w user_question data chat_memory_dict
                feedback_focus max_entries s)) ->
     val (generate_feedback_analysis w user_question data chat_memory_dict
            feedback_focus max_entries s) =
       Ok "There was an error while summarizing the feedback.").
Proof.
  split; [|split].
  - intros data messages e.
    destruct (generate_natural_answer_open w user_question data s) as [_ H].
    destruct (json_dumps w (truncate_rows data)) as [dumped|e'].
    + cbv zeta in H. destruct H as (-> & -> & _). intros [H | []].
      injection H as _ H. now rewrite H.
    + destruct H as (-> & _). intros [].
  - intros context messages e. unfold generate_answer_from_context.
    rewrite out_bind, val_bind.
    destruct (extract_requested_count_run w user_question 3 s) as [n E].
    rewrite E. simpl. rewrite try_chat_ret. simpl.
    intros [H | [H | []]]; [discriminate|].
    injection H as _ H. now rewrite H.
  - intros data mem focus n messages e.
    destruct (generate_feedback_analysis_open w user_question data mem focus n s)
      as [_ [[-> _] | (m & -> & ->)]]; [intros []|].
    intros [H | []]. injection H as _ H. now rewrite H.
Qed.

Lemma generation_failures_apologise_witness :
  val (generate_natural_answer offline_world "top cities?" (PList []) start) =
    Ok "There was an error while generating the final answer." /\
  val (generate_answer_from_context offline_world "pool?" (PStr "PROPERTY 1") start) =
    Ok "There was an error while generating the answer." /\
  val (generate_feedback_analysis offline_world "agent 3?" (DList []) (Some [])
         "both" 120 start) =
    Ok "There was an error while summarizing the feedback.".
Proof.
  split; [|split].
  - eapply (proj1 (generation_failures_apologise offline_world "top cities?" start)).
    left. reflexivity.
  - eapply (proj1 (proj2 (generation_failures_apologise offline_world "pool?" start))).
    right. left. reflexivity.
  - eapply (proj2 (proj2 (generation_failures_apologise offline_world "agent 3?" start))).
    left. reflexivity.
Defined.

(** ** In-place updates of the feedback records (C6) *)

Lemma dict_pop_removes (key : string) (d : pydict) :
  dict_mem key (dict_pop key d) = false.
Proof.
  induction d as [|[k v] d IH]; simpl; [reflexivity|].
  destruct (Str.eqb key k) eqn:E; [exact IH|]. simpl. now rewrite E.
Qed.

Lemma dict_pop_other (key k : string) (d : pydict) :
  k <> key -> dict_get k (dict_pop key d) = dict_get k d.
Proof.
  intros Hk. induction d as [|[k' v] d IH]; simpl; [reflexivity|].
  unfold Str.eqb in *. destruct (String.eqb key k') eqn:E.
  - apply String.eqb_eq in E. subst k'.
    destruct (String.eqb k key) eqn:E'; [|exact IH].
    apply String.eqb_eq in E'. contradiction.
  - simpl. now rewrite IH.
Qed.

Lemma dict_pop_idempotent (key : string) (d : pydict) :
  dict_pop key (dict_pop key d) = dict_pop key d.
Proof.
  induction d as [|[k v] d IH]; simpl; [reflexivity|].
  destruct (Str.eqb key k) eqn:E; [exact IH|]. simpl. now rewrite E, IH.
Qed.

Lemma deref_alter (f : pydict -> pydict) (i l : nat) (h : list pydict) :
  f [] = [] ->
  deref (alter f i h) l = if Nat.eqb l i then f (deref h l) else deref h l.
Proof.
  intros Hf. unfold deref. destruct (Nat.eqb_spec l i) as [->|Hne].
  - rewrite list_lookup_alter_eq. destruct (h !! i); simpl; auto.
  - rewrite list_lookup_alter_ne by congruence. reflexivity.
Qed.

Lemma pop_entry_ref (key : string) (l : nat) (s : State) :
  pop_entry key (Ref l) s =
  {| val := Ok (Ref l); out := [];
     st := {| clock := clock s; store := alter (dict_pop key) l (store s);
              real_estate := real_estate s |};
     exits := false |}.
Proof. reflexivity. Qed.

(** The loop over a list of records: every one of them is updated. *)
Lemma pop_records_run (key : string) (data : list nat) (s : State) :
  val (pop_each key (map Ref data) s) = Ok (map Ref data) /\
  length (store (st (pop_each key (map Ref data) s))) = length (store s) /\
  forall l,
    deref (store (st (pop_each key (map Ref data) s))) l =
    if ref_in l data then dict_pop key (deref (store s) l) else deref (store s) l.
Proof.
  revert s. induction data as [|entry data IH]; intros s; [now cbn|].
  cbn [map pop_each]. rewrite val_bind, !st_bind, pop_entry_ref. cbn [val st].
  set (s1 := {| clock := clock s; store := alter (dict_pop key) entry (store s);
                real_estate := real_estate s |}).
  destruct (IH s1) as (Hv & Hlen & Hd).
  rewrite val_bind, st_bind, Hv. cbn [ret val st].
  split; [reflexivity|]. split.
  - rewrite Hlen. cbn. apply length_alter.
  - intros l. rewrite Hd. cbn [store s1 ref_in existsb].
    rewrite deref_alter by reflexivity.
    destruct (Nat.eqb l entry); cbn [orb].
    + unfold ref_in. destruct (existsb (Nat.eqb l) data);
        [apply dict_pop_idempotent | reflexivity].
    + reflexivity.
Qed.

Lemma focus_pops_records (focus : string) (data : list nat) (s : State) :
  let r := focus_pops focus (inl (map Ref data)) s in
  length (store (st r)) = length (store s) /\
  match focus_key focus with
  | None => store (st r) = store s
  | Some key =>
      forall l,
        deref (store (st r)) l =
        if ref_in l data then dict_pop key (deref (store s) l) else deref (store s) l
  end.
Proof.
  cbv zeta. unfold focus_pops, focus_key, pop_entries.
  destruct (Str.eqb focus "property").
  { rewrite st_bind.
    destruct (pop_records_run "agent_feedback" data s) as (Hv & Hlen & Hd).
    rewrite Hv. cbn [ret st]. now split. }
  destruct (Str.eqb focus "agent").
  { rewrite st_bind.
    destruct (pop_records_run "property_feedback" data s) as (Hv & Hlen & Hd).
    rewrite Hv. cbn [ret st]. now split. }
  now split.
Qed.

Lemma retry_loop_keeps_store (w : World) (remaining : nat) (q : string)
    (prev err : option string) :
  keeps_store (retry_loop w remaining q prev err).
Proof.
  revert prev err. induction remaining as [|k IH]; intros prev err; simpl.
  - py_auto.
  - unfold generate_sql_query, chat_create, execute_query. py_auto.
Qed.

Lemma handle_user_question_keeps_store (w : World) (q : string) (pm am : pyval)
    (mem : option transcript) (max_retries : nat) :
  keeps_store (handle_user_question w q pm am mem max_retries).
Proof.
  unfold handle_user_question, needs_chat_context, chat_create.
  py_auto; try apply retry_loop_keeps_store.
Qed.

Lemma search_each_keeps_store (w : World) (keys : list string) (q : string) :
  keeps_store (search_each w keys q).
Proof. induction keys as [|k keys IH]; simpl; py_auto. Qed.

Lemma search_property_pdfs_keeps_store (w : World) (q : string) (pm : pyval)
    (mem : option transcript) (max_results : nat) :
  keeps_store (search_property_pdfs w q pm mem max_results).
Proof.
  unfold search_property_pdfs, should_use_chat_history, extract_property_mentions,
    chat_create.
  py_auto; try apply search_each_keeps_store.
Qed.

Lemma generate_natural_answer_keeps_store (w : World) (q : string) (data : pyval) :
  keeps_store (generate_natural_answer w q data).
Proof. unfold generate_natural_answer, chat_create. py_auto. Qed.

Lemma generate_answer_from_context_keeps_store (w : World) (q : string)
    (context : pyval) :
  keeps_store (generate_answer_from_context w q context).
Proof.
  unfold generate_answer_from_context, extract_requested_count_via_llm, chat_create.
  py_auto.
Qed.

Lemma retry_loop_keeps_table (w : World) (k : nat) :
  forall uq prev err, keeps_table (retry_loop w k uq prev err).
Proof.
  induction k as [|k IH]; intros uq prev err; simpl.
  - py_auto.
  - unfold generate_sql_query, chat_create, execute_query. py_auto.
Qed.

Lemma handle_user_question_keeps_table (w : World) (q : string) (pm am : pyval)
    (mem : option transcript) (max_retries : nat) :
  keeps_table (handle_user_question w q pm am mem max_retries).
Proof.
  unfold handle_user_question, needs_chat_context, chat_create.
  py_auto; try apply retry_loop_keeps_table.
Qed.

Section spares_rules.
Context {A B : Type} (n : nat).

Lemma spares_keeps (m : Py A) : keeps_store m -> spares n m (fun _ => True).
Proof.
  intros H s Hn. rewrite (H s). repeat split; auto.
Qed.

Lemma spares_weaken (m : Py A) (Q R : A -> Prop) :
  spares n m Q -> (forall a, Q a -> R a) -> spares n m R.
Proof.
  intros H HQ s Hn. destruct (H s Hn) as (H1 & H2 & H3). repeat split; auto.
Qed.

Lemma spares_ret (a : A) (Q : A -> Prop) : Q a -> spares n (ret a) Q.
Proof.
  intros H s Hn. repeat split; auto. simpl. intros a' E. now injection E as <-.
Qed.

Lemma spares_raise (e : exn) (Q : A -> Prop) : spares n (raise e) Q.
Proof. intros s Hn. repeat split; auto. discriminate. Qed.

Lemma spares_lift (r : result A) (Q : A -> Prop) :
  (forall a, r = Ok a -> Q a) -> spares n (lift r) Q.
Proof.
  intros H. destruct r as [a|e]; [apply spares_ret; auto | apply spares_raise].
Qed.

Lemma spares_bind (m : Py A) (k : A -> Py B) (Q : A -> Prop) (R : B -> Prop) :
  spares n m Q -> (forall a, Q a -> spares n (k a) R) -> spares n (bind m k) R.
Proof.
  intros Hm Hk s Hn. destruct (Hm s Hn) as (H1 & H2 & H3).
  rewrite st_bind, val_bind. destruct (val (m s)) as [a|e].
  - destruct (Hk a (H3 a eq_refl) (st (m s)) H1) as (K1 & K2 & K3).
    repeat split; auto. intros l Hl. rewrite K2, H2; auto.
  - repeat split; auto. discriminate.
Qed.

Lemma spares_try_except (m : Py A) (h : exn -> Py A) (Q : A -> Prop) :
  spares n m Q -> (forall e, spares n (h e) Q) -> spares n (try_except m h) Q.
Proof.
  intros Hm Hh s Hn. destruct (Hm s Hn) as (H1 & H2 & H3).
  rewrite st_try_except, val_try_except. destruct (val (m s)) as [a|e].
  - repeat split; auto.
  - destruct (exits (m s)); [repeat split; auto; discriminate|].
    destruct (Hh e (st (m s)) H1) as (K1 & K2 & K3).
    repeat split; auto. intros l Hl. rewrite K2, H2; auto.
Qed.

End spares_rules.

Lemma alloc_all_spares (n : nat) (docs : list pydict) :
  spares n (alloc_all docs) (fresh_refs n).
Proof.
  induction docs as [|d docs IH]; simpl.
  - apply spares_ret. constructor.
  - eapply spares_bind with (Q := fun l => (n <= l)%nat).
    + intros s Hn. simpl. rewrite length_app. simpl. repeat split.
      * lia.
      * intros l Hl. apply lookup_app_l. lia.
      * intros a E. injection E as <-. exact Hn.
    + intros l Hl. eapply spares_bind; [exact IH|].
      intros ls Hls. apply spares_ret. constructor; assumption.
Qed.

Lemma pop_entry_spares (n : nat) (key : string) (entry : obj) :
  fresh_obj n entry -> spares n (pop_entry key entry) (fun _ => True).
Proof.
  intros Hentry. destruct entry as [l|v].
  - intros s Hn. rewrite pop_entry_ref. cbn [st store val]. repeat split.
    + now rewrite length_alter.
    + intros l' Hl'. apply list_lookup_alter_ne. cbn in Hentry. lia.
  - destruct v; cbn [pop_entry]; first [now apply spares_ret | apply spares_raise].
Qed.

Lemma pop_each_spares (n : nat) (key : string) (data : list obj) :
  Forall (fresh_obj n) data -> spares n (pop_each key data) (fun _ => True).
Proof.
  induction 1 as [|entry data Hentry _ IH]; cbn [pop_each].
  - now apply spares_ret.
  - eapply spares_bind; [now apply pop_entry_spares|]. intros entry' _.
    eapply spares_bind; [exact IH|]. intros data' _. now apply spares_ret.
Qed.

Lemma pop_entries_spares (n : nat) (key : string) (data : list obj + string) :
  match data with inl items => Forall (fresh_obj n) items | inr _ => True end ->
  spares n (pop_entries key data) (fun _ => True).
Proof.
  intros Hdata. destruct data as [items|[|c text]]; cbn [pop_entries].
  - eapply spares_bind; [now apply pop_each_spares|]. intros; now apply spares_ret.
  - now apply spares_ret.
  - apply spares_raise.
Qed.

Lemma fresh_map_ref (n : nat) (data : list nat) :
  fresh_refs n data -> Forall (fresh_obj n) (map Ref data).
Proof. intros H. apply Forall_map. exact H. Qed.

Lemma data_slice_fresh (w : World) (n k : nat) (data : pydata)
    (sliced : list obj + string) :
  fresh_data n data -> data_slice w k data = Ok sliced ->
  match sliced with inl items => Forall (fresh_obj n) items | inr _ => True end.
Proof.
  intros Hdata E. destruct data as [items|v].
  - injection E as <-. unfold slice_to. now apply Forall_take.
  - destruct v; try discriminate E; injection E as <-; [exact I|].
    apply Forall_map. apply Forall_forall. intros; exact I.
Qed.

Lemma generate_feedback_analysis_spares (w : World) (n : nat) (q : string)
    (data : pydata) (mem : option transcript) (focus : string) (k : nat) :
  fresh_data n data ->
  spares n (generate_feedback_analysis w q data mem focus k) (fun _ => True).
Proof.
  intros Hdata. unfold generate_feedback_analysis, chat_create.
  eapply spares_bind;
    [apply spares_lift; intros sliced E; exact (data_slice_fresh w n k _ _ Hdata E)|].
  intros sliced Hsliced. cbv beta in Hsliced.
  eapply spares_bind with (Q := fun _ => True).
  - destruct (Str.eqb focus "property"); [now apply pop_entries_spares|].
    destruct (Str.eqb focus "agent"); [now apply pop_entries_spares|].
    now apply spares_ret.
  - intros popped _. apply spares_keeps. py_auto.
Qed.

Lemma filter_fresh (n : nat) (f : nat -> bool) (data : list nat) :
  fresh_refs n data -> fresh_refs n (List.filter f data).
Proof.
  unfold fresh_refs. rewrite !Forall_forall. intros H l Hl.
  apply list_elem_of_In, filter_In in Hl as [Hl _]. apply H.
  now apply list_elem_of_In.
Qed.

(** What evaluated code writes goes to the records it was given. *)
Lemma write_back_length (data : list nat) :
  forall records h, length (write_back data records h) = length h.
Proof.
  induction data as [|l data IH]; intros [|d records] h; cbn [write_back]; auto.
  now rewrite IH, length_insert.
Qed.

Lemma write_back_other (data : list nat) (l : nat) :
  ~ In l data ->
  forall records h, write_back data records h !! l = h !! l.
Proof.
  induction data as [|l' data IH]; intros Hl [|d records] h; cbn [write_back]; auto.
  rewrite IH by (intros H; apply Hl; now right).
  apply list_lookup_insert_ne. intros ->. apply Hl. now left.
Qed.

Lemma st_eval_filter (w : World) (code : string) (data : list nat) (s : State) :
  st (eval_filter w code data s) =
  {| clock := S (clock s);
     store := write_back data
                (eval_records (py_eval w (clock s) code (map (deref (store s)) data)))
                (store s);
     real_estate := real_estate s |}.
Proof. unfold eval_filter. now destruct (eval_ended _). Qed.

Lemma val_eval_filter (w : World) (code : string) (data : list nat) (s : State) :
  val (eval_filter w code data s) =
  match eval_ended (py_eval w (clock s) code (map (deref (store s)) data)) with
  | Returned v => Ok (data_of data v)
  | Raised e | Exited e => Raise e
  end.
Proof. unfold eval_filter. now destruct (eval_ended _). Qed.

Lemma out_eval_filter (w : World) (code : string) (data : list nat) (s : State) :
  out (eval_filter w code data s) =
  [EvEval code (py_eval w (clock s) code (map (deref (store s)) data))].
Proof. unfold eval_filter. now destruct (eval_ended _). Qed.

Lemma emits_eval_filter (P : event -> Prop) (w : World) (code : string)
    (data : list nat) :
  (forall answer, P (EvEval code answer)) -> emits P (eval_filter w code data).
Proof.
  intros H s. rewrite out_eval_filter. constructor; [apply H | constructor].
Qed.

Lemma eval_filter_keeps_table (w : World) (code : string) (data : list nat) :
  keeps_table (eval_filter w code data).
Proof. intros s. now rewrite st_eval_filter. Qed.

#[export] Hint Resolve emits_eval_filter eval_filter_keeps_table : py.

Lemma exits_eval_filter (w : World) (code : string) (data : list nat) (s : State) :
  exits (eval_filter w code data s) =
  match eval_ended (py_eval w (clock s) code (map (deref (store s)) data)) with
  | Exited _ => true
  | _ => false
  end.
Proof. unfold eval_filter. now destruct (eval_ended _). Qed.

Lemma data_of_fresh (n : nat) (data : list nat) (v : eval_value) :
  fresh_refs n data -> fresh_data n (data_of data v).
Proof.
  intros Hdata. destruct v as [items|v].
  - cbn [data_of fresh_data]. apply Forall_forall. intros o Ho.
    apply list_elem_of_omap in Ho as (it & _ & Hit).
    destruct it as [position|v]; cbn [resolve] in Hit.
    + destruct (data !! position) as [l|] eqn:El; [|discriminate].
      injection Hit as <-. cbn.
      unfold fresh_refs in Hdata. rewrite Forall_forall in Hdata.
      apply Hdata. eapply list_elem_of_lookup_2. exact El.
    + injection Hit as <-. exact I.
  - destruct v; cbn [data_of fresh_data]; try exact I.
    apply Forall_map. apply Forall_forall. intros; exact I.
Qed.

Lemma eval_filter_spares (w : World) (n : nat) (code : string) (data : list nat) :
  fresh_refs n data -> spares n (eval_filter w code data) (fresh_data n).
Proof.
  intros Hdata s Hn. rewrite st_eval_filter, val_eval_filter. cbn [store].
  split; [now rewrite write_back_length|]. split.
  - intros l Hl. apply write_back_other. intros Hin.
    unfold fresh_refs in Hdata. rewrite Forall_forall in Hdata.
    apply list_elem_of_In, Hdata in Hin. lia.
  - intros a E. destruct (eval_ended _); try discriminate E.
    injection E as <-. now apply data_of_fresh.
Qed.

#[export] Hint Resolve retry_loop_keeps_store handle_user_question_keeps_store
  search_each_keeps_store search_property_pdfs_keeps_store
  generate_natural_answer_keeps_store generate_answer_from_context_keeps_store : py.

(** A step that keeps the store, followed by the rest. *)
Ltac spares_skip :=
  eapply spares_bind;
  [ apply spares_keeps;
    unfold infer_mentions_and_context, classify_query_type,
      classify_feedback_focus, generate_filter_code, extract_trait_summary,
      chat_create;
    py_auto
  | intros ? _ ].

Lemma select_feedback_spares (w : World) (n : nat) (q : string) (data : list nat)
    (prop_ids agent_ids : list pyval) :
  fresh_refs n data ->
  spares n (select_feedback w q data prop_ids agent_ids)
    (fun r => match r with inl fd => fresh_data n fd | inr _ => True end).
Proof.
  intros Hdata. unfold select_feedback.
  spares_skip.
  destruct (list_truthy _ && list_truthy _);
    [apply spares_ret; now apply fresh_map_ref, filter_fresh|].
  destruct (list_truthy _);
    [apply spares_ret; now apply fresh_map_ref, filter_fresh|].
  destruct (list_truthy _);
    [apply spares_ret; now apply fresh_map_ref, filter_fresh|].
  spares_skip.
  match goal with
  | |- spares _ (match ?x with _ => _ end) _ => destruct x as [code|]
  end; [|apply spares_ret; constructor].
  destruct (Str.truthy code); [|apply spares_ret; constructor].
  apply spares_try_except; [|intros; now apply spares_ret].
  eapply spares_bind; [now apply eval_filter_spares|].
  intros kept Hkept. now apply spares_ret.
Qed.

Lemma handle_user_feedback_query_spares (w : World) (n : nat) (q coll : string)
    (pm am : pyval) (mem : option transcript) :
  spares n (handle_user_feedback_query w q coll pm am mem) (fun _ => True).
Proof.
  unfold handle_user_feedback_query, get_feedback_data_from_firestore.
  spares_skip.
  eapply spares_bind with (Q := fresh_refs n).
  { eapply spares_bind; [apply spares_keeps, keeps_external|].
    intros docs _. apply alloc_all_spares. }
  intros data Hdata.
  destruct (negb (list_truthy data)); [now apply spares_ret|].
  do 7 spares_skip.
  apply spares_try_except; [|intros; now apply spares_ret].
  unfold answer_feedback.
  match goal with |- spares _ (if ?c then _ else _) _ => destruct c end.
  { spares_skip. now apply spares_ret. }
  eapply spares_bind; [now apply select_feedback_spares|].
  intros [fd|early] Hfd; [|now apply spares_ret].
  destruct (data_truthy fd); [|now apply spares_ret].
  eapply spares_bind; [now apply generate_feedback_analysis_spares|].
  intros; now apply spares_ret.
Qed.

Lemma run_query_spares (w : World) (n : nat) (q : string) (mem : option transcript) :
  spares n (run_query w q mem) (fun _ => True).
Proof.
  unfold run_query.
  eapply spares_bind;
    [apply spares_keeps; unfold route_query_with_function_call, chat_create; py_auto|].
  intros route_info _.
  do 3 (eapply spares_bind; [apply spares_keeps, keeps_lift|]; intros ? _).
  apply spares_try_except; [|intros; now apply spares_ret].
  unfold dispatch.
  repeat match goal with
         | |- spares _ (if ?c then _ else _) _ => destruct c
         end.
  - apply spares_keeps. py_auto.
  - eapply spares_bind; [apply handle_user_feedback_query_spares|].
    intros; now apply spares_ret.
  - apply spares_keeps. py_auto.
  - now apply spares_ret.
Qed.

Lemma handle_routed_query_spares (w : World) (n : nat) (q : string)
    (mem : option transcript) :
  spares n (handle_routed_query w q mem) (fun _ => True).
Proof.
  assert (Hpresent : forall r, spares n (present w q r) (fun _ => True)).
  { intros r. apply spares_keeps. unfold present. py_auto. }
  unfold handle_routed_query.
  eapply spares_bind;
    [apply spares_keeps; unfold is_general_message, chat_create; py_auto|].
  intros general _. destruct general.
  { apply spares_keeps. unfold generate_friendly_reply, chat_create. py_auto. }
  eapply spares_bind; [apply run_query_spares|]. intros primary _.
  destruct (is_hit (fst primary)); [apply Hpresent|].
  destruct (memory_truthy mem); [|now apply spares_ret].
  eapply spares_bind; [apply run_query_spares|]. intros fallback _.
  destruct (truthy (fst fallback)); [apply Hpresent | now apply spares_ret].
Qed.

(** The records that the summarisation step is given, after it. *)
Lemma feedback_analysis_store (w : World) (q : string) (data : list nat)
    (mem : option transcript) (focus : string) (k : nat) (s : State) :
  store (st (generate_feedback_analysis w q (DList (map Ref data)) mem focus k s)) =
  store (st (focus_pops focus (inl (map Ref (slice_to k data))) s)).
Proof.
  unfold generate_feedback_analysis. rewrite st_bind.
  cbn [data_slice lift ret val st].
  replace (slice_to k (map Ref data)) with (map Ref (slice_to k data))
    by (unfold slice_to; now rewrite firstn_map).
  change (if Str.eqb focus "property"
          then pop_entries "agent_feedback" (inl (map Ref (slice_to k data)))
          else if Str.eqb focus "agent"
               then pop_entries "property_feedback" (inl (map Ref (slice_to k data)))
               else ret (inl (map Ref (slice_to k data))))
    with (focus_pops focus (inl (map Ref (slice_to k data)))).
  rewrite st_bind.
  destruct (val (focus_pops focus _ s)) as [popped|e]; [|reflexivity].
  match goal with
  | |- store (st (?m ?s')) = _ =>
      assert (K : keeps_store m) by (unfold chat_create; py_auto)
  end.
  apply K.
Qed.




(** ** The SQL handler: bounded retries and the guard (C1, C8, C3) *)

Lemma generate_sql_query_run (w : World) (uq : string) (prev err : option string)
    (s : State) :
  generate_sql_query w uq prev err s =
  {| val := Ok match chat w (clock s) GenerateSqlQuery
                       (sql_messages w (asked_question uq prev err)) with
               | Ok content => Str.strip content
               | Raise _ => ""
               end;
     out := [EvChat GenerateSqlQuery (sql_messages w (asked_question uq prev err))
               (chat w (clock s) GenerateSqlQuery
                  (sql_messages w (asked_question uq prev err)))];
     st := tick s;
       exits := false |}.
Proof.
  unfold generate_sql_query.
  change (match err with
          | Some e =>
              match prev with
              | Some q =>
                  if Str.truthy e && Str.truthy q
                  then regeneration_request q e else uq
              | None => uq
              end
          | None => uq
          end) with (asked_question uq prev err).
  now rewrite try_chat_ret.
Qed.

Lemma execute_query_run (w : World) (q : string) (s : State) :
  execute_query w q s =
  {| val := Ok match read_sql_query w (clock s) q with
               | Ok [] => inl PNone
               | Ok rows => inl (PList (map PDict rows))
               | Raise e => inr (format_exc e)
               end;
     out := [EvReadSqlQuery q (read_sql_query w (clock s) q)];
     st := tick s;
       exits := false |}.
Proof.
  unfold execute_query, try_except, bind, external, tick. simpl.
  destruct (read_sql_query w (clock s) q) as [[|row rows]|e]; reflexivity.
Qed.

(** One turn of the loop, opened. *)
Lemma retry_loop_step (w : World) (k : nat) (uq : string) (prev err : option string)
    (s : State) :
  let messages := sql_messages w (asked_question uq prev err) in
  let answer := chat w (clock s) GenerateSqlQuery messages in
  let q := match answer with Ok content => Str.strip content | Raise _ => "" end in
  let gen := EvChat GenerateSqlQuery messages answer in
  let rows := read_sql_query w (S (clock s)) q in
  let exec := EvReadSqlQuery q rows in
  retry_loop w (S k) uq prev err s =
  if negb (Str.truthy q) then
    {| val := Ok (PStr "Failed to generate SQL."); out := [gen]; st := tick s;
       exits := false |}
  else if negb (looks_like_sql q) then
    {| val := Ok (PStr capability_message); out := [gen]; st := tick s;
       exits := false |}
  else
    match rows with
    | Ok [] => {| val := Ok PNone; out := [gen; exec]; st := tick (tick s);
       exits := false |}
    | Ok found =>
        {| val := Ok (PList (map PDict found)); out := [gen; exec];
           st := tick (tick s);
       exits := false |}
    | Raise e =>
        let r := retry_loop w k uq (Some q) (Some (format_exc e)) (tick (tick s)) in
        {| val := val r; out := gen :: exec :: out r; st := st r;
           exits := exits r |}
    end.
Proof.
  cbv zeta. cbn [retry_loop]. unfold bind at 1.
  rewrite generate_sql_query_run. cbn [val out st].
  set (q := match chat w (clock s) GenerateSqlQuery _ with
            | Ok content => Str.strip content
            | Raise _ => ""
            end).
  destruct (negb (Str.truthy q)); [reflexivity|].
  unfold looks_like_sql.
  destruct (negb (Str.startswith_any _ _)); [reflexivity|].
  unfold bind. rewrite execute_query_run. cbn [val out st tick clock].
  destruct (read_sql_query w (S (clock s)) q) as [[|row rows]|e]; reflexivity.
Qed.

Lemma format_exc_truthy (e : exn) : Str.truthy (format_exc e) = true.
Proof. reflexivity. Qed.

Lemma negb_truthy_false (q : string) :
  negb (Str.truthy q) = false -> Str.truthy q = true.
Proof. now destruct (Str.truthy q). Qed.

(** What the loop does, by induction on the attempts that remain. *)
Lemma retry_loop_trace (w : World) (k : nat) :
  forall uq prev err s,
    let r := retry_loop w k uq prev err s in
    (exists v, val r = Ok v) /\
    (count is_generation (out r) <= k)%nat /\
    (count is_execution (out r) <= k)%nat /\
    (count is_generation (out r) <= count is_failed_execution (out r) + 1)%nat /\
    (count is_failed_execution (out r) = k -> val r = Ok PNone) /\
    regenerations_informed w (out r) /\
    (forall ev rest, out r = ev :: rest ->
       ev = EvChat GenerateSqlQuery (sql_messages w (asked_question uq prev err))
              (chat w (clock s) GenerateSqlQuery
                 (sql_messages w (asked_question uq prev err)))) /\
    Forall (fun ev => is_generation ev = true \/
                      exists q a, ev = EvReadSqlQuery q a /\ looks_like_sql q = true)
      (out r).
Proof.
  induction k as [|k IH]; intros uq prev err s.
  - simpl. repeat split; eauto; try lia. discriminate.
  - cbv zeta. rewrite retry_loop_step. cbv zeta.
    set (messages := sql_messages w (asked_question uq prev err)).
    set (answer := chat w (clock s) GenerateSqlQuery messages).
    set (q := match answer with Ok content => Str.strip content | Raise _ => "" end).
    assert (Hone : forall (v : result pyval) (s' : State),
              let r := {| val := v; out := [EvChat GenerateSqlQuery messages answer];
                          st := s';
     exits := false |} in
              (exists x, v = Ok x) ->
              (exists v, val r = Ok v) /\
              (count is_generation (out r) <= S k)%nat /\
              (count is_execution (out r) <= S k)%nat /\
              (count is_generation (out r) <=
               count is_failed_execution (out r) + 1)%nat /\
              (count is_failed_execution (out r) = S k -> val r = Ok PNone) /\
              regenerations_informed w (out r) /\
              (forall ev rest, out r = ev :: rest ->
                 ev = EvChat GenerateSqlQuery messages answer) /\
              Forall (fun ev => is_generation ev = true \/
                         exists q a, ev = EvReadSqlQuery q a /\
                                     looks_like_sql q = true) (out r)).
    { intros v s' r Hv. subst r. cbn.
      split; [exact Hv|]. split; [lia|]. split; [lia|]. split; [lia|].
      split; [discriminate|]. split; [auto|].
      split; [intros ev rest E; now injection E as <- _|].
      constructor; [now left | constructor]. }
    destruct (negb (Str.truthy q)) eqn:Hq; [apply Hone; eauto|].
    destruct (negb (looks_like_sql q)) eqn:Hsql; [apply Hone; eauto|].
    assert (Hsql' : looks_like_sql q = true) by now destruct (looks_like_sql q).
    assert (Htwo : forall (v : pyval) (rows : list pydict) (s' : State),
              let r := {| val := Ok v;
                          out := [EvChat GenerateSqlQuery messages answer;
                                  EvReadSqlQuery q (Ok rows)];
                          st := s';
     exits := false |} in
              (exists v, val r = Ok v) /\
              (count is_generation (out r) <= S k)%nat /\
              (count is_execution (out r) <= S k)%nat /\
              (count is_generation (out r) <=
               count is_failed_execution (out r) + 1)%nat /\
              (count is_failed_execution (out r) = S k -> val r = Ok PNone) /\
              regenerations_informed w (out r) /\
              (forall ev rest, out r = ev :: rest ->
                 ev = EvChat GenerateSqlQuery messages answer) /\
              Forall (fun ev => is_generation ev = true \/
                         exists q a, ev = EvReadSqlQuery q a /\
                                     looks_like_sql q = true) (out r)).
    { intros v rows s' r. subst r. cbn.
      split; [eauto|]. split; [lia|]. split; [lia|]. split; [lia|].
      split; [discriminate|]. split; [auto|].
      split; [intros ev rest E; now injection E as <- _|].
      constructor; [now left|]. constructor; [right; eauto | constructor]. }
    destruct (read_sql_query w (S (clock s)) q) as [[|row rows]|e] eqn:Hrows;
      [apply Htwo | apply Htwo |].
    specialize (IH uq (Some q) (Some (format_exc e)) (tick (tick s))).
    cbv zeta in IH.
    destruct IH as (Hv & Hg & Hx & Hgf & Hnone & Hinf & Hfirst & Hall).
    set (r := retry_loop w k uq (Some q) (Some (format_exc e)) (tick (tick s))) in *.
    cbn [val out st]. unfold count in *.
    cbn [List.filter is_generation is_execution is_failed_execution length].
    split; [exact Hv|]. split; [lia|]. split; [lia|]. split; [lia|].
    split; [intros H; apply Hnone; lia|].
    split.
    { cbn [regenerations_informed]. split; [exact I|]. split; [|exact Hinf].
      destruct (out r) as [|ev rest] eqn:Eout; [exact I|].
      rewrite (Hfirst ev rest eq_refl).
      unfold asked_question. rewrite format_exc_truthy.
      now rewrite (negb_truthy_false q Hq). }
    split; [intros ev rest E; now injection E as <- _|].
    constructor; [now left|]. constructor; [right; eauto | exact Hall].
Qed.

Lemma needs_chat_context_run (w : World) (q : string) (mem : option transcript)
    (s : State) :
  exists b t,
    val (needs_chat_context w q mem s) = Ok b /\
    out (needs_chat_context w q mem s) = t /\
    Forall (fun ev => exists messages a, ev = EvChat NeedsChatContext messages a) t.
Proof.
  unfold needs_chat_context. destruct (negb (memory_truthy mem)).
  - exists false, []. repeat split. constructor.
  - rewrite try_chat_ret. cbn [val out]. eexists _, _.
    repeat split. constructor; [eauto | constructor].
Qed.

Lemma handle_user_question_open (w : World) (q : string) (pm am : pyval)
    (mem : option transcript) (k : nat) (s : State) :
  exists uq t s',
    out (handle_user_question w q pm am mem k s) =
      EvHandleUserQuestion q pm am mem :: t ++ out (retry_loop w k uq None None s') /\
    val (handle_user_question w q pm am mem k s) =
      val (retry_loop w k uq None None s') /\
    Forall (fun ev => exists messages a, ev = EvChat NeedsChatContext messages a) t.
Proof.
  destruct (needs_chat_context_run w q mem s) as (b & t & Hv & Ho & Ht).
  unfold handle_user_question.
  rewrite out_bind, val_bind. cbn [emit val out st].
  rewrite out_bind, val_bind, Hv, Ho.
  eexists _, t, _. split; [reflexivity|]. split; [reflexivity | exact Ht].
Qed.

Lemma count_app (f : event -> bool) (t1 t2 : list event) :
  count f (t1 ++ t2) = (count f t1 + count f t2)%nat.
Proof. unfold count. now rewrite List.filter_app, length_app. Qed.

Lemma count_none (f : event -> bool) (t : list event) :
  Forall (fun ev => f ev = false) t -> count f t = 0%nat.
Proof.
  unfold count. induction 1 as [|ev t Hev _ IH]; simpl; [reflexivity|].
  now rewrite Hev.
Qed.

Lemma count_after_entry (f : event -> bool) (entry : event) (t rest : list event) :
  f entry = false ->
  (forall messages a, f (EvChat NeedsChatContext messages a) = false) ->
  Forall (fun ev => exists messages a, ev = EvChat NeedsChatContext messages a) t ->
  count f (entry :: t ++ rest) = count f rest.
Proof.
  intros Hentry Hf Ht.
  change (entry :: t ++ rest) with ((entry :: t) ++ rest).
  rewrite count_app, (count_none f (entry :: t)); [reflexivity|].
  constructor; [exact Hentry|].
  eapply Forall_impl; [exact Ht|]. intros ev (m & a & ->). apply Hf.
Qed.

Lemma informed_after_quiet (w : World) (t1 t2 : list event) :
  Forall (fun ev => is_execution ev = false) t1 ->
  regenerations_informed w t2 -> regenerations_informed w (t1 ++ t2).
Proof.
  intros H1 H2. induction H1 as [|ev t Hev _ IH]; simpl; [exact H2|].
  split; [|exact IH]. destruct ev; try exact I. discriminate.
Qed.

Lemma informed_adjacent (w : World) (pre post : list event) (q : string) (e : exn)
    (messages : list message) (answer : result string) :
  regenerations_informed w
    (pre ++ EvReadSqlQuery q (Raise e) :: EvChat GenerateSqlQuery messages answer
         :: post) ->
  messages = sql_messages w (regeneration_request q (format_exc e)).
Proof.
  induction pre as [|ev pre IH]; simpl.
  - now intros [H _].
  - intros [_ H]. now apply IH.
Qed.

(** C1.  [handle_user_question] always returns.  Its loop asks for at most
    [max_retries] queries and runs at most [max_retries] of them; a further
    query is asked for only after an execution has raised; a query asked for
    right after a failed execution is given the failed query and its
    traceback; and after [max_retries] failed executions the result is
    [None]. *)
Theorem generate_and_execute_is_bounded (w : World) (user_question : string)
    (property_mention agent_mention : pyval) (chat_memory_dict : option transcript)
    (max_retries : nat) (s : State) :
  let r := handle_user_question w user_question property_mention agent_mention
             chat_memory_dict max_retries s in
  (exists v, val r = Ok v) /\
  (count is_generation (out r) <= max_retries)%nat /\
  (count is_execution (out r) <= max_retries)%nat /\
  (count is_generation (out r) <= count is_failed_execution (out r) + 1)%nat /\
  (forall pre post sql e messages answer,
     out r = pre ++ EvReadSqlQuery sql (Raise e)
                 :: EvChat GenerateSqlQuery messages answer :: post ->
     messages = sql_messages w (regeneration_request sql (format_exc e))) /\
  (count is_failed_execution (out r) = max_retries -> val r = Ok PNone).
Proof.
  cbv zeta.
  destruct (handle_user_question_open w user_question property_mention
              agent_mention chat_memory_dict max_retries s)
    as (uq & t & s' & Ho & Hv & Ht).
  destruct (retry_loop_trace w max_retries uq None None s')
    as (Rv & Rg & Rx & Rgf & Rnone & Rinf & _ & _).
  rewrite Ho, Hv.
  rewrite !count_after_entry by (reflexivity || exact Ht).
  split; [exact Rv|]. split; [exact Rg|]. split; [exact Rx|]. split; [exact Rgf|].
  split; [|exact Rnone].
  intros pre post sql e messages answer E.
  apply (informed_adjacent w pre post sql e messages answer).
  rewrite <- E.
  apply (informed_after_quiet w (_ :: t)); [|exact Rinf].
  constructor; [reflexivity|].
  eapply Forall_impl; [exact Ht|]. now intros ev (m & a & ->).
Qed.

Lemma generate_and_execute_is_bounded_witness :
  let r := handle_user_question stubborn_world "average price?" PNone PNone None 3
             start in
  count is_failed_execution (out r) = 3%nat /\
  val r = Ok PNone /\
  exists messages answer,
    out r !! 3%nat = Some (EvChat GenerateSqlQuery messages answer) /\
    messages =
      sql_messages stubborn_world
        (regeneration_request "SELECT price FROM real_estate"
           (format_exc (mk_exn "DatabaseError" "no such column: price" ""))).
Proof.
  cbv zeta.
  destruct (generate_and_execute_is_bounded stubborn_world "average price?"
              PNone PNone None 3 start) as (_ & _ & _ & _ & Hadj & Hnone).
  split; [reflexivity|]. split; [apply Hnone; reflexivity|].
  eexists _, _. split; [reflexivity|].
  eapply (Hadj
    [EvHandleUserQuestion "average price?" PNone PNone None;
     EvChat GenerateSqlQuery (sql_messages stubborn_world "average price?")
       (Ok "SELECT price FROM real_estate")]
    (skipn 4 (out (handle_user_question stubborn_world "average price?" PNone PNone
                     None 3 start)))).
  reflexivity.
Defined.

(** Finding an event of a concatenation in its second part. *)
Lemma split_after_quiet (P : event -> Prop) (t1 t2 pre post : list event)
    (ev : event) :
  Forall (fun x => ~ P x) t1 -> P ev ->
  t1 ++ t2 = pre ++ ev :: post ->
  exists pre', pre = t1 ++ pre' /\ t2 = pre' ++ ev :: post.
Proof.
  intros H1 Hev. revert pre. induction H1 as [|x t1 Hx _ IH]; intros pre E.
  - exists pre. split; [reflexivity | exact E].
  - destruct pre as [|y pre]; simpl in E; injection E as -> E.
    + contradiction.
    + destruct (IH pre E) as (pre' & -> & ->). exists pre'. split; reflexivity.
Qed.

Lemma retry_loop_guard (w : World) (k : nat) :
  forall uq prev err s pre post messages content,
    out (retry_loop w k uq prev err s) =
      pre ++ EvChat GenerateSqlQuery messages (Ok content) :: post ->
    looks_like_sql (Str.strip content) = false ->
    post = [] /\
    val (retry_loop w k uq prev err s) =
      Ok (PStr (if Str.truthy (Str.strip content) then capability_message
                else "Failed to generate SQL.")).
Proof.
  induction k as [|k IH]; intros uq prev err s pre post messages content E Hno.
  - simpl in E. now destruct pre.
  - rewrite retry_loop_step in E |- *. cbv zeta in E |- *.
    set (msgs := sql_messages w (asked_question uq prev err)) in *.
    destruct (chat w (clock s) GenerateSqlQuery msgs) as [c|e] eqn:Hc.
    + destruct (negb (Str.truthy (Str.strip c))) eqn:Hq.
      { cbn [out val] in *. destruct pre as [|x [|y pre]]; try discriminate.
        injection E as _ -> <-. split; [reflexivity|].
        now destruct (Str.truthy (Str.strip content)). }
      destruct (negb (looks_like_sql (Str.strip c))) eqn:Hsql.
      { cbn [out val] in *. destruct pre as [|x [|y pre]]; try discriminate.
        injection E as _ -> <-. split; [reflexivity|].
        now destruct (Str.truthy (Str.strip content)). }
      assert (Hyes : looks_like_sql (Str.strip c) = true)
        by now destruct (looks_like_sql (Str.strip c)).
      destruct (read_sql_query w (S (clock s)) (Str.strip c)) as [[|row rows]|e].
      * cbn [out val] in *. destruct pre as [|x [|y [|z pre]]]; try discriminate.
        injection E as _ -> _. congruence.
      * cbn [out val] in *. destruct pre as [|x [|y [|z pre]]]; try discriminate.
        injection E as _ -> _. congruence.
      * cbn [out val] in *. destruct pre as [|x [|y pre]]; try discriminate.
        { injection E as _ -> _. congruence. }
        injection E as _ _ E. exact (IH _ _ _ _ _ _ _ _ E Hno).
    + cbn [negb Str.truthy out val] in *.
      destruct pre as [|x [|y pre]]; discriminate.
Qed.

(** C8 (as amended).  Every query that reaches [pd.read_sql_query] starts,
    once stripped and lower-cased, with [select] or [with].  A generated
    text that does not is never executed: it ends the loop, and the handler
    returns the capability message, or "Failed to generate SQL." when the
    text is empty. *)
Theorem only_select_or_with_is_executed (w : World) (user_question : string)
    (property_mention agent_mention : pyval) (chat_memory_dict : option transcript)
    (max_retries : nat) (s : State) :
  let r := handle_user_question w user_question property_mention agent_mention
             chat_memory_dict max_retries s in
  (forall sql answer,
     In (EvReadSqlQuery sql answer) (out r) -> looks_like_sql sql = true) /\
  (forall pre post messages content,
     out r = pre ++ EvChat GenerateSqlQuery messages (Ok content) :: post ->
     looks_like_sql (Str.strip content) = false ->
     post = [] /\
     val r = Ok (PStr (if Str.truthy (Str.strip content) then capability_message
                       else "Failed to generate SQL."))).
Proof.
  cbv zeta.
  destruct (handle_user_question_open w user_question property_mention
              agent_mention chat_memory_dict max_retries s)
    as (uq & t & s' & Ho & Hv & Ht).
  rewrite Ho, Hv. split.
  - intros sql answer [H | H]; [discriminate|].
    apply in_app_or in H as [H | H].
    + rewrite Forall_forall in Ht. apply list_elem_of_In, Ht in H as (m & a & H).
      discriminate.
    + destruct (retry_loop_trace w max_retries uq None None s')
        as (_ & _ & _ & _ & _ & _ & _ & Hall).
      rewrite Forall_forall in Hall. apply list_elem_of_In, Hall in H as [H | H].
      * discriminate.
      * destruct H as (q & a & E & Hq). now injection E as -> _.
  - intros pre post messages content E Hno.
    destruct (split_after_quiet
                (fun ev => is_generation ev = true)
                (EvHandleUserQuestion user_question property_mention agent_mention
                   chat_memory_dict :: t)
                (out (retry_loop w max_retries uq None None s'))
                pre post (EvChat GenerateSqlQuery messages (Ok content)))
      as (pre' & _ & E').
    + constructor; [discriminate|].
      eapply Forall_impl; [exact Ht|]. intros ev (m & a & ->). discriminate.
    + reflexivity.
    + exact E.
    + exact (retry_loop_guard w max_retries _ _ _ _ _ _ _ _ E' Hno).
Qed.

Lemma only_select_or_with_is_executed_witness :
  let r := handle_user_question
             (with_chat offline_world (fun _ _ _ => Ok "Sorry, I cannot do that."))
             "sing me a song" PNone PNone None 3 start in
  val r = Ok (PStr capability_message) /\
  (forall sql answer, In (EvReadSqlQuery sql answer) (out r) ->
                      looks_like_sql sql = true).
Proof.
  cbv zeta.
  destruct (only_select_or_with_is_executed
              (with_chat offline_world (fun _ _ _ => Ok "Sorry, I cannot do that."))
              "sing me a song" PNone PNone None 3 start) as (H1 & H2).
  split; [|exact H1].
  refine (proj2 (H2 [EvHandleUserQuestion "sing me a song" PNone PNone None] []
                   _ "Sorry, I cannot do that." _ _)); reflexivity.
Defined.

(** A blank answer of the model is not executed either, but the message
    returned is not the capability message. *)
Lemma blank_generation_counterexample :
  let r := handle_user_question blank_world "average price?" PNone PNone None 3
             start in
  out r = [EvHandleUserQuestion "average price?" PNone PNone None;
           EvChat GenerateSqlQuery (sql_messages blank_world "average price?")
             (Ok "   ")] /\
  looks_like_sql "" = false /\
  val r = Ok (PStr "Failed to generate SQL.") /\
  val r <> Ok (PStr capability_message).
Proof.
  vm_compute. split; [reflexivity|]. split; [reflexivity|].
  split; [reflexivity | discriminate].
Qed.

Section yields_rules.
Context {A B : Type}.

Lemma yields_ret (Q : A -> Prop) (a : A) : Q a -> yields Q (ret a).
Proof. intros H s a' E. simpl in E. now injection E as <-. Qed.

Lemma yields_bind (Q : B -> Prop) (m : Py A) (k : A -> Py B) :
  (forall a, yields Q (k a)) -> yields Q (bind m k).
Proof.
  intros Hk s b. rewrite val_bind. destruct (val (m s)) as [a|e]; [|discriminate].
  apply Hk.
Qed.

Lemma yields_try_except (Q : A -> Prop) (m : Py A) (h : exn -> Py A) :
  yields Q m -> (forall e, yields Q (h e)) -> yields Q (try_except m h).
Proof.
  intros Hm Hh s a. rewrite val_try_except.
  destruct (val (m s)) as [a'|e] eqn:E.
  - intros E'. injection E' as <-. now apply (Hm s).
  - destruct (exits (m s)); [discriminate | apply Hh].
Qed.

Lemma reacts_quiet (P : event -> Prop) (V : event -> result A -> bool -> Prop)
    (m : Py A) :
  emits (fun ev => ~ P ev) m -> reacts P V m.
Proof.
  intros Hm s ev Hin HP. specialize (Hm s). rewrite Forall_forall in Hm.
  apply list_elem_of_In, Hm in Hin. contradiction.
Qed.

Lemma reacts_bind_skip (P : event -> Prop) (V : event -> result B -> bool -> Prop)
    (m : Py A) (k : A -> Py B) :
  emits (fun ev => ~ P ev) m -> (forall a, reacts P V (k a)) ->
  reacts P V (bind m k).
Proof.
  intros Hm Hk s ev. rewrite out_bind, val_bind, exits_bind. intros Hin HP.
  apply in_app_or in Hin as [Hin | Hin].
  - specialize (Hm s). rewrite Forall_forall in Hm.
    apply list_elem_of_In, Hm in Hin. contradiction.
  - destruct (val (m s)) as [a|e]; [|contradiction]. now apply (Hk a).
Qed.

End yields_rules.

Lemma retry_loop_values (w : World) (k : nat) :
  forall uq prev err s,
    let r := retry_loop w k uq prev err s in
    (val r = Ok (PStr "Failed to generate SQL.") \/
     val r = Ok (PStr capability_message) \/
     val r = Ok PNone \/
     exists sql row rows,
       In (EvReadSqlQuery sql (Ok (row :: rows))) (out r) /\
       val r = Ok (PList (map PDict (row :: rows)))) /\
    (forall messages e,
       In (EvChat GenerateSqlQuery messages (Raise e)) (out r) ->
       val r = Ok (PStr "Failed to generate SQL.")).
Proof.
  induction k as [|k IH]; intros uq prev err s.
  - simpl. split; [auto | intros ? ? []].
  - cbv zeta. rewrite retry_loop_step. cbv zeta.
    set (msgs := sql_messages w (asked_question uq prev err)).
    destruct (chat w (clock s) GenerateSqlQuery msgs) as [c|e] eqn:Hc.
    + destruct (negb (Str.truthy (Str.strip c))).
      { cbn [val out]. split; [auto|]. intros m e [H | []]. discriminate. }
      destruct (negb (looks_like_sql (Str.strip c))).
      { cbn [val out]. split; [auto|]. intros m e [H | []]. discriminate. }
      destruct (read_sql_query w (S (clock s)) (Str.strip c))
        as [[|row rows]|e] eqn:Hrows.
      * cbn [val out]. split; [auto|]. intros m e [H | [H | []]]; discriminate.
      * cbn [val out]. split.
        { right. right. right. exists (Str.strip c), row, rows.
          split; [right; left; reflexivity | reflexivity]. }
        intros m e [H | [H | []]]; discriminate.
      * destruct (IH uq (Some (Str.strip c)) (Some (format_exc e)) (tick (tick s)))
          as [Hval Hgen].
        cbn [val out]. split.
        { destruct Hval as [H | [H | [H | (sql & row & rows & Hin & H)]]]; auto.
          right. right. right. exists sql, row, rows.
          split; [right; right; exact Hin | exact H]. }
        intros m e' [H | [H | H]]; try discriminate. exact (Hgen m e' H).
    + cbn [negb Str.truthy val out]. split; auto.
Qed.

Lemma not_eval_chat (site : call_site) (messages : list message) :
  forall r : result string, ~ is_eval (EvChat site messages r).
Proof. intros r H. exact H. Qed.

#[export] Hint Resolve not_eval_chat : py.

#[export] Hint Extern 1 (~ is_eval _) => (let H := fresh in intro H; exact H) : py.

Lemma alloc_all_silent (P : event -> Prop) (docs : list pydict) :
  emits P (alloc_all docs).
Proof. induction docs as [|d docs IH]; simpl; unfold alloc; py_auto. Qed.

#[export] Hint Resolve alloc_all_silent : py.

Lemma select_feedback_eval (w : World) (q : string) (data : list nat)
    (prop_ids agent_ids : list pyval) :
  reacts is_eval (after_eval inr) (select_feedback w q data prop_ids agent_ids).
Proof.
  unfold select_feedback.
  apply reacts_bind_skip; [py_auto|]. intros h.
  destruct (list_truthy _ && list_truthy _); [apply reacts_quiet; py_auto|].
  destruct (list_truthy _); [apply reacts_quiet; py_auto|].
  destruct (list_truthy _); [apply reacts_quiet; py_auto|].
  apply reacts_bind_skip; [unfold generate_filter_code, chat_create; py_auto|].
  intros [code|]; [|apply reacts_quiet; py_auto].
  destruct (Str.truthy code); [|apply reacts_quiet; py_auto].
  intros s ev Hin _ code' answer ->.
  rewrite out_try_except, out_bind, out_eval_filter in Hin.
  rewrite val_try_except, exits_try_except, val_bind, exits_bind, val_eval_filter,
    exits_eval_filter.
  set (real := py_eval w (clock s) code (map (deref (store s)) data)) in *.
  assert (E : answer = real).
  { apply in_app_or in Hin as [Hin | Hin];
      [apply in_app_or in Hin as [[H | []] | Hin]|].
    - now injection H.
    - destruct (val _); contradiction.
    - destruct (val _); [contradiction|]. destruct (exits _); contradiction. }
  subst answer. destruct (eval_ended real); cbn; auto.
Qed.

Lemma generate_feedback_analysis_no_eval (w : World) (q : string) (data : pydata)
    (mem : option transcript) (focus : string) (n : nat) :
  emits (fun ev => ~ is_eval ev)
    (generate_feedback_analysis w q data mem focus n).
Proof. unfold generate_feedback_analysis, chat_create. py_auto. Qed.

Lemma answer_feedback_eval (w : World) (q : string) (data : list nat)
    (mem : option transcript) (prop_ids agent_ids : list pyval)
    (query_type focus : string) :
  reacts is_eval (after_eval PStr)
    (answer_feedback w q data mem prop_ids agent_ids query_type focus).
Proof.
  unfold answer_feedback.
  destruct (Str.eqb query_type "analysis" && _).
  { apply reacts_quiet. unfold extract_trait_summary, chat_create. py_auto. }
  intros s ev Hin _ code answer ->.
  rewrite out_bind in Hin. rewrite val_bind, exits_bind.
  apply in_app_or in Hin as [Hin | Hin].
  - pose proof (select_feedback_eval w q data prop_ids agent_ids s _ Hin I
                  code answer eq_refl) as H.
    destruct (eval_ended answer) as [v|e|e]; [exact I | |];
      destruct H as [Hv Hx]; rewrite Hv, ?Hx; now split.
  - exfalso. destruct (val (select_feedback w q data prop_ids agent_ids s))
      as [[fd|early]|e']; try contradiction.
    destruct (data_truthy fd); [|contradiction].
    revert Hin. rewrite out_bind. intros H. apply in_app_or in H as [H | H].
    + pose proof (generate_feedback_analysis_no_eval w q fd mem focus 120
                    (st (select_feedback w q data prop_ids agent_ids s))) as Hq.
      rewrite Forall_forall in Hq. apply list_elem_of_In, Hq in H. apply H. exact I.
    + destruct (val _); contradiction.
Qed.

Lemma handle_user_feedback_query_eval (w : World) (q coll : string) (pm am : pyval)
    (mem : option transcript) :
  reacts is_eval (after_eval PStr) (handle_user_feedback_query w q coll pm am mem).
Proof.
  unfold handle_user_feedback_query, get_feedback_data_from_firestore.
  apply reacts_bind_skip; [py_auto|]. intros _.
  apply reacts_bind_skip; [py_auto|]. intros data.
  destruct (negb (list_truthy data)); [apply reacts_quiet; py_auto|].
  apply reacts_bind_skip;
    [unfold infer_mentions_and_context, chat_create; py_auto|]. intros mentions.
  do 4 (apply reacts_bind_skip; [py_auto|]; intro).
  apply reacts_bind_skip; [unfold classify_query_type, chat_create; py_auto|].
  intros query_type.
  apply reacts_bind_skip; [unfold classify_feedback_focus, chat_create; py_auto|].
  intros focus.
  intros s ev Hin _ code answer ->.
  rewrite out_try_except in Hin. rewrite val_try_except, exits_try_except.
  apply in_app_or in Hin as [Hin | Hin].
  - pose proof (answer_feedback_eval _ _ _ _ _ _ _ _ _ _ Hin I code answer eq_refl)
      as H.
    destruct (eval_ended answer) as [v|e|e]; [exact I | |];
      destruct H as [Hv Hx]; rewrite Hv, ?Hx; now split.
  - exfalso. destruct (val _); [contradiction|].
    destruct (exits _); contradiction.
Qed.

Lemma handle_user_feedback_query_yields_str (w : World) (q coll : string)
    (pm am : pyval) (mem : option transcript) :
  yields is_str_value (handle_user_feedback_query w q coll pm am mem).
Proof.
  unfold handle_user_feedback_query.
  apply yields_bind. intros _. apply yields_bind. intros data.
  destruct (negb (list_truthy data)); [apply yields_ret; red; eauto|].
  do 7 (apply yields_bind; intro).
  apply yields_try_except; [|intros; apply yields_ret; red; eauto].
  unfold answer_feedback.
  destruct (Str.eqb _ "analysis" && _).
  { apply yields_bind. intros. apply yields_ret. red; eauto. }
  apply yields_bind. intros [fd|early]; [|apply yields_ret; red; eauto].
  destruct (data_truthy fd); [|apply yields_ret; red; eauto].
  apply yields_bind. intros. apply yields_ret. red; eauto.
Qed.

Lemma silent_out {A} (m : Py A) (s : State) :
  emits (fun _ => False) m -> out (m s) = [].
Proof.
  intros H. specialize (H s). destruct (out (m s)); [reflexivity|].
  now inversion H.
Qed.

Lemma get_feedback_data_run (w : World) (coll : string) (s : State) :
  out (get_feedback_data_from_firestore w coll s) =
    [EvFirestoreStream coll (firestore_stream w (clock s) coll)] /\
  forall e, firestore_stream w (clock s) coll = Raise e ->
            val (get_feedback_data_from_firestore w coll s) = Raise e.
Proof.
  unfold get_feedback_data_from_firestore. rewrite out_bind, val_bind.
  cbn [external val out st].
  destruct (firestore_stream w (clock s) coll) as [docs|e].
  - rewrite silent_out by apply alloc_all_silent. split; [reflexivity|].
    discriminate.
  - split; [reflexivity|]. now intros e' [= <-].
Qed.

Lemma handle_user_feedback_query_open (w : World) (q coll : string) (pm am : pyval)
    (mem : option transcript) (s : State) :
  exists rest,
    out (handle_user_feedback_query w q coll pm am mem s) =
      EvHandleUserFeedbackQuery q coll pm am mem
      :: EvFirestoreStream coll (firestore_stream w (clock s) coll) :: rest /\
    forall e, firestore_stream w (clock s) coll = Raise e ->
              rest = [] /\
              val (handle_user_feedback_query w q coll pm am mem s) = Raise e.
Proof.
  unfold handle_user_feedback_query.
  rewrite out_bind, val_bind. cbn [emit val out st].
  rewrite out_bind, val_bind.
  destruct (get_feedback_data_run w coll s) as [Ho Hv]. rewrite Ho.
  eexists. split; [reflexivity|].
  intros e He. rewrite (Hv e He). now split.
Qed.

(** C3 (as amended).  [handle_user_question] never raises and passes on no
    exception text: it returns one of two fixed strings, the rows of a
    successful query, or [None]; it returns "Failed to generate SQL." when
    the generation call raises, and [None], which is not a string, when all
    [max_retries] executions fail.  [handle_user_feedback_query] returns a
    string whenever it returns; when the evaluation of the generated filter
    raises an [Exception], that string ends with the exception's message;
    when the evaluated code leaves the interpreter instead, no handler
    catches that and the exit passes to the caller; and a failure of the
    Firestore read is not caught in the handler either: it is raised to the
    caller. *)
Theorem failures_seen_by_the_caller (w : World) (user_question : string)
    (property_mention agent_mention : pyval) (chat_memory_dict : option transcript)
    (s : State) :
  (forall max_retries,
     let r := handle_user_question w user_question property_mention agent_mention
                chat_memory_dict max_retries s in
     (val r = Ok (PStr "Failed to generate SQL.") \/
      val r = Ok (PStr capability_message) \/
      val r = Ok PNone \/
      exists sql row rows,
        In (EvReadSqlQuery sql (Ok (row :: rows))) (out r) /\
        val r = Ok (PList (map PDict (row :: rows)))) /\
     (forall messages e,
        In (EvChat GenerateSqlQuery messages (Raise e)) (out r) ->
        val r = Ok (PStr "Failed to generate SQL.")) /\
     (count is_failed_execution (out r) = max_retries -> val r = Ok PNone)) /\
  (forall collection_name,
     let r := handle_user_feedback_query w user_question collection_name
                property_mention agent_mention chat_memory_dict s in
     (forall v, val r = Ok v -> is_str_value v) /\
     (forall code answer e,
        In (EvEval code answer) (out r) ->
        eval_ended answer = Raised e ->
        val r = Ok (PStr ("Generated filter code failed: " +:+ exn_msg e)) /\
        exits r = false) /\
     (forall code answer e,
        In (EvEval code answer) (out r) ->
        eval_ended answer = Exited e ->
        val r = Raise e /\ exits r = true) /\
     (exists answer rest,
        out r = EvHandleUserFeedbackQuery user_question collection_name
                  property_mention agent_mention chat_memory_dict
                :: EvFirestoreStream collection_name answer :: rest /\
        forall e, answer = Raise e -> rest = [] /\ val r = Raise e)).
Proof.
  split.
  - intros max_retries. cbv zeta.
    destruct (handle_user_question_open w user_question property_mention
                agent_mention chat_memory_dict max_retries s)
      as (uq & t & s' & Ho & Hv & Ht).
    destruct (retry_loop_values w max_retries uq None None s') as [Hval Hgen].
    rewrite Ho, Hv. split; [|split].
    + destruct Hval as [H | [H | [H | (sql & row & rows & Hin & H)]]]; auto.
      right. right. right. exists sql, row, rows. split; [|exact H].
      right. apply in_or_app. now right.
    + intros messages e [H | H]; [discriminate|].
      apply in_app_or in H as [H | H]; [|exact (Hgen messages e H)].
      rewrite Forall_forall in Ht. apply list_elem_of_In, Ht in H as (m & a & H).
      discriminate.
    + destruct (retry_loop_trace w max_retries uq None None s')
        as (_ & _ & _ & _ & Hnone & _).
      intros H. apply Hnone.
      now rewrite count_after_entry in H by (reflexivity || exact Ht).
  - intros coll. cbv zeta. split; [|split; [|split]].
    + intros v Hv. exact (handle_user_feedback_query_yields_str _ _ _ _ _ _ _ _ Hv).
    + intros code answer e Hin He.
      pose proof (handle_user_feedback_query_eval w user_question coll
                    property_mention agent_mention chat_memory_dict s _ Hin I
                    code answer eq_refl) as H.
      now rewrite He in H.
    + intros code answer e Hin He.
      pose proof (handle_user_feedback_query_eval w user_question coll
                    property_mention agent_mention chat_memory_dict s _ Hin I
                    code answer eq_refl) as H.
      now rewrite He in H.
    + destruct (handle_user_feedback_query_open w user_question coll
                  property_mention agent_mention chat_memory_dict s)
        as (rest & Ho & Hraise).
      eauto.
Qed.

Lemma failures_seen_by_the_caller_witness :
  val (handle_user_question offline_world "average price?" PNone PNone None 3 start)
    = Ok (PStr "Failed to generate SQL.") /\
  val (handle_user_question stubborn_world "average price?" PNone PNone None 3 start)
    = Ok PNone /\
  val (handle_user_feedback_query bad_filter_world "any complaints?"
         "feedback_feedback" PNone PNone (Some []) start)
    = Ok (PStr "Generated filter code failed: name 'entries' is not defined") /\
  val (handle_user_feedback_query exit_world "any complaints?"
         "feedback_feedback" PNone PNone (Some []) start)
    = Raise (mk_exn "SystemExit" "" "") /\
  val (handle_user_feedback_query
         (with_firestore offline_world
            (fun _ _ => Raise (mk_exn "ServiceUnavailable" "503" "")))
         "any complaints?" "feedback_feedback" PNone PNone (Some []) start)
    = Raise (mk_exn "ServiceUnavailable" "503" "").
Proof.
  split; [|split; [|split; [|split]]].
  - destruct (failures_seen_by_the_caller offline_world "average price?" PNone PNone
                None start) as [H _].
    destruct (H 3%nat) as (_ & Hgen & _). eapply Hgen. right. left. reflexivity.
  - destruct (failures_seen_by_the_caller stubborn_world "average price?" PNone PNone
                None start) as [H _].
    destruct (H 3%nat) as (_ & _ & Hnone). apply Hnone. reflexivity.
  - destruct (failures_seen_by_the_caller bad_filter_world "any complaints?" PNone
                PNone (Some []) start) as [_ H].
    destruct (H "feedback_feedback") as (_ & Heval & _).
    refine (proj1 (Heval "[entry for entry in entries]"
                     {| eval_records :=
                          [feedback_record 1 3 "bright rooms" "answered late"];
                        eval_ended :=
                          Raised (mk_exn "NameError" "name 'entries' is not defined"
                                    "") |}
                     (mk_exn "NameError" "name 'entries' is not defined" "")
                     _ eq_refl)).
    vm_compute. do 6 right. left. reflexivity.
  - destruct (failures_seen_by_the_caller exit_world "any complaints?" PNone
                PNone (Some []) start) as [_ H].
    destruct (H "feedback_feedback") as (_ & _ & Hexit & _).
    refine (proj1 (Hexit "exit()"
                     {| eval_records :=
                          [feedback_record 1 3 "bright rooms" "answered late"];
                        eval_ended := Exited (mk_exn "SystemExit" "" "") |}
                     (mk_exn "SystemExit" "" "") _ eq_refl)).
    vm_compute. do 6 right. left. reflexivity.
  - destruct (failures_seen_by_the_caller
                (with_firestore offline_world
                   (fun _ _ => Raise (mk_exn "ServiceUnavailable" "503" "")))
                "any complaints?" PNone PNone (Some []) start) as [_ H].
    destruct (H "feedback_feedback") as (_ & _ & _ & answer & rest & Ho & Hraise).
    apply Hraise. vm_compute in Ho. now injection Ho as <- _.
Defined.

(** When every execution fails the SQL handler returns [None], which is not
    a string; and the feedback handler hands the text of a [NameError] to its
    caller. *)
Lemma failures_counterexample :
  val (handle_user_question stubborn_world "average price?" PNone PNone None 3 start)
    = Ok PNone /\
  val (handle_user_feedback_query bad_filter_world "any complaints?"
         "feedback_feedback" PNone PNone (Some []) start)
    = Ok (PStr ("Generated filter code failed: " +:+
                exn_msg (mk_exn "NameError" "name 'entries' is not defined" ""))) /\
  In (EvEval "[entry for entry in entries]"
        {| eval_records := [feedback_record 1 3 "bright rooms" "answered late"];
           eval_ended :=
             Raised (mk_exn "NameError" "name 'entries' is not defined" "") |})
     (out (handle_user_feedback_query bad_filter_world "any complaints?"
             "feedback_feedback" PNone PNone (Some []) start)).
Proof.
  split; [reflexivity|]. split; [reflexivity|].
  vm_compute. do 6 right. left. reflexivity.
Qed.

Lemma infer_mentions_run (w : World) (q : string) (mem : option transcript)
    (s : State) :
  infer_mentions_and_context w q (memory_or_empty mem) s =
  {| val := Ok (mentions_of w (chat w (clock s) InferMentions
                                 (mention_messages w q mem)));
     out := [EvChat InferMentions (mention_messages w q mem)
               (chat w (clock s) InferMentions (mention_messages w q mem))];
     st := tick s;
     exits := false |}.
Proof.
  unfold infer_mentions_and_context, mention_messages, mentions_of, try_except,
    bind, chat_create, external, tick.
  cbn [val out st exits].
  destruct (chat w (clock s) InferMentions _) as [content|e]; cbn; [|reflexivity].
  destruct (json_loads w (Str.strip content)); reflexivity.
Qed.

Lemma bind_cong {A B} (m m' : Py A) (k k' : A -> Py B) (s : State) :
  m' s = m s ->
  (forall a, val (m s) = Ok a -> k' a (st (m s)) = k a (st (m s))) ->
  bind m' k' s = bind m k s.
Proof.
  intros Hm Hk. unfold bind. rewrite Hm.
  destruct (val (m s)) as [a|e] eqn:E; [now rewrite (Hk a eq_refl) | reflexivity].
Qed.

Lemma bind_cong_val {A B} (m m' : Py A) (k k' : A -> Py B) (s s1 : State)
    (a a' : A) (o : list event) (x : bool) :
  m s = {| val := Ok a; out := o; st := s1; exits := x |} ->
  m' s = {| val := Ok a'; out := o; st := s1; exits := x |} ->
  k' a' s1 = k a s1 ->
  bind m' k' s = bind m k s.
Proof. intros Hm Hm' Hk. unfold bind. rewrite Hm, Hm'. cbn. now rewrite Hk. Qed.

Lemma dict_get_set_other (k k' : string) (v : pyval) (d : pydict) :
  String.eqb k' k = false -> dict_get k' (dict_set k v d) = dict_get k' d.
Proof.
  intros Hk. induction d as [|[k0 v0] d IH]; cbn [dict_set dict_get].
  - unfold Str.eqb. now rewrite Hk.
  - unfold Str.eqb at 1. destruct (String.eqb k k0) eqn:E; cbn [dict_get].
    + apply String.eqb_eq in E as <-. unfold Str.eqb. now rewrite Hk.
    + now rewrite IH.
Qed.

Lemma mentions_of_inferred (w : World) (key : string) (v : pyval)
    (answer : result string) :
  mentions_of (with_inferred w key v) answer = mentions_of w answer \/
  exists d,
    mentions_of w answer = PDict d /\
    mentions_of (with_inferred w key v) answer = PDict (dict_set key v d).
Proof.
  unfold mentions_of. destruct answer as [content|e]; [|now left].
  cbn [with_inferred with_json_loads json_loads].
  destruct (json_loads w (Str.strip content)) as [[]|e]; eauto.
Qed.

Lemma resolve_inferred (w : World) (key : string) (v explicit : pyval)
    (answer : result string) (k : string) :
  truthy explicit = true \/ String.eqb k key = false ->
  resolve_mention explicit (mentions_of (with_inferred w key v) answer) k =
  resolve_mention explicit (mentions_of w answer) k.
Proof.
  unfold resolve_mention. intros [H | H]; [now rewrite H|].
  destruct (truthy explicit); [reflexivity|].
  destruct (mentions_of_inferred w key v answer) as [-> | (d & -> & ->)];
    [reflexivity|].
  cbn [py_get]. f_equal. now apply dict_get_set_other.
Qed.

(** The run of the handler does not depend on what the model infers for a
    key when the caller passes a truthy mention for it. *)
Lemma handler_ignores_inferred (w : World) (key : string) (v : pyval)
    (q coll : string) (pm am : pyval) (mem : option transcript) (s : State) :
  truthy pm = true \/ String.eqb "property_id" key = false ->
  truthy am = true \/ String.eqb "agent_id" key = false ->
  handle_user_feedback_query (with_inferred w key v) q coll pm am mem s =
  handle_user_feedback_query w q coll pm am mem s.
Proof.
  intros Hp Ha. unfold handle_user_feedback_query.
  apply bind_cong; [reflexivity|]. intros [] _.
  apply bind_cong; [reflexivity|]. intros data _.
  destruct (negb (list_truthy data)); [reflexivity|].
  match goal with
  | |- bind _ _ ?s1 = _ =>
      eapply bind_cong_val;
        [apply infer_mentions_run
        |exact (infer_mentions_run (with_inferred w key v) q mem s1) |]
  end.
  apply bind_cong.
  { f_equal. exact (resolve_inferred w key v pm _ "property_id" Hp). }
  intros prop_id_raw _.
  apply bind_cong.
  { f_equal. exact (resolve_inferred w key v am _ "agent_id" Ha). }
  intros agent_id_raw _. reflexivity.
Qed.

Lemma bind_emit_cong {B} (ev ev' : event) (k k' : unit -> Py B) (s : State) :
  k tt s = k' tt s ->
  val (bind (emit ev) k s) = val (bind (emit ev') k' s) /\
  st (bind (emit ev) k s) = st (bind (emit ev') k' s) /\
  exits (bind (emit ev) k s) = exits (bind (emit ev') k' s) /\
  tl (out (bind (emit ev) k s)) = tl (out (bind (emit ev') k' s)).
Proof. intros E. unfold bind, emit. cbn. now rewrite E. Qed.

(** A falsy mention counts for nothing: the handler goes on as it does
    without one. *)
Lemma handler_falsy_mentions (w : World) (q coll : string) (pm pm' am am' : pyval)
    (mem : option transcript) (s : State) :
  pm' = pm \/ (truthy pm = false /\ truthy pm' = false) ->
  am' = am \/ (truthy am = false /\ truthy am' = false) ->
  let r := handle_user_feedback_query w q coll pm am mem s in
  let r' := handle_user_feedback_query w q coll pm' am' mem s in
  val r = val r' /\ st r = st r' /\ exits r = exits r' /\ tl (out r) = tl (out r').
Proof.
  intros Hp Ha. cbv zeta.
  assert (Hres : forall explicit explicit' mentions key,
            explicit' = explicit \/
            (truthy explicit = false /\ truthy explicit' = false) ->
            resolve_mention explicit mentions key =
            resolve_mention explicit' mentions key).
  { intros explicit explicit' mentions key [-> | [H H']]; [reflexivity|].
    unfold resolve_mention. now rewrite H, H'. }
  unfold handle_user_feedback_query.
  apply bind_emit_cong.
  apply bind_cong; [reflexivity|]. intros data _.
  destruct (negb (list_truthy data)); [reflexivity|].
  apply bind_cong; [reflexivity|]. intros mentions _.
  apply bind_cong; [now rewrite (Hres pm pm' mentions "property_id" Hp)|].
  intros prop_id_raw _.
  apply bind_cong; [now rewrite (Hres am am' mentions "agent_id" Ha)|].
  intros agent_id_raw _. reflexivity.
Qed.




(** ** The order of the stages and the dispatch (C4, C7) *)

#[export] Hint Extern 1 (existsb _ _ = true) => reflexivity : py.

Lemma kinds_among_app (ks : list kind) (t1 t2 : list event) :
  kinds_among ks t1 -> kinds_among ks t2 -> kinds_among ks (t1 ++ t2).
Proof. intros H1 H2. apply Forall_app. now split. Qed.

Lemma kinds_among_weaken (ks ks' : list kind) (t : list event) :
  (forall k, existsb (kind_eqb k) ks = true -> existsb (kind_eqb k) ks' = true) ->
  kinds_among ks t -> kinds_among ks' t.
Proof.
  intros H Ht. eapply Forall_impl; [exact Ht|]. intros ev. apply H.
Qed.

Lemma kinds_among_none (ks : list kind) (k : kind) (t : list event) :
  existsb (kind_eqb k) ks = false ->
  kinds_among ks t -> Forall (fun ev => is_kind k ev = false) t.
Proof.
  intros Hk Ht. eapply Forall_impl; [exact Ht|]. intros ev Hev. unfold is_kind.
  destruct (kind_eqb (kind_of ev) k) eqn:E; [|reflexivity].
  assert (kind_of ev = k) as <- by (destruct (kind_of ev), k; try discriminate; reflexivity).
  congruence.
Qed.

Section precedes_rules.
Context (a b : event -> bool).

Lemma precedes_nil : precedes a b [].
Proof. intros pre ev post E. now destruct pre. Qed.

Lemma precedes_quiet (t : list event) :
  Forall (fun ev => b ev = false) t -> precedes a b t.
Proof.
  intros H pre ev post -> Hb. rewrite Forall_forall in H.
  rewrite (H ev) in Hb; [discriminate|]. apply list_elem_of_In, in_elt.
Qed.

Lemma precedes_cons (ev : event) (t : list event) :
  b ev = false -> precedes a b t -> precedes a b (ev :: t).
Proof.
  intros Hev Ht pre ev' post E Hb. destruct pre as [|x pre]; simpl in E.
  - injection E as <- _. congruence.
  - injection E as <- E. apply Exists_cons_tl. exact (Ht pre ev' post E Hb).
Qed.

Lemma precedes_after (ev : event) (t : list event) :
  a ev = true -> b ev = false -> precedes a b (ev :: t).
Proof.
  intros Ha Hev pre ev' post E Hb. destruct pre as [|x pre]; simpl in E.
  - injection E as <- _. congruence.
  - injection E as <- _. now apply Exists_cons_hd.
Qed.

Lemma precedes_app (t1 t2 : list event) :
  precedes a b t1 -> precedes a b t2 -> precedes a b (t1 ++ t2).
Proof.
  intros H1 H2 pre ev post E Hb.
  apply app_eq_app in E as [l [[E1 E2] | [E1 E2]]].
  - destruct l as [|x l]; simpl in E2.
    + pose proof (H2 [] ev post (eq_sym E2) Hb) as H. inversion H.
    + injection E2 as <- _. subst t1. apply (H1 pre ev l eq_refl Hb).
  - subst pre. apply Exists_app. right. exact (H2 l ev post E2 Hb).
Qed.

Lemma precedes_app_seen (t1 t2 : list event) :
  precedes a b t1 -> Exists (fun ev => a ev = true) t1 ->
  precedes a b (t1 ++ t2).
Proof.
  intros H1 Hseen pre ev post E Hb.
  apply app_eq_app in E as [l [[E1 E2] | [E1 E2]]].
  - destruct l as [|x l]; simpl in E2.
    + rewrite app_nil_r in E1. now subst pre.
    + injection E2 as <- _. subst t1. apply (H1 pre ev l eq_refl Hb).
  - subst pre. apply Exists_app. now left.
Qed.

End precedes_rules.

Lemma exists_of_in (f : event -> bool) (ev : event) (t : list event) :
  In ev t -> f ev = true -> Exists (fun ev' => f ev' = true) t.
Proof. intros Hin Hk. apply Exists_exists. exists ev. split; [now apply list_elem_of_In | exact Hk]. Qed.

Lemma handle_user_question_stages (w : World) (q : string) (pm am : pyval)
    (mem : option transcript) (k : nat) (s : State) :
  exists body,
    out (handle_user_question w q pm am mem k s) =
      EvHandleUserQuestion q pm am mem :: body /\
    kinds_among [KRetrieve; KAux] body /\
    (exists v, val (handle_user_question w q pm am mem k s) = Ok v) /\
    (forall l, val (handle_user_question w q pm am mem k s) = Ok (PList l) ->
               Exists (fun ev => retrieved ev = true) body).
Proof.
  destruct (handle_user_question_open w q pm am mem k s)
    as (uq & t & s' & Ho & Hv & Ht).
  destruct (retry_loop_trace w k uq None None s')
    as (Rv & _ & _ & _ & _ & _ & _ & Hall).
  destruct (retry_loop_values w k uq None None s') as [Hval _].
  exists (t ++ out (retry_loop w k uq None None s')).
  split; [exact Ho|]. split; [|split].
  - apply kinds_among_app.
    + eapply Forall_impl; [exact Ht|]. now intros ev (m & a & ->).
    + eapply Forall_impl; [exact Hall|]. intros ev [H | (sql & a & -> & _)].
      * destruct ev as [[] ? ?| | | | | | | |]; try discriminate; reflexivity.
      * reflexivity.
  - now rewrite Hv.
  - intros l Hl. rewrite Hv in Hl. apply Exists_app. right.
    destruct Hval as [H | [H | [H | (sql & row & rows & Hin & H)]]];
      try congruence.
    now apply (exists_of_in retrieved _ _ Hin).
Qed.

Lemma generate_feedback_analysis_kinds (w : World) (q : string) (data : pydata)
    (mem : option transcript) (focus : string) (n : nat) :
  emits (fun ev => existsb (kind_eqb (kind_of ev)) [KSummarize; KAux] = true)
    (generate_feedback_analysis w q data mem focus n).
Proof. unfold generate_feedback_analysis, chat_create. py_auto. Qed.

#[export] Hint Resolve generate_feedback_analysis_kinds : py.

Lemma answer_feedback_kinds (w : World) (q : string) (data : list nat)
    (mem : option transcript) (prop_ids agent_ids : list pyval)
    (query_type focus : string) :
  emits (fun ev => existsb (kind_eqb (kind_of ev)) [KSummarize; KAux] = true)
    (answer_feedback w q data mem prop_ids agent_ids query_type focus).
Proof.
  unfold answer_feedback, extract_trait_summary, select_feedback,
    generate_filter_code, chat_create.
  py_auto.
Qed.

Lemma handle_user_feedback_query_stages (w : World) (q coll : string) (pm am : pyval)
    (mem : option transcript) (s : State) :
  exists answer rest,
    out (handle_user_feedback_query w q coll pm am mem s) =
      EvHandleUserFeedbackQuery q coll pm am mem
      :: EvFirestoreStream coll answer :: rest /\
    kinds_among [KSummarize; KAux] rest /\
    (forall e, answer = Raise e -> rest = []).
Proof.
  unfold handle_user_feedback_query.
  rewrite out_bind. cbn [emit val out st].
  rewrite out_bind.
  destruct (get_feedback_data_run w coll s) as [Ho Hv]. rewrite Ho.
  eexists _, _. split; [reflexivity|].
  destruct (val (get_feedback_data_from_firestore w coll s)) as [data|e] eqn:E.
  - split; [|intros e He; specialize (Hv e He); congruence].
    match goal with
    | |- kinds_among _ (out (?m ?s0)) =>
        assert (H : emits (fun ev => existsb (kind_eqb (kind_of ev))
                                       [KSummarize; KAux] = true) m);
        [|exact (H s0)]
    end.
    unfold infer_mentions_and_context, classify_query_type, classify_feedback_focus.
    py_auto. apply answer_feedback_kinds.
  - split; [constructor | reflexivity].
Qed.

Lemma search_each_kinds (w : World) (keys : list string) (q : string) :
  emits (fun ev => existsb (kind_eqb (kind_of ev)) [KRetrieve; KAux] = true)
    (search_each w keys q).
Proof. induction keys as [|k keys IH]; simpl; py_auto. Qed.

(** A search that finds something has been answered by an index. *)
Lemma search_each_found (w : World) (keys : list string) (q : string) (s : State) :
  val (search_each w keys q s) = Ok [] \/
  Exists (fun ev => retrieved ev = true) (out (search_each w keys q s)) \/
  exists e, val (search_each w keys q s) = Raise e.
Proof.
  destruct keys as [|k keys]; [now left|]. right.
  cbn [search_each]. rewrite out_bind, val_bind. cbn [external val out].
  destruct (similarity_search w (clock s) k q) as [results|e].
  - left. now apply Exists_cons_hd.
  - right. eauto.
Qed.

#[export] Hint Resolve search_each_kinds : py.

Lemma retrieves_bind_skip {A B} (Q : B -> Prop) (m : Py A) (k : A -> Py B) :
  (forall a, retrieves Q (k a)) -> retrieves Q (bind m k).
Proof.
  intros Hk s b. rewrite val_bind, out_bind.
  destruct (val (m s)) as [a|e]; [|discriminate].
  intros Hv HQ. apply Exists_app. right. exact (Hk a _ b Hv HQ).
Qed.

Lemma retrieves_bind_ret {A B} (Q : A -> Prop) (R : B -> Prop) (m : Py A)
    (f : A -> B) :
  retrieves Q m -> (forall a, R (f a) -> Q a) ->
  retrieves R (bind m (fun a => ret (f a))).
Proof.
  intros Hm Hf s b. rewrite val_bind, out_bind.
  destruct (val (m s)) as [a|e] eqn:E; [|discriminate].
  cbn [ret val out]. intros [= <-] HR. rewrite app_nil_r.
  exact (Hm s a E (Hf a HR)).
Qed.

Lemma search_each_retrieves (w : World) (keys : list string) (q : string) :
  retrieves (fun found => found <> []) (search_each w keys q).
Proof.
  intros s found Hv Hne.
  destruct (search_each_found w keys q s) as [H | [H | [e H]]]; [|exact H|];
    congruence.
Qed.

Lemma search_property_pdfs_stages (w : World) (q : string) (pm : pyval)
    (mem : option transcript) (k : nat) (s : State) :
  exists body,
    out (search_property_pdfs w q pm mem k s) = EvSearchPropertyPdfs q pm mem :: body /\
    kinds_among [KRetrieve; KAux] body /\
    (forall d, val (search_property_pdfs w q pm mem k s) = Ok d ->
               dict_mem "error" d = false ->
               Exists (fun ev => retrieved ev = true) body).
Proof.
  unfold search_property_pdfs.
  rewrite out_bind, val_bind. cbn [emit val out st].
  eexists. split; [reflexivity|].
  match goal with
  | |- kinds_among _ (out (?m s)) /\ _ => set (rest := m)
  end.
  split.
  - assert (H : emits (fun ev => existsb (kind_eqb (kind_of ev))
                                   [KRetrieve; KAux] = true) rest);
      [|exact (H s)].
    subst rest. unfold should_use_chat_history, extract_property_mentions. py_auto.
  - assert (H : retrieves (fun d : pydict => dict_mem "error" d = false) rest);
      [|exact (H s)].
    subst rest.
    apply retrieves_bind_skip. intros use_memory.
    apply retrieves_bind_skip. intros mentions.
    match goal with
    | |- retrieves _ (bind ?m _) =>
        assert (Hm : retrieves (fun ds : list (string * string) => ds <> []) m)
    end.
    { destruct (list_truthy _); [apply search_each_retrieves|].
      apply retrieves_bind_ret with (Q := fun found => found <> []);
        [apply search_each_retrieves|].
      intros all_ranked H ->. now apply H. }
    intros s0 d. rewrite val_bind, out_bind.
    match goal with
    | |- context [val (?m s0)] => destruct (val (m s0)) as [ds|e] eqn:E
    end; [|discriminate].
    destruct ds as [|d0 ds]; cbn [map list_truthy negb ret val out].
    + intros [= <-]. discriminate.
    + intros _ _. apply Exists_app. left. apply (Hm s0 _ E). discriminate.
Qed.

Lemma generate_answer_from_context_kinds (w : World) (q : string) (context : pyval) :
  emits (fun ev => existsb (kind_eqb (kind_of ev)) [KSummarize; KAux] = true)
    (generate_answer_from_context w q context).
Proof.
  unfold generate_answer_from_context, extract_requested_count_via_llm. py_auto.
Qed.

Lemma out_bind_ret {A B} (m : Py A) (f : A -> B) (s : State) :
  out (bind m (fun a => ret (f a)) s) = out (m s).
Proof.
  rewrite out_bind. destruct (val (m s)); simpl; apply app_nil_r.
Qed.

Lemma val_bind_ret {A B} (m : Py A) (f : A -> B) (s : State) :
  val (bind m (fun a => ret (f a)) s) =
  match val (m s) with Ok a => Ok (f a) | Raise e => Raise e end.
Proof. rewrite val_bind. now destruct (val (m s)). Qed.

Lemma entries_none (ks : list kind) (t : list event) :
  existsb (kind_eqb KEntry) ks = false -> kinds_among ks t -> entries t = [].
Proof.
  intros Hk Ht. pose proof (kinds_among_none ks KEntry t Hk Ht) as H. clear Ht.
  unfold entries. induction H as [|ev t Hev _ IH]; simpl; [reflexivity|].
  now rewrite Hev.
Qed.

Lemma conn_failed_none (ks : list kind) (t : list event) :
  existsb (kind_eqb KConn) ks = false -> kinds_among ks t -> conn_failed t = false.
Proof.
  intros Hk Ht. pose proof (kinds_among_none ks KConn t Hk Ht) as H. clear Ht.
  unfold conn_failed. induction H as [|ev t Hev _ IH]; simpl; [reflexivity|].
  rewrite IH, orb_false_r. destruct ev as [| [] | | | | | | |]; try reflexivity.
  discriminate.
Qed.

Lemma dispatch_round (w : World) (q : string) (mem : option transcript)
    (destination pm am : pyval) (s : State) :
  round_body q mem destination pm am (out (dispatch w q mem destination pm am s)) /\
  (forall l d, val (dispatch w q mem destination pm am s) = Ok (PList l, d) ->
     Exists (fun ev => retrieved ev = true)
       (out (dispatch w q mem destination pm am s))).
Proof.
  unfold dispatch, round_body, selected.
  destruct (dest_is destination "sql").
  { rewrite out_bind, val_bind.
    change (out (sqlite_setup.get_sqlite_conn w s))
      with [EvGetSqliteConn (get_sqlite_conn w (clock s))].
    change (val (sqlite_setup.get_sqlite_conn w s)) with (get_sqlite_conn w (clock s)).
    generalize (st (sqlite_setup.get_sqlite_conn w s)). intros s1.
    destruct (get_sqlite_conn w (clock s)) as [[]|e].
    - rewrite out_bind_ret, val_bind_ret.
      destruct (handle_user_question_stages w q pm am mem 3 s1)
        as (body & Ho & Hk & _ & Hl).
      rewrite Ho. cbn [app].
      split; [split; [|split]|].
      + constructor; [reflexivity|]. constructor; [reflexivity|].
        eapply kinds_among_weaken; [|exact Hk].
        intros k. destruct k; simpl; congruence.
      + unfold entries, conn_failed. cbn [List.filter is_kind kind_of kind_eqb existsb].
        fold (entries body). fold (conn_failed body).
        rewrite (entries_none [KRetrieve; KAux] _ eq_refl Hk),
          (conn_failed_none [KRetrieve; KAux] _ eq_refl Hk).
        reflexivity.
      + apply precedes_quiet. constructor; [reflexivity|].
        constructor; [reflexivity|].
        exact (kinds_among_none [KRetrieve; KAux] KSummarize _ eq_refl Hk).
      + intros l d E.
        destruct (val (handle_user_question w q pm am mem 3 s1)) as [v|e];
          [|discriminate].
        injection E as -> _. do 2 apply Exists_cons_tl. now apply (Hl l).
    - cbn [app]. split; [split; [|split]|].
      + constructor; [reflexivity | constructor].
      + reflexivity.
      + apply precedes_quiet. constructor; [reflexivity | constructor].
      + discriminate. }
  destruct (dest_is destination "firestore").
  { rewrite out_bind_ret, val_bind_ret.
    destruct (handle_user_feedback_query_stages w q "feedback_feedback" pm am mem s)
      as (answer & rest & Ho & Hk & Hnil).
    rewrite Ho. split; [split; [|split]|].
    - constructor; [reflexivity|]. constructor; [reflexivity|].
      eapply kinds_among_weaken; [|exact Hk].
      intros k. destruct k; simpl; congruence.
    - unfold entries, conn_failed. cbn [List.filter is_kind kind_of kind_eqb existsb].
      fold (entries rest). fold (conn_failed rest).
      rewrite (entries_none [KSummarize; KAux] _ eq_refl Hk),
        (conn_failed_none [KSummarize; KAux] _ eq_refl Hk).
      reflexivity.
    - apply precedes_cons; [reflexivity|]. destruct answer as [docs|e].
      + apply precedes_after; reflexivity.
      + rewrite (Hnil e eq_refl). apply precedes_quiet. now repeat constructor.
    - intros l d E.
      destruct (val (handle_user_feedback_query w q "feedback_feedback" pm am mem s))
        as [v|e] eqn:Hv; [|discriminate].
      injection E as -> _.
      destruct (handle_user_feedback_query_yields_str _ _ _ _ _ _ _ _ Hv) as [str H].
      discriminate. }
  destruct (dest_is destination "faiss").
  { rewrite out_bind, val_bind.
    destruct (search_property_pdfs_stages w q pm mem 3 s)
      as (body & Ho & Hk & Hfound).
    rewrite Ho.
    set (tail := match val (search_property_pdfs w q pm mem 3 s) with
                 | Ok a => _
                 | Raise _ => []
                 end).
    assert (Htail : kinds_among [KSummarize; KAux] tail /\
                    (tail = [] \/
                     Exists (fun ev => retrieved ev = true) body)).
    { subst tail.
      destruct (val (search_property_pdfs w q pm mem 3 s)) as [result|e];
        [|split; [constructor | now left]].
      destruct (dict_mem "error" result) eqn:Herr;
        [split; [constructor | now left]|].
      cbn [orb].
      destruct (negb (truthy (dict_get "context" result)));
        [split; [constructor | now left]|].
      rewrite out_bind_ret. split; [apply generate_answer_from_context_kinds|].
      right. now apply (Hfound result). }
    destruct Htail as [Htk Hts].
    split; [split; [|split]|].
    - cbn [app]. constructor; [reflexivity|]. apply kinds_among_app.
      + eapply kinds_among_weaken; [|exact Hk].
        intros k0. destruct k0; simpl; congruence.
      + eapply kinds_among_weaken; [|exact Htk].
        intros k0. destruct k0; simpl; congruence.
    - cbn [app].
      assert (Hall : kinds_among [KRetrieve; KSummarize; KAux] (body ++ tail)).
      { apply kinds_among_app.
        - eapply kinds_among_weaken; [|exact Hk].
          intros k0. destruct k0; simpl; congruence.
        - eapply kinds_among_weaken; [|exact Htk].
          intros k0. destruct k0; simpl; congruence. }
      unfold entries, conn_failed. cbn [List.filter is_kind kind_of kind_eqb existsb].
      fold (entries (body ++ tail)). fold (conn_failed (body ++ tail)).
      rewrite (entries_none [KRetrieve; KSummarize; KAux] _ eq_refl Hall),
        (conn_failed_none [KRetrieve; KSummarize; KAux] _ eq_refl Hall).
      reflexivity.
    - assert (Hq : precedes retrieved (is_kind KSummarize) (EvSearchPropertyPdfs q pm mem :: body)).
      { apply precedes_quiet. constructor; [reflexivity|].
        exact (kinds_among_none [KRetrieve; KAux] KSummarize _ eq_refl Hk). }
      destruct Hts as [-> | Hseen].
      + now rewrite app_nil_r.
      + apply precedes_app_seen; [exact Hq|]. now apply Exists_cons_tl.
    - intros l d.
      destruct (val (search_property_pdfs w q pm mem 3 s)) as [result|e];
        [|discriminate].
      destruct (dict_mem "error" result || negb (truthy (dict_get "context" result)));
        [discriminate|].
      rewrite val_bind_ret. destruct (val _); discriminate. }
  cbn [ret val out]. split; [split; [|split]|].
  - constructor.
  - reflexivity.
  - apply precedes_nil.
  - discriminate.
Qed.

Lemma out_ret_bind {A B} (a : A) (k : A -> Py B) (s : State) :
  out (bind (ret a) k s) = out (k a s).
Proof. reflexivity. Qed.

Lemma val_ret_bind {A B} (a : A) (k : A -> Py B) (s : State) :
  val (bind (ret a) k s) = val (k a s).
Proof. reflexivity. Qed.

Lemma run_query_round (w : World) (q : string) (mem : option transcript) (s : State) :
  let answer := chat w (clock s) RouteQuery (route_messages w q mem) in
  exists body,
    out (run_query w q mem s) =
      EvChat RouteQuery (route_messages w q mem) answer :: body /\
    kinds_among [KConn; KEntry; KRetrieve; KSummarize; KAux] body /\
    entries body =
      match dispatched (route_of w answer) q mem with
      | Some entry => if conn_failed body then [] else [entry]
      | None => []
      end /\
    precedes retrieved (is_kind KSummarize) body /\
    (forall l d, val (run_query w q mem s) = Ok (PList l, d) ->
                 Exists (fun ev => retrieved ev = true) body).
Proof.
  cbv zeta. unfold run_query.
  rewrite out_bind, val_bind, route_query_run. cbn [val out st app].
  set (answer := chat w (clock s) RouteQuery (route_messages w q mem)).
  eexists. split; [reflexivity|].
  destruct (route_of w answer) as [| | | | | |d];
    try (cbn; split; [constructor|]; split; [reflexivity|];
         split; [apply precedes_nil | discriminate]).
  cbn [py_get lift dispatched].
  rewrite !out_ret_bind, !val_ret_bind, out_try_except, val_try_except.
  destruct (dispatch_round w q mem (dict_get "destination" d)
              (dict_get "property_mention" d) (dict_get "agent_mention" d) (tick s))
    as [(Hk & He & Hp) Hl].
  set (r := dispatch w q mem (dict_get "destination" d)
              (dict_get "property_mention" d) (dict_get "agent_mention" d) (tick s))
    in *.
  assert (E : out r ++ match val r with
                       | Ok _ => []
                       | Raise e =>
                           if exits r then []
                           else
                             out (ret (PStr "An error occurred while processing your query.",
                                       PStr "error") (st r))
                       end = out r).
  { destruct (val r); [|destruct (exits r)]; apply app_nil_r. }
  rewrite E. split; [exact Hk|]. split; [exact He|]. split; [exact Hp|].
  intros l dd Hv. apply (Hl l dd).
  destruct (val r); [exact Hv | destruct (exits r); discriminate].
Qed.

Lemma run_query_is_round (w : World) (q : string) (mem : option transcript)
    (s : State) :
  routing_round w q mem (out (run_query w q mem s)) /\
  precedes retrieved (is_kind KSummarize) (out (run_query w q mem s)) /\
  (forall l d, val (run_query w q mem s) = Ok (PList l, d) ->
               Exists (fun ev => retrieved ev = true)
                 (out (run_query w q mem s))).
Proof.
  destruct (run_query_round w q mem s) as (body & Ho & Hk & He & Hp & Hl).
  rewrite Ho. split; [|split].
  - eexists _, body. split; [reflexivity|]. split; [exact Hk | exact He].
  - apply precedes_cons; [reflexivity | exact Hp].
  - intros l d Hv. apply Exists_cons_tl. exact (Hl l d Hv).
Qed.

Lemma present_out (w : World) (q : string) (result : pyval) (s : State) :
  kinds_among [KSummarize] (out (present w q result s)) /\
  (is_list result = false -> out (present w q result s) = []).
Proof.
  unfold present. destruct (is_list result).
  - rewrite out_bind_ret. split; [|discriminate].
    assert (H : emits (fun ev => existsb (kind_eqb (kind_of ev)) [KSummarize] = true)
                  (generate_natural_answer w q result))
      by (unfold generate_natural_answer, chat_create; py_auto).
    exact (H s).
  - split; [constructor | reflexivity].
Qed.

Lemma handle_routed_query_shape (w : World) (q : string) (mem : option transcript)
    (s : State) :
  let messages := [Msg User (prompt w IsGeneralMessage [q])] in
  let answer := chat w (clock s) IsGeneralMessage messages in
  exists rest,
    out (handle_routed_query w q mem s) = EvChat IsGeneralMessage messages answer :: rest /\
    if general_of answer then
      exists reply,
        rest = [EvChat GenerateFriendlyReply
                  [Msg User (prompt w GenerateFriendlyReply [q])] reply] /\
        val (handle_routed_query w q mem s) = Ok (PStr (friendly_of reply))
    else business_turn w q mem rest.
Proof.
  cbv zeta. unfold handle_routed_query.
  rewrite out_bind, val_bind, is_general_message_run. cbn [val out st app].
  fold (general_of (chat w (clock s) IsGeneralMessage
                      [Msg User (prompt w IsGeneralMessage [q])])).
  eexists. split; [reflexivity|].
  destruct (general_of _).
  { rewrite out_bind_ret, val_bind_ret. unfold generate_friendly_reply.
    rewrite try_chat_ret. cbn [val out]. eexists. split; reflexivity. }
  rewrite out_bind.
  destruct (run_query_is_round w q mem (tick s)) as (Hr1 & Hp1 & Hl1).
  set (r1 := run_query w q mem (tick s)) in *.
  assert (Hone : forall tail,
            kinds_among [KSummarize] tail ->
            (tail = [] \/ Exists (fun ev => retrieved ev = true) (out r1)) ->
            business_turn w q mem (out r1 ++ tail)).
  { intros tail Hk Ht. exists [out r1], tail. cbn [concat]. rewrite app_nil_r.
    split; [reflexivity|]. split; [now left|].
    split; [now constructor|]. split; [now constructor|]. now split. }
  destruct (val r1) as [[result1 dest1]|e] eqn:Hv1;
    [|apply Hone; [constructor | now left]].
  cbn [fst].
  assert (Hpresent : forall result (s0 : State),
            (forall l, result = PList l ->
                       Exists (fun ev => retrieved ev = true) (out r1)) ->
            business_turn w q mem (out r1 ++ out (present w q result s0))).
  { intros result s0 Hl. destruct (present_out w q result s0) as [Hk Hnil].
    apply Hone; [exact Hk|].
    destruct result; try (left; now apply Hnil). right. now apply (Hl l). }
  destruct (is_hit result1).
  { apply Hpresent. intros l ->. exact (Hl1 l dest1 eq_refl). }
  destruct (memory_truthy mem) eqn:Hmem;
    [|apply Hone; [constructor | now left]].
  rewrite out_bind.
  destruct (run_query_is_round w q mem (st r1)) as (Hr2 & Hp2 & Hl2).
  set (r2 := run_query w q mem (st r1)) in *.
  assert (Htwo : forall tail,
            kinds_among [KSummarize] tail ->
            (tail = [] \/ Exists (fun ev => retrieved ev = true) (out r2)) ->
            business_turn w q mem (out r1 ++ out r2 ++ tail)).
  { intros tail Hk Ht. exists [out r1; out r2], tail. cbn [concat].
    rewrite app_nil_r, <- app_assoc.
    split; [reflexivity|]. split; [right; now split|].
    split; [now repeat constructor|]. split; [now repeat constructor|].
    split; [exact Hk|]. destruct Ht as [Ht | Ht]; [now left|].
    right. apply Exists_app. now right. }
  destruct (val r2) as [[result2 dest2]|e] eqn:Hv2;
    [|apply Htwo; [constructor | now left]].
  cbn [fst].
  destruct (truthy result2); [|apply Htwo; [constructor | now left]].
  destruct (present_out w q result2 (st r2)) as [Hk Hnil].
  apply Htwo; [exact Hk|].
  destruct result2; try (left; now apply Hnil). right. exact (Hl2 l dest2 eq_refl).
Qed.




Lemma precedes_concat (a b : event -> bool) (rounds : list (list event)) :
  Forall (precedes a b) rounds -> precedes a b (concat rounds).
Proof.
  induction 1 as [|round rounds Hr _ IH]; simpl; [apply precedes_nil|].
  now apply precedes_app.
Qed.

Lemma round_kinds (w : World) (q : string) (mem : option transcript)
    (round : list event) :
  routing_round w q mem round ->
  kinds_among [KRoute; KConn; KEntry; KRetrieve; KSummarize; KAux] round /\
  exists ev body, round = ev :: body /\ is_kind KRoute ev = true.
Proof.
  intros (answer & body & -> & Hk & _). split.
  - constructor; [reflexivity|]. eapply kinds_among_weaken; [|exact Hk].
    intros k0. destruct k0; simpl; congruence.
  - eexists _, _. split; reflexivity.
Qed.

Lemma rounds_kinds (w : World) (q : string) (mem : option transcript)
    (rounds : list (list event)) :
  Forall (routing_round w q mem) rounds ->
  kinds_among [KRoute; KConn; KEntry; KRetrieve; KSummarize; KAux] (concat rounds).
Proof.
  induction 1 as [|round rounds Hr _ IH]; simpl; [constructor|].
  apply kinds_among_app; [|exact IH]. now apply (round_kinds w q mem).
Qed.

(** C7 (as amended).  A turn starts with the small-talk classification,
    which is asked once.  Every routing call comes after it, every entry
    into a backend and every read of a store comes after a routing call, and
    every call that writes an answer from retrieved data comes after a read
    of a store that returned.  The order holds event by event, not for the
    turn as one chain: a turn that falls back routes, retrieves and
    summarises a second time. *)
Theorem stages_in_order (w : World) (user_question : string)
    (chat_memory_dict : option transcript) (s : State) :
  let t := out (handle_routed_query w user_question chat_memory_dict s) in
  (exists messages answer rest,
     t = EvChat IsGeneralMessage messages answer :: rest /\
     Forall (fun ev => is_kind KClassify ev = false) rest) /\
  precedes (is_kind KClassify) (is_kind KRoute) t /\
  precedes (is_kind KRoute) (is_kind KEntry) t /\
  precedes (is_kind KRoute) (is_kind KRetrieve) t /\
  precedes retrieved (is_kind KSummarize) t.
Proof.
  cbv zeta.
  destruct (handle_routed_query_shape w user_question chat_memory_dict s)
    as (rest & Ho & Hshape).
  rewrite Ho.
  destruct (general_of _).
  { destruct Hshape as (reply & -> & _).
    split; [eexists _, _, _; split; [reflexivity|]; now repeat constructor|].
    repeat split; apply precedes_quiet; now repeat constructor. }
  destruct Hshape as (rounds & tail & -> & Hlen & Hrounds & Hprec & Hk & Htail).
  pose proof (rounds_kinds w _ _ _ Hrounds) as Hrk.
  assert (Hfirst : exists ev body,
            concat rounds ++ tail = ev :: body /\ is_kind KRoute ev = true).
  { destruct rounds as [|round rounds];
      [destruct Hlen as [H | [H _]]; discriminate|].
    inversion Hrounds as [|? ? Hr _]. subst.
    destruct (round_kinds w _ _ _ Hr) as (_ & ev & body & -> & Hev).
    eexists ev, _. split; [reflexivity | exact Hev]. }
  destruct Hfirst as (ev & body & E & Hev).
  assert (Hall : kinds_among [KRoute; KConn; KEntry; KRetrieve; KSummarize; KAux]
                   (concat rounds ++ tail)).
  { apply kinds_among_app; [exact Hrk|].
    eapply kinds_among_weaken; [|exact Hk].
    intros k0. destruct k0; simpl; congruence. }
  split; [|split; [|split; [|split]]].
  - eexists _, _, _. split; [reflexivity|].
    exact (kinds_among_none
             [KRoute; KConn; KEntry; KRetrieve; KSummarize; KAux] KClassify _
             eq_refl Hall).
  - apply precedes_after; reflexivity.
  - apply precedes_cons; [reflexivity|]. rewrite E.
    apply precedes_after; [exact Hev|].
    destruct ev as [[] ? ?| | | | | | | |]; try discriminate; reflexivity.
  - apply precedes_cons; [reflexivity|]. rewrite E.
    apply precedes_after; [exact Hev|].
    destruct ev as [[] ? ?| | | | | | | |]; try discriminate; reflexivity.
  - apply precedes_cons; [reflexivity|].
    pose proof (precedes_concat _ _ _ Hprec) as Hc.
    destruct Htail as [-> | Hseen].
    + now rewrite app_nil_r.
    + now apply precedes_app_seen.
Qed.

Lemma stages_in_order_witness :
  let t := out (handle_routed_query fallback_world "Are agents polite?"
                  (Some [("hi", "hello")]) start) in
  map kind_of t =
    [KClassify; KRoute; KEntry; KRetrieve; KAux; KAux; KAux; KSummarize;
     KRoute; KEntry; KRetrieve; KAux; KAux; KAux; KSummarize] /\
  (exists messages answer rest,
     t = EvChat IsGeneralMessage messages answer :: rest /\
     Forall (fun ev => is_kind KClassify ev = false) rest) /\
  precedes (is_kind KClassify) (is_kind KRoute) t /\
  precedes (is_kind KRoute) (is_kind KEntry) t /\
  precedes (is_kind KRoute) (is_kind KRetrieve) t /\
  precedes retrieved (is_kind KSummarize) t.
Proof.
  split; [vm_compute; reflexivity|].
  apply (stages_in_order fallback_world "Are agents polite?"
           (Some [("hi", "hello")]) start).
Defined.

(** A turn that falls back: the summary of the first round says that there
    is no relevant feedback, a chat memory is given, and the router routes,
    reads and summarises again.  A routing call and a read come after a
    summarisation call. *)
Lemma stages_counterexample :
  let r := handle_routed_query fallback_world "Are agents polite?"
             (Some [("hi", "hello")]) start in
  val r = Ok (PStr "No relevant feedback.") /\
  map kind_of (out r) =
    [KClassify; KRoute; KEntry; KRetrieve; KAux; KAux; KAux; KSummarize;
     KRoute; KEntry; KRetrieve; KAux; KAux; KAux; KSummarize] /\
  exists before summary route after,
    out r = before ++ summary :: route :: after /\
    is_kind KSummarize summary = true /\ is_kind KRoute route = true /\
    Exists (fun ev => is_kind KRetrieve ev = true) after.
Proof.
  cbv zeta. split; [vm_compute; reflexivity|]. split; [vm_compute; reflexivity|].
  vm_compute. eexists [_; _; _; _; _; _; _], _, _, _.
  split; [reflexivity|]. split; [reflexivity|]. split; [reflexivity|].
  apply Exists_cons_tl, Exists_cons_hd. reflexivity.
Qed.

(** ** A turn that succeeds *)

Example sales_turn :
  let r := handle_routed_query sales_world "Which city sells most?" None start in
  val r = Ok (PStr "Hartford leads with 12 sales.") /\
  map kind_of (out r) =
    [KClassify; KRoute; KConn; KEntry; KAux; KRetrieve; KSummarize].
Proof. vm_compute. split; reflexivity. Qed.

(** * Further properties of the code *)

(** ** The chat memory built by app.py and read by the backends *)

Lemma str_of_nat_inj (i j : nat) : str_of_nat i = str_of_nat j -> i = j.
Proof.
  unfold str_of_nat. intros H.
  apply (f_equal DecimalString.NilEmpty.uint_of_string) in H.
  rewrite !DecimalString.NilEmpty.usu in H. injection H as H.
  apply (f_equal Nat.of_uint) in H.
  now rewrite !DecimalNat.Unsigned.of_to in H.
Qed.

Lemma memory_key_eqb (c c' : ascii) (i j : nat) :
  Str.eqb (String c (str_of_nat i)) (String c' (str_of_nat j)) =
  Ascii.eqb c c' && Nat.eqb i j.
Proof.
  unfold Str.eqb. simpl. destruct (Ascii.eqb c c'); [|reflexivity]. simpl.
  destruct (Nat.eqb_spec i j) as [->|Hne].
  - apply String.eqb_refl.
  - apply String.eqb_neq. intros H. now apply str_of_nat_inj in H.
Qed.

Lemma dict_set_fresh (k : string) (v : pyval) (d : pydict) :
  dict_mem k d = false -> dict_set k v d = d ++ [(k, v)].
Proof.
  induction d as [|[k' v'] d IH]; simpl; [reflexivity|].
  destruct (Str.eqb k k'); simpl; [discriminate|]. intros H. now rewrite IH.
Qed.

Lemma dict_mem_app (k : string) (d e : pydict) :
  dict_mem k (d ++ e) = dict_mem k d || dict_mem k e.
Proof.
  induction d as [|[k' v'] d IH]; simpl; [reflexivity|].
  now rewrite IH, orb_assoc.
Qed.

Lemma dict_get_app_fresh (k : string) (d e : pydict) :
  dict_mem k d = false -> dict_get k (d ++ e) = dict_get k e.
Proof.
  induction d as [|[k' v'] d IH]; simpl; [reflexivity|].
  destruct (Str.eqb k k'); simpl; [discriminate | exact IH].
Qed.

Lemma no_later_step (i : nat) (q a : string) (d : pydict) :
  no_later i d ->
  no_later (S i) (d ++ [("q" +:+ str_of_nat i, PStr q);
                        ("a" +:+ str_of_nat i, PStr a)]).
Proof.
  intros H j Hj. destruct (H j ltac:(lia)) as [Hq Ha].
  rewrite !dict_mem_app, Hq, Ha. cbn [dict_mem orb].
  change ("q" +:+ str_of_nat j) with (String "q" (str_of_nat j)).
  change ("a" +:+ str_of_nat j) with (String "a" (str_of_nat j)).
  change ("q" +:+ str_of_nat i) with (String "q" (str_of_nat i)).
  change ("a" +:+ str_of_nat i) with (String "a" (str_of_nat i)).
  rewrite !memory_key_eqb.
  assert (Nat.eqb j i = false) as -> by (apply Nat.eqb_neq; lia).
  split; reflexivity.
Qed.

Lemma fill_memory_appends (chat_history : transcript) :
  forall i d, no_later i d ->
              fill_memory i chat_history d = d ++ memory_entries i chat_history.
Proof.
  induction chat_history as [|[q a] rest IH]; intros i d Hd; simpl.
  - now rewrite app_nil_r.
  - destruct (Hd i (le_n i)) as [Hq Ha].
    rewrite (dict_set_fresh _ _ d Hq).
    rewrite dict_set_fresh.
    + rewrite <- app_assoc. cbn [app].
      rewrite IH.
      * now rewrite <- app_assoc.
      * now apply no_later_step.
    + rewrite dict_mem_app, Ha. cbn [dict_mem orb].
      change ("q" +:+ str_of_nat i) with (String "q" (str_of_nat i)).
      change ("a" +:+ str_of_nat i) with (String "a" (str_of_nat i)).
      now rewrite memory_key_eqb.
Qed.

Lemma memory_entries_length (chat_history : transcript) (i : nat) :
  length (memory_entries i chat_history) = (2 * length chat_history)%nat.
Proof.
  revert i. induction chat_history as [|[q a] rest IH]; intros i; simpl;
    [reflexivity|].
  rewrite IH. lia.
Qed.

Lemma memory_entries_read (chat_history : transcript) :
  forall i pre,
    no_later i pre ->
    map_result
      (fun j =>
         match dict_index ("q" +:+ str_of_nat j)
                 (pre ++ memory_entries i chat_history) with
         | Raise e => Raise e
         | Ok q =>
             match dict_index ("a" +:+ str_of_nat j)
                     (pre ++ memory_entries i chat_history) with
             | Raise e => Raise e
             | Ok a => Ok (q, a)
             end
         end)
      (seq i (length chat_history)) =
    Ok (map (fun qa => (PStr (fst qa), PStr (snd qa))) chat_history).
Proof.
  induction chat_history as [|[q a] rest IH]; intros i pre Hpre; [reflexivity|].
  destruct (Hpre i (le_n i)) as [Hq Ha].
  cbn [length seq map_result memory_entries map fst snd].
  unfold dict_index at 1 2.
  rewrite !dict_mem_app, Hq, Ha, !(dict_get_app_fresh _ pre) by assumption.
  cbn [orb dict_mem dict_get].
  change ("q" +:+ str_of_nat i) with (String "q" (str_of_nat i)).
  change ("a" +:+ str_of_nat i) with (String "a" (str_of_nat i)).
  rewrite !memory_key_eqb, Nat.eqb_refl. cbn [Ascii.eqb andb orb].
  change (String "q" (str_of_nat i)) with ("q" +:+ str_of_nat i).
  change (String "a" (str_of_nat i)) with ("a" +:+ str_of_nat i).
  specialize (IH (S i) (pre ++ [("q" +:+ str_of_nat i, PStr q);
                                ("a" +:+ str_of_nat i, PStr a)])
                (no_later_step i q a pre Hpre)).
  rewrite <- app_assoc in IH. cbn [app] in IH. now rewrite IH.
Qed.

(** X1.  The dict that [app.py] builds from a history of [n] exchanges has
    [2n] entries, is truthy exactly when the history is not empty, and the
    loops of the backends read from it the exchanges of the history, in
    order, without a [KeyError]. *)
Theorem chat_memory_round_trip (chat_history : transcript) :
  length (build_chat_memory_dict chat_history) = (2 * length chat_history)%nat /\
  truthy (PDict (build_chat_memory_dict chat_history)) =
    memory_truthy (Some chat_history) /\
  memory_pairs (build_chat_memory_dict chat_history) =
    Ok (map (fun qa => (PStr (fst qa), PStr (snd qa))) chat_history).
Proof.
  assert (E : build_chat_memory_dict chat_history = memory_entries 1 chat_history).
  { unfold build_chat_memory_dict. rewrite fill_memory_appends; [reflexivity|].
    intros j _. split; reflexivity. }
  rewrite E. split; [apply memory_entries_length|]. split.
  - now destruct chat_history as [|[q a] rest].
  - unfold memory_pairs. rewrite memory_entries_length.
    replace (2 * length chat_history / 2)%nat with (length chat_history)
      by (rewrite Nat.mul_comm; symmetry; apply Nat.div_mul; lia).
    apply (memory_entries_read chat_history 1 []).
    intros j _. split; reflexivity.
Qed.

(** ** What the router returns *)

Section results_rules.
Context {A B : Type}.

Lemma results_ret (Q : A -> Prop) (E : exn -> Prop) (a : A) :
  Q a -> results Q E (ret a).
Proof. intros H s. exact H. Qed.

Lemma results_lift (Q : A -> Prop) (E : exn -> Prop) (r : result A) :
  match r with Ok a => Q a | Raise e => E e end -> results Q E (lift r).
Proof. intros H s. destruct r; [exact H | intros _; exact H]. Qed.

Lemma results_any (m : Py A) : results (fun _ => True) (fun _ => True) m.
Proof. intros s. now destruct (val (m s)). Qed.

Lemma results_weaken (Q Q' : A -> Prop) (E E' : exn -> Prop) (m : Py A) :
  results Q E m -> (forall a, Q a -> Q' a) -> (forall e, E e -> E' e) ->
  results Q' E' m.
Proof.
  intros H HQ HE s. specialize (H s). destruct (val (m s)); auto.
Qed.

Lemma results_bind (R : A -> Prop) (Q : B -> Prop) (E : exn -> Prop)
    (m : Py A) (k : A -> Py B) :
  results R E m -> (forall a, R a -> results Q E (k a)) -> results Q E (bind m k).
Proof.
  intros Hm Hk s. rewrite val_bind, exits_bind. specialize (Hm s).
  destruct (val (m s)) as [a|e]; [apply (Hk a Hm) | exact Hm].
Qed.

Lemma results_try_except (Q : A -> Prop) (E E' : exn -> Prop)
    (m : Py A) (h : exn -> Py A) :
  results Q E' m -> (forall e, E' e -> results Q E (h e)) ->
  results Q E (try_except m h).
Proof.
  intros Hm Hh s. rewrite val_try_except, exits_try_except. specialize (Hm s).
  destruct (val (m s)) as [a|e]; [exact Hm|].
  destruct (exits (m s)); [discriminate|].
  apply (Hh e (Hm eq_refl)).
Qed.

(** A [try] whose handler returns raises nothing that could be caught. *)
Lemma results_try_ret (Q : A -> Prop) (E : exn -> Prop) (m : Py A) (d : exn -> A) :
  results Q (fun _ => True) m -> (forall e, Q (d e)) ->
  results Q E (try_except m (fun e => ret (d e))).
Proof.
  intros Hm Hd. eapply results_try_except; [exact Hm|].
  intros e _. apply results_ret, Hd.
Qed.

End results_rules.

Section exits_rules.
Context {A B : Type}.

Lemma exits_calm (m : Py A) : calm m -> exits_by_eval m.
Proof. intros H s Hx. rewrite (H s) in Hx. discriminate. Qed.

Lemma exits_by_bind (m : Py A) (k : A -> Py B) :
  exits_by_eval m -> (forall a, exits_by_eval (k a)) -> exits_by_eval (bind m k).
Proof.
  intros Hm Hk s Hx. rewrite exits_bind in Hx. rewrite out_bind, val_bind.
  destruct (val (m s)) as [a|e0] eqn:E.
  - destruct (Hk a _ Hx) as (code & answer & e & Hin & He & Hv).
    exists code, answer, e. split; [apply in_or_app; now right | now split].
  - destruct (Hm s Hx) as (code & answer & e & Hin & He & Hv).
    exists code, answer, e. split; [apply in_or_app; now left|].
    split; [exact He | congruence].
Qed.

Lemma exits_by_try (m : Py A) (h : exn -> Py A) :
  exits_by_eval m -> (forall e, exits_by_eval (h e)) ->
  exits_by_eval (try_except m h).
Proof.
  intros Hm Hh s Hx. rewrite exits_try_except in Hx.
  rewrite out_try_except, val_try_except.
  destruct (val (m s)) as [a|e0] eqn:E.
  - destruct (Hm s Hx) as (code & answer & e & _ & _ & Hv). congruence.
  - destruct (exits (m s)) eqn:X.
    + destruct (Hm s X) as (code & answer & e & Hin & He & Hv).
      exists code, answer, e. split; [apply in_or_app; now left|].
      split; [exact He | congruence].
    + destruct (Hh e0 _ Hx) as (code & answer & e & Hin & He & Hv).
      exists code, answer, e. split; [apply in_or_app; now right | now split].
Qed.

End exits_rules.

Lemma exits_by_eval_filter (w : World) (code : string) (data : list nat) :
  exits_by_eval (eval_filter w code data).
Proof.
  intros s. rewrite exits_eval_filter, out_eval_filter, val_eval_filter.
  destruct (eval_ended _) as [v|e|e] eqn:E; try discriminate.
  intros _. eexists _, _, e. split; [now left | now split].
Qed.

(** Splits a goal about the exits of a composite computation. *)
Ltac exits_step :=
  first
    [ solve [apply exits_calm; auto with py]
    | apply exits_by_eval_filter
    | apply exits_by_bind; [|intro]
    | apply exits_by_try; [|intro]
    | match goal with
      | |- exits_by_eval (if ?b then _ else _) => destruct b
      | |- exits_by_eval (match ?x with _ => _ end) => destruct x
      end ].

Lemma retry_loop_calm (w : World) (k : nat) :
  forall uq prev err, calm (retry_loop w k uq prev err).
Proof.
  induction k as [|k IH]; intros uq prev err; simpl.
  - py_auto.
  - unfold generate_sql_query, chat_create, execute_query. py_auto.
Qed.

Lemma handle_user_question_calm (w : World) (q : string) (pm am : pyval)
    (mem : option transcript) (max_retries : nat) :
  calm (handle_user_question w q pm am mem max_retries).
Proof.
  unfold handle_user_question, needs_chat_context, chat_create.
  py_auto; try apply retry_loop_calm.
Qed.

Lemma search_each_calm (w : World) (keys : list string) (q : string) :
  calm (search_each w keys q).
Proof. induction keys as [|k keys IH]; simpl; py_auto. Qed.

Lemma search_property_pdfs_calm (w : World) (q : string) (pm : pyval)
    (mem : option transcript) (max_results : nat) :
  calm (search_property_pdfs w q pm mem max_results).
Proof.
  unfold search_property_pdfs, should_use_chat_history, extract_property_mentions,
    chat_create.
  py_auto; try apply search_each_calm.
Qed.

Lemma generate_natural_answer_calm (w : World) (q : string) (data : pyval) :
  calm (generate_natural_answer w q data).
Proof. unfold generate_natural_answer, chat_create. py_auto. Qed.

Lemma generate_answer_from_context_calm (w : World) (q : string) (context : pyval) :
  calm (generate_answer_from_context w q context).
Proof.
  unfold generate_answer_from_context, extract_requested_count_via_llm, chat_create.
  py_auto.
Qed.

Lemma alloc_all_calm (docs : list pydict) : calm (alloc_all docs).
Proof. induction docs as [|d docs IH]; simpl; unfold alloc; py_auto. Qed.

Lemma generate_feedback_analysis_calm (w : World) (q : string) (data : pydata)
    (mem : option transcript) (focus : string) (n : nat) :
  calm (generate_feedback_analysis w q data mem focus n).
Proof. intros s. apply generate_feedback_analysis_open. Qed.

#[export] Hint Resolve handle_user_question_calm search_property_pdfs_calm
  generate_natural_answer_calm generate_answer_from_context_calm alloc_all_calm
  generate_feedback_analysis_calm : py.

Lemma handle_user_feedback_query_exits (w : World) (q coll : string) (pm am : pyval)
    (mem : option transcript) :
  exits_by_eval (handle_user_feedback_query w q coll pm am mem).
Proof.
  unfold handle_user_feedback_query, get_feedback_data_from_firestore,
    infer_mentions_and_context, classify_query_type, classify_feedback_focus,
    answer_feedback, extract_trait_summary, select_feedback, generate_filter_code,
    chat_create.
  repeat exits_step.
Qed.

Lemma run_query_exits (w : World) (q : string) (mem : option transcript) :
  exits_by_eval (run_query w q mem).
Proof.
  unfold run_query, route_query_with_function_call, dispatch, chat_create.
  repeat first [apply handle_user_feedback_query_exits | exits_step].
Qed.

Lemma handle_routed_query_exits (w : World) (q : string) (mem : option transcript) :
  exits_by_eval (handle_routed_query w q mem).
Proof.
  unfold handle_routed_query, is_general_message, generate_friendly_reply, present,
    chat_create.
  repeat first [apply run_query_exits | exits_step].
Qed.

Lemma results_of_yields {A} (Q : A -> Prop) (m : Py A) :
  yields Q m -> results Q (fun _ => True) m.
Proof.
  intros H s. destruct (val (m s)) as [a|e] eqn:E; [exact (H s a E) | now intros _].
Qed.

Lemma handle_user_question_results (w : World) (q : string) (pm am : pyval)
    (mem : option transcript) (k : nat) (E : exn -> Prop) :
  results is_answer E (handle_user_question w q pm am mem k).
Proof.
  intros s.
  destruct (handle_user_question_open w q pm am mem k s)
    as (uq & t & s' & _ & Hv & _).
  destruct (retry_loop_values w k uq None None s') as [Hval _].
  rewrite Hv.
  destruct Hval as [-> | [-> | [-> | (sql & row & rows & _ & ->)]]].
  - right. left. red. eauto.
  - right. left. red. eauto.
  - now left.
  - right. right. reflexivity.
Qed.

Lemma dispatch_results (w : World) (q : string) (mem : option transcript)
    (destination pm am : pyval) :
  results (fun p => is_answer (fst p)) (fun _ => True)
    (dispatch w q mem destination pm am).
Proof.
  unfold dispatch.
  destruct (dest_is destination "sql").
  { eapply results_bind; [apply results_any|]. intros _ _.
    eapply results_bind; [apply handle_user_question_results|].
    intros result Hr. now apply results_ret. }
  destruct (dest_is destination "firestore").
  { eapply results_bind;
      [apply results_of_yields, handle_user_feedback_query_yields_str|].
    intros result Hr. apply results_ret. right. now left. }
  destruct (dest_is destination "faiss").
  { eapply results_bind; [apply results_any|]. intros result _.
    destruct (dict_mem "error" result || _); [apply results_ret; now left|].
    eapply results_bind; [apply results_any|]. intros answer _.
    apply results_ret. right. left. red. eauto. }
  apply results_ret. right. left. red. eauto.
Qed.

Lemma run_query_results (w : World) (q : string) (mem : option transcript)
    (R : pyval -> Prop) (E : exn -> Prop) :
  (forall answer, R (route_of w answer)) ->
  (forall v key, R v -> match py_get v key with Ok _ => True | Raise e => E e end) ->
  results (fun p => is_answer (fst p)) E (run_query w q mem).
Proof.
  intros HR Hget. unfold run_query.
  eapply results_bind with (R := R).
  { intros s. rewrite route_query_run. apply HR. }
  intros route_info Hri.
  do 3 (eapply results_bind with (R := fun _ => True);
        [apply results_lift; specialize (Hget route_info);
         match goal with
         | |- match py_get _ ?key with _ => _ end => specialize (Hget key Hri)
         end; destruct (py_get route_info _); auto
        | intros ? _]).
  apply results_try_ret; [apply dispatch_results|].
  intros _. right. left. red. eauto.
Qed.

Lemma present_results (w : World) (q : string) (result : pyval) (E : exn -> Prop) :
  (forall rows e, json_dumps w (truncate_rows (PList rows)) = Raise e -> E e) ->
  truthy result = true -> is_answer result ->
  results is_str_value E (present w q result).
Proof.
  intros Hdumps Ht Ha. unfold present. destruct (is_list result) eqn:Hl.
  - eapply results_bind with (R := fun _ => True).
    + unfold generate_natural_answer.
      eapply results_bind with (R := fun _ => True).
      * apply results_lift. destruct result; try discriminate Hl.
        destruct (json_dumps w _) eqn:Hd; [exact I|]. eapply Hdumps. exact Hd.
      * intros dumped _. apply results_try_ret; [apply results_any | auto].
    + intros answer _. apply results_ret. red. eauto.
  - apply results_ret. destruct Ha as [-> | [H | H]]; [discriminate | exact H |].
    congruence.
Qed.

Lemma handle_routed_query_results (w : World) (q : string) (mem : option transcript)
    (R : pyval -> Prop) (E : exn -> Prop) :
  (forall answer, R (route_of w answer)) ->
  (forall v key, R v -> match py_get v key with Ok _ => True | Raise e => E e end) ->
  (forall rows e, json_dumps w (truncate_rows (PList rows)) = Raise e -> E e) ->
  results is_str_value E (handle_routed_query w q mem).
Proof.
  intros HR Hget Hdumps. unfold handle_routed_query.
  eapply results_bind with (R := fun _ => True).
  { unfold is_general_message. apply results_try_ret; [apply results_any | auto]. }
  intros general _. destruct general.
  { eapply results_bind with (R := fun _ => True).
    - unfold generate_friendly_reply.
      apply results_try_ret; [apply results_any | auto].
    - intros reply _. apply results_ret. red. eauto. }
  eapply results_bind; [exact (run_query_results w q mem R E HR Hget)|].
  intros primary Hp.
  destruct (is_hit (fst primary)) eqn:Hhit.
  { apply present_results; [exact Hdumps | | exact Hp].
    unfold is_hit in Hhit. now apply andb_true_iff in Hhit as [H _]. }
  destruct (memory_truthy mem); [|apply results_ret; red; eauto].
  eapply results_bind; [exact (run_query_results w q mem R E HR Hget)|].
  intros fallback Hf.
  destruct (truthy (fst fallback)) eqn:Ht;
    [now apply present_results | apply results_ret; red; eauto].
Qed.

(** What [handle_routed_query] comes to: a text, an exception that its
    caller's [except Exception] catches, or the exit of evaluated code. *)
Lemma handle_routed_query_value (w : World) (q : string) (mem : option transcript)
    (s : State) :
  let r := handle_routed_query w q mem s in
  (exists answer, val r = Ok (PStr answer) /\ exits r = false) \/
  (exists e,
     val r = Raise e /\ exits r = false /\
     ((exists answer,
         ~ is_dict_value (route_of w answer) /\
         e = no_attribute (route_of w answer) "get") \/
      exists rows, json_dumps w (truncate_rows (PList rows)) = Raise e)) \/
  (exists code answer e,
     In (EvEval code answer) (out r) /\ eval_ended answer = Exited e /\
     val r = Raise e /\ exits r = true).
Proof.
  cbv zeta.
  pose proof (handle_routed_query_results w q mem
                (fun v => exists answer, v = route_of w answer)
                (fun e =>
                   (exists answer,
                      ~ is_dict_value (route_of w answer) /\
                      e = no_attribute (route_of w answer) "get") \/
                   exists rows, json_dumps w (truncate_rows (PList rows)) = Raise e))
    as H.
  assert (HR : forall answer, exists answer', route_of w answer = route_of w answer')
    by eauto.
  specialize (H HR). clear HR.
  assert (Hget : forall v key,
            (exists answer, v = route_of w answer) ->
            match py_get v key with
            | Ok _ => True
            | Raise e =>
                (exists answer,
                   ~ is_dict_value (route_of w answer) /\
                   e = no_attribute (route_of w answer) "get") \/
                exists rows, json_dumps w (truncate_rows (PList rows)) = Raise e
            end).
  { intros v key [answer ->].
    destruct (route_of w answer) eqn:Hroute; cbn [py_get]; try exact I;
      left; exists answer; rewrite Hroute;
      (split; [intros [d Hd]; discriminate | reflexivity]). }
  specialize (H Hget (fun rows e Hd => or_intror (ex_intro _ rows Hd)) s).
  pose proof (handle_routed_query_exits w q mem s) as Hx.
  destruct (exits (handle_routed_query w q mem s)) eqn:X.
  - right. right. destruct (Hx eq_refl) as (code & answer & e & Hin & He & Hv).
    exists code, answer, e. auto.
  - destruct (val (handle_routed_query w q mem s)) as [v|e].
    + left. destruct H as [answer ->]. eauto.
    + right. left. exists e. auto.
Qed.

(** X2.  [handle_routed_query] returns a string whenever it returns.  An
    exception that [except Exception] would catch leaves it only as the
    [AttributeError] of [route_info.get], when a routing answer parsed to
    a value that is not an object, or as what [json.dumps] raised on the
    rows handed to [generate_natural_answer], which serialises them outside
    its [try].  Anything else that leaves it is the exit of the generated
    filter code that [eval] ran. *)
Theorem router_returns_text (w : World) (user_question : string)
    (chat_memory_dict : option transcript) (s : State) :
  let r := handle_routed_query w user_question chat_memory_dict s in
  (forall v, val r = Ok v -> is_str_value v) /\
  (forall e,
     val r = Raise e ->
     (exits r = false /\
      ((exists answer,
          ~ is_dict_value (route_of w answer) /\
          e = no_attribute (route_of w answer) "get") \/
       exists rows, json_dumps w (truncate_rows (PList rows)) = Raise e)) \/
     (exits r = true /\
      exists code answer,
        In (EvEval code answer) (out r) /\ eval_ended answer = Exited e)).
Proof.
  cbv zeta.
  destruct (handle_routed_query_value w user_question chat_memory_dict s)
    as [(answer & Hv & Hx) | [(e & Hv & Hx & He) | (code & answer & e & Hin & He & Hv & Hx)]];
    rewrite Hv, Hx; split; try discriminate.
  - intros v [= <-]. red. eauto.
  - intros e' [= <-]. left. now split.
  - intros e' [= <-]. right. split; [reflexivity|]. eauto.
Qed.

(** ** One pass of app.py *)

(** X3.  The page talks to the outside only through the router.  When the
    router returned a text, it is shown and appended to the history together
    with the question.  When the router raised what [except Exception]
    catches, the history is left as it was and the fixed error message is
    shown.  The exit of evaluated code is not caught: it ends the pass. *)
Theorem app_turn_history (w : World) (chat_history : transcript)
    (user_question : string) (s : State) :
  let r := handle_routed_query w user_question (Some chat_history) s in
  let t := app_turn w chat_history user_question s in
  out t = out r /\
  ((exists answer,
      val r = Ok (PStr answer) /\
      val t = Ok (chat_history ++ [(user_question, answer)], answer) /\
      exits t = false) \/
   (exists e,
      val r = Raise e /\ exits r = false /\
      val t = Ok (chat_history, app_error_message) /\ exits t = false) \/
   (exists e,
      val r = Raise e /\ exits r = true /\ val t = Raise e /\ exits t = true)).
Proof.
  cbv zeta. unfold app_turn.
  rewrite out_try_except, val_try_except, exits_try_except, out_bind, val_bind,
    exits_bind.
  destruct (handle_routed_query_value w user_question (Some chat_history) s)
    as [(answer & Hv & Hx) | [(e & Hv & Hx & _) | (code & answer & e & _ & _ & Hv & Hx)]];
    rewrite Hv, ?Hx; cbn; (split; [now rewrite ?app_nil_r|]).
  - left. exists answer. auto.
  - right. left. exists e. auto.
  - right. right. exists e. auto.
Qed.

(** ** The documents kept by the search over all properties *)

Lemma group_mem_in (pid : string) (g : groups) :
  group_mem pid g = true <-> In pid (map fst g).
Proof.
  induction g as [|[k v] g IH]; simpl; [easy|].
  rewrite orb_true_iff, IH. unfold Str.eqb. rewrite String.eqb_eq.
  split; intros [H | H]; auto.
Qed.

Lemma group_append_keys (pid content : string) (g : groups) :
  map fst (group_append pid content g) = map fst g.
Proof.
  induction g as [|[k v] g IH]; simpl; [reflexivity|].
  destruct (Str.eqb pid k); simpl; [reflexivity | now rewrite IH].
Qed.

Lemma group_append_length (pid content : string) (g : groups) :
  length (group_append pid content g) = length g.
Proof. now rewrite <- (length_map fst), group_append_keys, length_map. Qed.

Lemma group_mem_append (pid pid' content : string) (g : groups) :
  group_mem pid (group_append pid' content g) = group_mem pid g.
Proof.
  induction g as [|[k v] g IH]; simpl; [reflexivity|].
  destruct (Str.eqb pid' k); simpl; [reflexivity | now rewrite IH].
Qed.

Lemma group_get_append (pid pid' content : string) (g : groups) :
  group_get pid (group_append pid' content g) =
  if Str.eqb pid pid' && group_mem pid' g
  then group_get pid g ++ [content] else group_get pid g.
Proof.
  induction g as [|[k v] g IH]; simpl.
  - now rewrite andb_false_r.
  - destruct (Str.eqb pid' k) eqn:E'; simpl.
    + apply String.eqb_eq in E' as <-.
      destruct (Str.eqb pid pid'); reflexivity.
    + destruct (Str.eqb pid k) eqn:E; simpl.
      * destruct (Str.eqb pid pid') eqn:E''; [|reflexivity].
        apply String.eqb_eq in E'' as ->. unfold Str.eqb in *. congruence.
      * exact IH.
Qed.

Lemma group_mem_snoc (pid pid' : string) (v : list string) (g : groups) :
  group_mem pid (g ++ [(pid', v)]) = group_mem pid g || Str.eqb pid pid'.
Proof.
  induction g as [|[k v'] g IH]; simpl; [apply orb_false_r|].
  now rewrite IH, orb_assoc.
Qed.

Lemma group_get_snoc (pid pid' : string) (v : list string) (g : groups) :
  group_get pid (g ++ [(pid', v)]) =
  if group_mem pid g then group_get pid g
  else if Str.eqb pid pid' then v else [].
Proof.
  induction g as [|[k v'] g IH]; simpl; [reflexivity|].
  destruct (Str.eqb pid k); simpl; [reflexivity | exact IH].
Qed.

Lemma group_get_absent (pid : string) (g : groups) :
  group_mem pid g = false -> group_get pid g = [].
Proof.
  induction g as [|[k v] g IH]; simpl; [reflexivity|].
  destruct (Str.eqb pid k); simpl; [discriminate | exact IH].
Qed.

Lemma texts_of_snoc (pid pid' content : string) (ranked : list (string * string)) :
  texts_of pid (ranked ++ [(pid', content)]) =
  texts_of pid ranked ++ (if Str.eqb pid pid' then [content] else []).
Proof.
  unfold texts_of. rewrite List.filter_app, map_app. simpl.
  now destruct (Str.eqb pid pid').
Qed.

Lemma texts_of_absent (pid : string) (ranked : list (string * string)) :
  ~ In pid (map fst ranked) -> texts_of pid ranked = [].
Proof.
  unfold texts_of. induction ranked as [|[k c] ranked IH]; simpl; [reflexivity|].
  intros H. destruct (Str.eqb pid k) eqn:E.
  - apply String.eqb_eq in E. subst. tauto.
  - apply IH. tauto.
Qed.

(** The invariant of the loop of [collect_unique]. *)
Lemma collect_unique_invariant (max_results : nat) (all_ranked : list (string * string)) :
  let u := collect_unique max_results all_ranked in
  (length u <= max_results)%nat /\
  NoDup (map fst u) /\
  (forall pid, group_mem pid u = true ->
     group_get pid u = firstn 2 (texts_of pid all_ranked) /\
     group_get pid u <> []) /\
  (forall pid, In pid (map fst all_ranked) -> group_mem pid u = false ->
     length u = max_results).
Proof.
  induction all_ranked as [|[pid' content] ranked IH] using rev_ind.
  - cbn. split; [lia|]. split; [constructor|]. split; [discriminate | tauto].
  - cbv zeta in *. unfold collect_unique in *. rewrite fold_left_app.
    set (u := fold_left _ ranked []) in *.
    destruct IH as (Hlen & Hnd & Hget & Hfull).
    cbn [fold_left].
    destruct (group_mem pid' u) eqn:Hmem; cbn [negb andb].
    + (* a key that is already kept *)
      assert (Hstep : forall pid,
                group_get pid u = firstn 2 (texts_of pid ranked) ->
                (length (group_get pid u) <? 2)%nat = false ->
                group_get pid u =
                  firstn 2 (texts_of pid (ranked ++ [(pid', content)]))).
      { intros pid E Hl. apply Nat.ltb_ge in Hl.
        rewrite texts_of_snoc, E. rewrite E, length_firstn in Hl.
        rewrite firstn_app.
        replace (2 - length (texts_of pid ranked))%nat with 0%nat by lia.
        now rewrite firstn_O, app_nil_r. }
      destruct (length (group_get pid' u) <? 2)%nat eqn:Hl.
      * rewrite group_append_length, group_append_keys.
        split; [exact Hlen|]. split; [exact Hnd|]. split.
        -- intros pid Hp. rewrite group_mem_append in Hp.
           destruct (Hget pid Hp) as [E Hne].
           rewrite group_get_append, Hmem, andb_true_r, texts_of_snoc.
           destruct (Str.eqb pid pid') eqn:Eq.
           ++ apply String.eqb_eq in Eq as ->. split.
              ** apply Nat.ltb_lt in Hl. rewrite E, length_firstn in Hl.
                 rewrite E, firstn_all2 by lia.
                 rewrite firstn_all2; [reflexivity|].
                 rewrite length_app. simpl. lia.
              ** now destruct (group_get pid' u).
           ++ now rewrite app_nil_r.
        -- intros pid Hin Hp. rewrite group_mem_append in Hp.
           rewrite map_app in Hin. apply in_app_or in Hin as [Hin | Hin].
           ++ exact (Hfull pid Hin Hp).
           ++ simpl in Hin. destruct Hin as [<- | []]. congruence.
      * split; [exact Hlen|]. split; [exact Hnd|]. split.
        -- intros pid Hp. destruct (Hget pid Hp) as [E Hne]. split; [|exact Hne].
           destruct (Str.eqb pid pid') eqn:Eq.
           ++ apply String.eqb_eq in Eq as ->. now apply Hstep.
           ++ now rewrite texts_of_snoc, Eq, app_nil_r.
        -- intros pid Hin Hp.
           rewrite map_app in Hin. apply in_app_or in Hin as [Hin | Hin].
           ++ exact (Hfull pid Hin Hp).
           ++ simpl in Hin. destruct Hin as [<- | []]. congruence.
    + destruct (length u <? max_results)%nat eqn:Hroom.
      * (* a new key, and room for it *)
        apply Nat.ltb_lt in Hroom.
        assert (Hnew : ~ In pid' (map fst ranked)).
        { intros Hin. specialize (Hfull pid' Hin Hmem). lia. }
        split; [rewrite length_app; simpl; lia|]. split.
        { rewrite map_app. simpl. apply NoDup_app. split; [exact Hnd|].
          split; [|apply NoDup_singleton].
          intros x Hx Hx'. apply list_elem_of_In in Hx, Hx'.
          destruct Hx' as [<- | []].
          apply group_mem_in in Hx. congruence. }
        split.
        -- intros pid Hp. rewrite group_mem_snoc in Hp.
           rewrite group_get_snoc, texts_of_snoc.
           destruct (group_mem pid u) eqn:Hpu.
           ++ destruct (Hget pid Hpu) as [E Hne]. split; [|exact Hne].
              destruct (Str.eqb pid pid') eqn:Eq.
              ** apply String.eqb_eq in Eq as ->. congruence.
              ** now rewrite app_nil_r.
           ++ simpl in Hp. rewrite Hp.
              apply String.eqb_eq in Hp as ->.
              rewrite (texts_of_absent _ _ Hnew). split; [reflexivity | discriminate].
        -- intros pid Hin Hp. rewrite group_mem_snoc in Hp.
           apply orb_false_iff in Hp as [Hp Hne].
           rewrite map_app in Hin. apply in_app_or in Hin as [Hin | Hin].
           ++ specialize (Hfull pid Hin Hp). lia.
           ++ simpl in Hin. destruct Hin as [<- | []].
              unfold Str.eqb in Hne. now rewrite String.eqb_refl in Hne.
      * apply Nat.ltb_ge in Hroom.
        split; [exact Hlen|]. split; [exact Hnd|]. split.
        -- intros pid Hp. destruct (Hget pid Hp) as [E Hne]. split; [|exact Hne].
           rewrite texts_of_snoc.
           destruct (Str.eqb pid pid') eqn:Eq.
           ++ apply String.eqb_eq in Eq as ->. congruence.
           ++ now rewrite app_nil_r.
        -- intros pid Hin Hp. lia.
Qed.

Lemma group_get_in (pid : string) (contents : list string) (g : groups) :
  NoDup (map fst g) -> In (pid, contents) g -> group_get pid g = contents.
Proof.
  induction g as [|[k v] g IHg]; simpl; [tauto|].
  intros Hnd [Heq | Hin].
  - injection Heq as -> ->. unfold Str.eqb. now rewrite String.eqb_refl.
  - apply NoDup_cons in Hnd as [Hk Hnd].
    destruct (Str.eqb pid k) eqn:Eq; [|now apply IHg].
    apply String.eqb_eq in Eq as ->. exfalso. apply Hk.
    apply list_elem_of_In, in_map_iff. now exists (k, contents).
Qed.

Lemma texts_of_in (pid content : string) (ranked : list (string * string)) :
  In content (texts_of pid ranked) -> In (pid, content) ranked.
Proof.
  unfold texts_of. intros H. apply in_map_iff in H as ([k c] & <- & H).
  apply List.filter_In in H as [H E]. simpl in E.
  now apply String.eqb_eq in E as ->.
Qed.

(** Every text that [collect_unique] keeps comes from the ranking, under
    the same key. *)
Lemma collect_unique_member (max_results : nat) (all_ranked : list (string * string))
    (pid content : string) (contents : list string) :
  In (pid, contents) (collect_unique max_results all_ranked) ->
  In content contents -> In (pid, content) all_ranked.
Proof.
  intros Hin Hc.
  destruct (collect_unique_invariant max_results all_ranked)
    as (_ & Hnd & Hget & _).
  assert (Hmem : group_mem pid (collect_unique max_results all_ranked) = true).
  { apply group_mem_in. apply in_map_iff. now exists (pid, contents). }
  destruct (Hget pid Hmem) as [E _].
  rewrite (group_get_in _ _ _ Hnd Hin) in E. subst contents.
  apply texts_of_in. apply list_elem_of_In in Hc.
  apply list_elem_of_In. eapply subseteq_take, Hc.
Qed.

(** X4.  The loop that collects the results of the search over all
    properties keeps at most [max_results] properties, each once; for a kept
    property it keeps exactly the first two texts of that property in the
    ranking (the only one when there is one); and a property of the ranking
    is left out only when [max_results] others have been kept. *)
Theorem collect_unique_keeps_first (max_results : nat)
    (all_ranked : list (string * string)) :
  let unique_properties := collect_unique max_results all_ranked in
  (length unique_properties <= max_results)%nat /\
  NoDup (map fst unique_properties) /\
  (forall pid contents,
     In (pid, contents) unique_properties ->
     contents = firstn 2 (texts_of pid all_ranked) /\ contents <> []) /\
  (forall pid,
     In pid (map fst all_ranked) -> ~ In pid (map fst unique_properties) ->
     length unique_properties = max_results).
Proof.
  cbv zeta.
  destruct (collect_unique_invariant max_results all_ranked)
    as (Hlen & Hnd & Hget & Hfull).
  split; [exact Hlen|]. split; [exact Hnd|]. split.
  - intros pid contents Hin.
    assert (Hmem : group_mem pid (collect_unique max_results all_ranked) = true).
    { apply group_mem_in. apply in_map_iff. now exists (pid, contents). }
    rewrite <- (group_get_in _ _ _ Hnd Hin). exact (Hget pid Hmem).
  - intros pid Hin Hout. apply (Hfull pid Hin).
    destruct (group_mem pid (collect_unique max_results all_ranked)) eqn:E;
      [|reflexivity].
    apply group_mem_in in E. contradiction.
Qed.

(** ** What the search of the PDFs looks up and returns *)

Lemma search_each_spec (w : World) (keys : list string) (q : string) :
  forall s,
    let r := search_each w keys q s in
    (forall key query answer,
       In (EvSimilaritySearch key query answer) (out r) ->
       In key keys /\ query = q) /\
    (forall found, val r = Ok found ->
       forall key doc, In (key, doc) found ->
         exists results,
           In (EvSimilaritySearch key q (Ok results)) (out r) /\ In doc results) /\
    (forall e, val r = Raise e ->
       exists key, In (EvSimilaritySearch key q (Raise e)) (out r)).
Proof.
  induction keys as [|k keys IH]; intros s; cbv zeta.
  - cbn. split; [tauto|]. split; [|discriminate].
    intros found [= <-] key doc [].
  - cbn [search_each]. rewrite out_bind, val_bind. cbn [external val out st].
    destruct (similarity_search w (clock s) k q) as [results|e].
    + rewrite out_bind_ret, val_bind_ret.
      set (s' := (tick s)).
      destruct (IH s') as (Hk & Hv & He). split; [|split].
      * intros key query answer [H | H].
        -- injection H as <- <- _. split; [now left | reflexivity].
        -- destruct (Hk _ _ _ H) as [Hin ->]. split; [now right | reflexivity].
      * intros found Hf key doc Hin.
        destruct (val (search_each w keys q s')) as [more|e]; [|discriminate].
        injection Hf as <-. apply in_app_or in Hin as [Hin | Hin].
        -- apply in_map_iff in Hin as (d & [= <- <-] & Hd).
           exists results. split; [now left | exact Hd].
        -- destruct (Hv more eq_refl key doc Hin) as (rs & Hev & Hd).
           exists rs. split; [now right | exact Hd].
      * intros e Hr.
        destruct (val (search_each w keys q s')) as [more|e']; [discriminate|].
        injection Hr as ->. destruct (He e eq_refl) as (key & Hev).
        exists key. now right.
    + cbn. split; [|split].
      * intros key query answer [H | []]. injection H as <- <- _.
        split; [now left | reflexivity].
      * discriminate.
      * intros e' [= ->]. exists k. now left.
Qed.

(** [search_property_pdfs] opened: the two chat calls, then the searches
    of some indexes that exist, then a selection among what they found. *)
Lemma search_property_pdfs_open (w : World) (q : string) (pm : pyval)
    (mem : option transcript) (k : nat) (s : State) :
  exists (chats : list event) (keys : list string) (s' : State)
         (select : list (string * string) -> list (string * string)),
    Forall (fun ev => exists messages answer,
                        ev = EvChat ShouldUseChatHistory messages answer \/
                        ev = EvChat ExtractPropertyMentions messages answer)
      chats /\
    (forall key, In key keys -> In key (faiss_index w)) /\
    (forall found pc, In pc (select found) -> In pc found) /\
    out (search_property_pdfs w q pm mem k s) =
      EvSearchPropertyPdfs q pm mem :: chats ++ out (search_each w keys q s') /\
    val (search_property_pdfs w q pm mem k s) =
      match val (search_each w keys q s') with
      | Raise e => Raise e
      | Ok found =>
          Ok (if negb (list_truthy (map snd (select found)))
              then [("error", PStr "No matching documents found.")]
              else [("context", PStr (assemble_context (select found)));
                    ("docs", PList (map PStr (map snd (select found))))])
      end.
Proof.
  unfold search_property_pdfs.
  rewrite out_bind, val_bind. cbn [emit val out st].
  unfold should_use_chat_history. rewrite out_bind, val_bind.
  rewrite try_chat_ret. cbn [val out st].
  unfold extract_property_mentions. cbv zeta. rewrite out_bind, val_bind.
  rewrite try_chat_ret. cbn [val out st].
  match goal with
  | |- context [if list_truthy ?ks then _ else _] => set (valid_keys := ks)
  end.
  match goal with
  | |- context [[_] ++ [EvChat ?s1 ?m1 ?a1] ++ [EvChat ?s2 ?m2 ?a2] ++ _] =>
      exists [EvChat s1 m1 a1; EvChat s2 m2 a2]
  end.
  match goal with
  | |- context [out (bind _ _ ?s0)] => set (s' := s0)
  end.
  destruct (list_truthy valid_keys).
  - exists (List.filter (fun key => existsb (Str.eqb key) (faiss_index w))
              valid_keys), s', (fun found => found).
    split; [repeat constructor; eauto|]. split.
    { intros key Hin. apply List.filter_In in Hin as [_ Hin].
      apply existsb_exists in Hin as (x & Hx & E).
      now apply String.eqb_eq in E as ->. }
    split; [auto|].
    rewrite out_bind, val_bind.
    destruct (val (search_each w _ q s')) as [found|e]; cbn [ret val out].
    + destruct (list_truthy (map snd found)); cbn [negb ret val out];
        rewrite app_nil_r; split; reflexivity.
    + rewrite app_nil_r. split; reflexivity.
  - exists (faiss_index w), s',
      (fun all_ranked =>
         flat_map (fun pc => map (fun c => (fst pc, c)) (snd pc))
           (collect_unique k all_ranked)).
    split; [repeat constructor; eauto|]. split; [auto|]. split.
    { intros found [pid c] Hin.
      apply in_flat_map in Hin as ([pid' cs] & Hg & Hin).
      apply in_map_iff in Hin as (c' & [= <- <-] & Hc).
      exact (collect_unique_member k found pid' c' cs Hg Hc). }
    rewrite out_bind, val_bind, ?out_bind_ret, ?val_bind_ret, ?val_bind.
    destruct (val (search_each w _ q s')) as [found|e]; cbn [ret val out].
    + destruct (list_truthy (map snd _)); cbn [negb ret val out];
        rewrite app_nil_r; split; reflexivity.
    + rewrite app_nil_r. split; reflexivity.
Qed.

(** X5.  [search_property_pdfs] searches only indexes that exist, and with
    the user's question.  It returns either the error dict or a context
    with a non-empty list of documents, each of which was found by one of
    its searches; and it raises only what a search raised. *)
Theorem search_property_pdfs_result (w : World) (user_question : string)
    (property_mention : pyval) (chat_memory_dict : option transcript)
    (max_results : nat) (s : State) :
  let r := search_property_pdfs w user_question property_mention chat_memory_dict
             max_results s in
  (forall key query answer,
     In (EvSimilaritySearch key query answer) (out r) ->
     In key (faiss_index w) /\ query = user_question) /\
  (forall d, val r = Ok d ->
     d = [("error", PStr "No matching documents found.")] \/
     exists context docs,
       d = [("context", PStr context); ("docs", PList (map PStr docs))] /\
       docs <> [] /\
       forall doc, In doc docs ->
         exists key results,
           In (EvSimilaritySearch key user_question (Ok results)) (out r) /\
           In doc results) /\
  (forall e, val r = Raise e ->
     exists key, In (EvSimilaritySearch key user_question (Raise e)) (out r)).
Proof.
  cbv zeta.
  destruct (search_property_pdfs_open w user_question property_mention
              chat_memory_dict max_results s)
    as (chats & keys & s' & select & Hchats & Hkeys & Hsel & Ho & Hv).
  destruct (search_each_spec w keys user_question s') as (Hk & Hf & He).
  rewrite Ho, Hv.
  assert (Hlater : forall ev,
            In ev (out (search_each w keys user_question s')) ->
            In ev (EvSearchPropertyPdfs user_question property_mention
                     chat_memory_dict
                   :: chats ++ out (search_each w keys user_question s'))).
  { intros ev H. right. apply in_or_app. now right. }
  split; [|split].
  - intros key query answer [H | H]; [discriminate|].
    apply in_app_or in H as [H | H].
    + rewrite Forall_forall in Hchats.
      apply list_elem_of_In, Hchats in H as (m & a & [H | H]); discriminate.
    + destruct (Hk _ _ _ H) as [Hin ->]. split; [now apply Hkeys | reflexivity].
  - intros d Hd.
    destruct (val (search_each w keys user_question s')) as [found|e];
      [|discriminate].
    injection Hd as <-.
    destruct (map snd (select found)) as [|doc0 docs] eqn:Hdocs;
      cbn [list_truthy negb]; [now left|].
    right. exists (assemble_context (select found)), (doc0 :: docs).
    split; [reflexivity|]. split; [discriminate|].
    intros doc Hin. rewrite <- Hdocs in Hin.
    apply in_map_iff in Hin as ([key c] & <- & Hin).
    destruct (Hf found eq_refl key c (Hsel found _ Hin)) as (results & Hev & Hc).
    exists key, results. split; [now apply Hlater | exact Hc].
  - intros e Hr.
    destruct (val (search_each w keys user_question s')) as [found|e'];
      [discriminate|].
    injection Hr as ->. destruct (He e eq_refl) as (key & Hev).
    exists key. now apply Hlater.
Qed.

(** ** The number of properties asked for *)

Lemma digits_value_nonneg (s : string) (acc : Z) :
  0 <= acc -> 0 <= Str.digits_value acc s.
Proof.
  revert acc. induction s as [|a s IH]; intros acc H; simpl; [exact H|].
  apply IH. lia.
Qed.

Lemma int_of_first_run (s d : string) (ds : list string) :
  Str.digit_runs s = d :: ds ->
  int_of_str d =
    if (max_str_digits <? String.length d)%nat
    then Raise (too_many_digits (String.length d))
    else Ok (Str.digits_value 0 d).
Proof.
  intros E.
  pose proof (runs_are_digit_strings s _ (digit_runs_are_the_runs s)) as H.
  rewrite E in H. apply Forall_cons in H as [[Hd Hne] _].
  rewrite <- (int_of_digit_run d Hd Hne). unfold Str.strip.
  now rewrite (lstrip_digits d Hd), (rstrip_digits d Hd).
Qed.

(** X6.  [extract_requested_count_via_llm] never raises.  When the model
    answers with a text that holds a number, the count is the value of the
    first run of digits of that text, which is not negative, unless that
    run has more than 4300 digits: then [int()] refuses it, inside the
    [try], and the count is [default], as it is when the text holds no
    number and when the call fails. *)
Theorem requested_count_is_first_number (w : World) (user_question : string)
    (default : Z) (s : State) :
  let messages := [Msg System (prompt w ExtractRequestedCount []);
                   Msg User user_question] in
  exists n,
    val (extract_requested_count_via_llm w user_question default s) = Ok n /\
    match chat w (clock s) ExtractRequestedCount messages with
    | Ok content =>
        match Str.digit_runs (Str.strip content) with
        | d :: _ =>
            if (max_str_digits <? String.length d)%nat then n = default
            else n = Str.digits_value 0 d /\ 0 <= n
        | [] => n = default
        end
    | Raise _ => n = default
    end.
Proof.
  cbv zeta.
  unfold extract_requested_count_via_llm, try_except, bind, chat_create, external.
  cbn [val out st exits].
  destruct (chat w (clock s) ExtractRequestedCount _) as [content|e];
    cbn [val out st exits]; [|eauto].
  destruct (Str.digit_runs (Str.strip content)) as [|d ds] eqn:E;
    cbn [ret val]; [eauto|].
  rewrite (int_of_first_run _ _ _ E).
  destruct (max_str_digits <? String.length d)%nat; cbn [lift raise ret val exits];
    [eauto|].
  eexists. split; [reflexivity|]. split; [reflexivity|].
  now apply digits_value_nonneg.
Qed.

(** ** Which indexes are searched *)

Lemma take_all_digits (d : string) :
  Str.all_digits d = true -> Str.take_digits d = (d, EmptyString).
Proof.
  induction d as [|a d IH]; simpl; [reflexivity|]. intros H.
  apply andb_true_iff in H as [Ha Hd]. now rewrite Ha, (IH Hd).
Qed.

Lemma digit_run_no_id (d : string) :
  Str.all_digits d = true -> Str.drop_prefix "id" d = None.
Proof.
  destruct d as [|a d]; [reflexivity|]. cbn [Str.all_digits]. intros H.
  apply andb_true_iff in H as [Ha _].
  change (Str.drop_prefix "id" (String a d))
    with (if Ascii.eqb "i" a then Str.drop_prefix "d" d else None).
  destruct (Ascii.eqb_spec "i" a) as [<- | _]; [discriminate | reflexivity].
Qed.

Lemma match_property_mention (d : string) :
  Str.all_digits d = true -> d <> EmptyString ->
  Str.match_property ("property " +:+ d) = Some (d, EmptyString).
Proof.
  intros Hd Hne. unfold Str.match_property.
  replace (Str.drop_prefix "property" ("property " +:+ d))
    with (Some (String " " d)) by reflexivity.
  cbv zeta.
  replace (Str.lstrip (String " " d)) with (Str.lstrip d) by reflexivity.
  rewrite (lstrip_digits d Hd), (digit_run_no_id d Hd), (lstrip_digits d Hd),
    (take_all_digits d Hd).
  destruct d; [contradiction | reflexivity].
Qed.

(** [re.search] finds in a cleaned mention the number it was built from. *)
Lemma findall_property_mention (d : string) :
  Str.all_digits d = true -> d <> EmptyString ->
  exists more, Str.findall_property ("property " +:+ d) = d :: more.
Proof.
  intros Hd Hne. unfold Str.findall_property.
  pose proof (match_property_mention d Hd Hne) as E.
  change ("property " +:+ d) with (String "p" ("roperty " +:+ d)) in *.
  cbn [Str.findall_property_aux]. rewrite E. eauto.
Qed.

Lemma match_property_digits (s d rest : string) :
  Str.match_property s = Some (d, rest) ->
  Str.all_digits d = true /\ d <> EmptyString.
Proof.
  unfold Str.match_property.
  destruct (Str.drop_prefix "property" s) as [r1|]; [|discriminate]. cbv zeta.
  match goal with
  | |- context [Str.take_digits ?x] =>
      destruct (take_digits_spec x) as (_ & H & _); destruct (Str.take_digits x) as [d' r]
  end.
  simpl in H. destruct d'; [discriminate|].
  intros [= <- <-]. split; [exact H | discriminate].
Qed.

Lemma findall_property_digits (s : string) :
  Forall (fun d => Str.all_digits d = true /\ d <> EmptyString)
    (Str.findall_property s).
Proof.
  unfold Str.findall_property. generalize 0%nat.
  induction s as [|a s IH]; intros skip; cbn [Str.findall_property_aux];
    [constructor|].
  destruct skip; [|apply IH].
  destruct (Str.match_property (String a s)) as [[d rest]|] eqn:E; [|apply IH].
  constructor; [exact (match_property_digits _ _ _ E) | apply IH].
Qed.

(** The keys read off the cleaned mentions are those of the numbers. *)
Lemma valid_keys_of_mentions (ids : list string) :
  Forall (fun d => Str.all_digits d = true /\ d <> EmptyString) ids ->
  omap (fun mention =>
          match Str.findall_property mention with
          | d :: _ => Some ("Property_ID_" +:+ d)
          | [] => None
          end)
    (map (fun m => "property " +:+ m) ids) =
  map (fun d => "Property_ID_" +:+ d) ids.
Proof.
  induction 1 as [|d ids [Hd Hne] _ IH]; [reflexivity|].
  simpl. destruct (findall_property_mention d Hd Hne) as [more ->].
  simpl. f_equal. exact IH.
Qed.

Lemma search_each_keys (w : World) (keys : list string) (q : string) :
  forall s,
    let r := search_each w keys q s in
    (exists later, keys = searched (out r) ++ later) /\
    length (searched (out r)) = length (out r) /\
    (forall found, val r = Ok found -> searched (out r) = keys).
Proof.
  induction keys as [|k keys IH]; intros s; cbv zeta.
  - cbn. split; [now exists []|]. split; reflexivity.
  - cbn [search_each]. rewrite out_bind, val_bind. cbn [external val out st].
    destruct (similarity_search w (clock s) k q) as [results|e].
    + rewrite out_bind_ret, val_bind_ret.
      set (s' := (tick s)).
      destruct (IH s') as ((later & Hl) & Hlen & Hv). cbn [app searched length].
      split; [|split].
      * exists later. cbn [app]. now rewrite <- Hl.
      * now rewrite Hlen.
      * intros found Hf.
        destruct (val (search_each w keys q s')) as [more|e] eqn:E; [|discriminate].
        now rewrite (Hv more eq_refl).
    + cbn. split; [now exists keys|]. split; [reflexivity | discriminate].
Qed.

Lemma mentioned_ids_digits (answer : result string) :
  Forall (fun d => Str.all_digits d = true /\ d <> EmptyString)
    (mentioned_ids answer).
Proof.
  destruct answer; [apply findall_property_digits | constructor].
Qed.

Lemma valid_keys_of_answer (ids : list string) (no_explicit : bool) :
  Forall (fun d => Str.all_digits d = true /\ d <> EmptyString) ids ->
  omap (fun mention =>
          match Str.findall_property mention with
          | d :: _ => Some ("Property_ID_" +:+ d)
          | [] => None
          end)
    (if negb (list_truthy (map (fun m => "property " +:+ m) ids)) && no_explicit
     then [] else map (fun m => "property " +:+ m) ids) =
  map (fun d => "Property_ID_" +:+ d) ids.
Proof.
  intros H. destruct ids as [|d ids].
  - now destruct no_explicit.
  - cbn [map list_truthy negb andb]. now apply (valid_keys_of_mentions (d :: ids)).
Qed.

(** [search_property_pdfs] up to its searches. *)
Lemma search_property_pdfs_searches (w : World) (q : string) (pm : pyval)
    (mem : option transcript) (k : nat) (s : State) :
  exists m1 a1 m2 a2 s',
    out (search_property_pdfs w q pm mem k s) =
      EvSearchPropertyPdfs q pm mem :: EvChat ShouldUseChatHistory m1 a1
        :: EvChat ExtractPropertyMentions m2 a2
        :: out (search_each w (search_keys w (mentioned_ids a2)) q s') /\
    (forall d, val (search_property_pdfs w q pm mem k s) = Ok d ->
       exists found,
         val (search_each w (search_keys w (mentioned_ids a2)) q s') = Ok found).
Proof.
  unfold search_property_pdfs.
  rewrite out_bind, val_bind. cbn [emit val out st].
  unfold should_use_chat_history. rewrite out_bind, val_bind.
  rewrite try_chat_ret. cbn [val out st].
  unfold extract_property_mentions. cbv zeta. rewrite out_bind, val_bind.
  rewrite try_chat_ret. cbn [val out st].
  match goal with
  | |- context [[_] ++ [EvChat _ ?m1 ?a1] ++ [EvChat _ ?m2 ?a2] ++ _] =>
      exists m1, a1, m2; set (answer := a2); exists answer
  end.
  match goal with
  | |- context [negb (list_truthy ?M) && _] =>
      replace M with (map (fun m => "property " +:+ m) (mentioned_ids answer))
        by (now destruct answer)
  end.
  rewrite valid_keys_of_answer by apply mentioned_ids_digits.
  match goal with
  | |- context [out (bind _ _ ?s0)] => exists s0
  end.
  rewrite out_bind, val_bind.
  destruct (mentioned_ids answer) as [|d ids]; cbn [map list_truthy search_keys].
  - rewrite out_bind_ret, val_bind_ret.
    destruct (val (search_each w (faiss_index w) q _)) as [found|e];
      cbn [ret val out].
    + destruct (list_truthy (map snd _)); cbn [negb ret val out]; rewrite app_nil_r;
        (split; [reflexivity | eauto]).
    + rewrite app_nil_r. split; [reflexivity | discriminate].
  - destruct (val (search_each w _ q _)) as [found|e]; cbn [ret val out].
    + destruct (list_truthy (map snd found)); cbn [negb ret val out];
        rewrite app_nil_r; (split; [reflexivity | eauto]).
    + rewrite app_nil_r. split; [reflexivity | discriminate].
Qed.

(** X7.  After its two chat calls [search_property_pdfs] only searches.
    When the extraction names property numbers, it searches the indexes
    [Property_ID_<number>] of those numbers that exist, in the order of the
    answer; when it names none, or fails, it searches all the indexes, whatever
    the question itself mentions.  The searches stop at the first that
    raises, and all of them have been made when a value is returned. *)
Theorem search_is_targeted (w : World) (user_question : string)
    (property_mention : pyval) (chat_memory_dict : option transcript)
    (max_results : nat) (s : State) :
  let r := search_property_pdfs w user_question property_mention chat_memory_dict
             max_results s in
  exists m1 a1 m2 a2 searches,
    out r = EvSearchPropertyPdfs user_question property_mention chat_memory_dict
              :: EvChat ShouldUseChatHistory m1 a1
              :: EvChat ExtractPropertyMentions m2 a2 :: searches /\
    Forall (fun d => Str.all_digits d = true /\ d <> EmptyString)
      (mentioned_ids a2) /\
    length (searched searches) = length searches /\
    (exists later, search_keys w (mentioned_ids a2) = searched searches ++ later) /\
    (forall d, val r = Ok d ->
       searched searches = search_keys w (mentioned_ids a2)).
Proof.
  cbv zeta.
  destruct (search_property_pdfs_searches w user_question property_mention
              chat_memory_dict max_results s)
    as (m1 & a1 & m2 & a2 & s' & Ho & Hv).
  destruct (search_each_keys w (search_keys w (mentioned_ids a2)) user_question s')
    as (Hpre & Hlen & Hall).
  exists m1, a1, m2, a2, (out (search_each w (search_keys w (mentioned_ids a2))
                                 user_question s')).
  split; [exact Ho|]. split; [apply mentioned_ids_digits|].
  split; [exact Hlen|]. split; [exact Hpre|].
  intros d Hd. destruct (Hv d Hd) as [found Hf]. exact (Hall found Hf).
Qed.

(** ** The context assembled from the documents *)

Lemma grouped_invariant (doc_sources : list (string * string)) :
  let grouped :=
    fold_left (fun g pc => group_setdefault_append (fst pc) (snd pc) g)
      doc_sources [] in
  NoDup (map fst grouped) /\
  (forall pid, group_mem pid grouped = true <-> In pid (map fst doc_sources)) /\
  (forall pid, group_get pid grouped = texts_of pid doc_sources).
Proof.
  induction doc_sources as [|[pid' content] ds IH] using rev_ind; cbv zeta.
  - cbn. split; [constructor|]. split; [|reflexivity].
    intros pid. split; [discriminate | tauto].
  - cbv zeta in IH. rewrite fold_left_app.
    set (g := fold_left _ ds []) in *.
    destruct IH as (Hnd & Hmem & Hget).
    cbn [fold_left fst snd]. unfold group_setdefault_append.
    destruct (group_mem pid' g) eqn:Hin.
    + rewrite group_append_keys. split; [exact Hnd|]. split.
      * intros pid. rewrite group_mem_append, Hmem, map_app, in_app_iff.
        split; [tauto|]. intros [H | [<- | []]]; [exact H|]. now apply Hmem.
      * intros pid. rewrite group_get_append, Hin, andb_true_r, texts_of_snoc, Hget.
        destruct (Str.eqb pid pid'); [reflexivity | now rewrite app_nil_r].
    + split.
      { rewrite map_app. simpl. apply NoDup_app. split; [exact Hnd|].
        split; [|apply NoDup_singleton].
        intros x Hx Hx'. apply list_elem_of_In in Hx, Hx'.
        destruct Hx' as [<- | []]. apply group_mem_in in Hx. congruence. }
      split.
      * intros pid. rewrite group_mem_snoc, orb_true_iff, Hmem, map_app, in_app_iff.
        unfold Str.eqb. rewrite String.eqb_eq. simpl. intuition congruence.
      * intros pid. rewrite group_get_snoc, texts_of_snoc, <- Hget.
        destruct (group_mem pid g) eqn:Hp.
        -- destruct (Str.eqb pid pid') eqn:E; [|now rewrite app_nil_r].
           apply String.eqb_eq in E as ->. congruence.
        -- now rewrite (group_get_absent pid g Hp).
Qed.

(** X8.  The context of the answer has one block for each property that
    has a document, and the block of a property holds the first two of the
    texts found for it, in the order in which they were found. *)
Theorem context_has_a_block_per_property (doc_sources : list (string * string)) :
  exists blocks : groups,
    assemble_context doc_sources =
      Str.strip
        (String.concat ""
           (map (fun pc =>
                   Str.newline +:+ "PROPERTY " +:+ fst pc +:+ ":" +:+ Str.newline +:+
                   Str.join Str.newline (snd pc) +:+ Str.newline)
              blocks)) /\
    NoDup (map fst blocks) /\
    (forall pid, In pid (map fst blocks) <-> In pid (map fst doc_sources)) /\
    (forall pid texts,
       In (pid, texts) blocks -> texts = firstn 2 (texts_of pid doc_sources)).
Proof.
  destruct (grouped_invariant doc_sources) as (Hnd & Hmem & Hget).
  cbv zeta in Hnd, Hmem, Hget.
  set (grouped := fold_left _ doc_sources []) in *.
  exists (map (fun pc => (fst pc, slice_to 2 (snd pc))) grouped).
  assert (Hkeys : map fst (map (fun pc : string * list string =>
                                  (fst pc, slice_to 2 (snd pc))) grouped) =
                  map fst grouped).
  { rewrite map_map. now apply map_ext. }
  split; [|split; [|split]].
  - unfold assemble_context. fold grouped. now rewrite map_map.
  - now rewrite Hkeys.
  - intros pid. now rewrite Hkeys, <- Hmem, group_mem_in.
  - intros pid texts Hin. apply in_map_iff in Hin as ([k v] & [= -> <-] & Hin).
    rewrite <- Hget, (group_get_in _ _ _ Hnd Hin). reflexivity.
Qed.

(** ** The feedback handler *)

(** X9.  The two classifiers of the feedback handler never raise and
    answer within their labels, whatever the model says: the query type is
    [analysis] or [filter], the focus is [property], [agent] or [both]. *)
Theorem classifiers_answer_with_a_label (w : World) (user_question : string)
    (s : State) :
  (val (classify_query_type w user_question s) = Ok "analysis" \/
   val (classify_query_type w user_question s) = Ok "filter") /\
  (val (classify_feedback_focus w user_question s) = Ok "property" \/
   val (classify_feedback_focus w user_question s) = Ok "agent" \/
   val (classify_feedback_focus w user_question s) = Ok "both").
Proof.
  unfold classify_query_type, classify_feedback_focus. cbv zeta.
  rewrite !try_chat_ret. cbn [val]. split.
  - destruct (chat w (clock s) ClassifyQueryType _) as [content|e]; [|now right].
    destruct (Str.eqb (Str.lower (Str.strip content)) "analysis") eqn:E1.
    { apply String.eqb_eq in E1. rewrite E1. now left. }
    destruct (Str.eqb (Str.lower (Str.strip content)) "filter") eqn:E2.
    { apply String.eqb_eq in E2. rewrite E2. now right. }
    now right.
  - destruct (chat w (clock s) ClassifyFeedbackFocus _) as [content|e];
      [|now right; right].
    destruct (Str.eqb (Str.lower (Str.strip content)) "property") eqn:E1.
    { apply String.eqb_eq in E1. rewrite E1. now left. }
    destruct (Str.eqb (Str.lower (Str.strip content)) "agent") eqn:E2.
    { apply String.eqb_eq in E2. rewrite E2. right. now left. }
    destruct (Str.eqb (Str.lower (Str.strip content)) "both") eqn:E3.
    { apply String.eqb_eq in E3. rewrite E3. right. now right. }
    right. now right.
Qed.

Lemma alloc_all_returns (ds : list pydict) (s : State) :
  exists refs, val (alloc_all ds s) = Ok refs.
Proof.
  revert s. induction ds as [|d ds IH]; intros s; [cbn; eauto|].
  cbn [alloc_all]. rewrite val_bind. unfold alloc at 1.
  cbn [bind get_store put_store ret val out st].
  rewrite val_bind_ret.
  match goal with
  | |- context [alloc_all ds ?s'] => destruct (IH s') as [refs ->]
  end.
  eauto.
Qed.

Lemma alloc_all_length (ds : list pydict) (s : State) (refs : list nat) :
  val (alloc_all ds s) = Ok refs -> length refs = length ds.
Proof.
  revert s refs. induction ds as [|d ds IH]; intros s refs.
  - cbn. now intros [= <-].
  - cbn [alloc_all]. rewrite val_bind. unfold alloc at 1.
    cbn [bind get_store put_store ret val out st].
    rewrite val_bind_ret.
    match goal with
    | |- context [alloc_all ds ?s'] =>
        destruct (val (alloc_all ds s')) as [ls|e] eqn:E; [|discriminate];
        apply IH in E
    end.
    intros [= <-]. cbn. now rewrite E.
Qed.

Lemma get_feedback_data_value (w : World) (coll : string) (s : State) :
  match firestore_stream w (clock s) coll with
  | Ok docs =>
      exists data,
        val (get_feedback_data_from_firestore w coll s) = Ok data /\
        length data = length docs
  | Raise e => val (get_feedback_data_from_firestore w coll s) = Raise e
  end.
Proof.
  unfold get_feedback_data_from_firestore. rewrite val_bind.
  cbn [external val out st].
  destruct (firestore_stream w (clock s) coll) as [docs|e]; [|reflexivity].
  match goal with
  | |- context [alloc_all docs ?s'] =>
      destruct (alloc_all_returns docs s') as [data Hd]; rewrite Hd;
      pose proof (alloc_all_length docs s' data Hd) as Hlen
  end.
  eauto.
Qed.

(** What stops the handler between the inference of the mentions and the
    classifiers. *)
Lemma ids_of_raise (pm am mentions : pyval) (e : exn) :
  ids_of pm am mentions = Raise e ->
  e = no_attribute mentions "get" \/ exists raw, normalize_ids raw = Raise e.
Proof.
  unfold ids_of, resolve_mention.
  assert (Hget : forall key e', py_get mentions key = Raise e' ->
                                e' = no_attribute mentions "get").
  { intros key e'. destruct mentions; cbn [py_get]; try discriminate;
      now intros [= <-]. }
  destruct (truthy pm).
  - destruct (truthy am).
    + destruct (normalize_ids pm) eqn:Ep; [|intros [= <-]; eauto].
      destruct (normalize_ids am) eqn:Ea; [discriminate | intros [= <-]; eauto].
    + destruct (py_get mentions "agent_id") as [a|e'] eqn:Eg;
        [|intros [= <-]; left; eapply Hget; eassumption].
      destruct (normalize_ids pm) eqn:Ep; [|intros [= <-]; eauto].
      destruct (normalize_ids a) eqn:Ea; [discriminate | intros [= <-]; eauto].
  - destruct (py_get mentions "property_id") as [p|e'] eqn:Eg;
      [|intros [= <-]; left; eapply Hget; eassumption].
    destruct (if truthy am then Ok am else py_get mentions "agent_id")
      as [a|e'] eqn:Ea'.
    + destruct (normalize_ids p) eqn:Ep; [|intros [= <-]; eauto].
      destruct (normalize_ids a) eqn:Ea; [discriminate | intros [= <-]; eauto].
    + intros [= <-]. left. destruct (truthy am); [discriminate|].
      eapply Hget; eassumption.
Qed.

(** The handler after it has read a collection that is not empty. *)
Lemma feedback_query_after_read (w : World) (q coll : string) (pm am : pyval)
    (mem : option transcript) (s : State) :
  let r := handle_user_feedback_query w q coll pm am mem s in
  let entry := EvHandleUserFeedbackQuery q coll pm am mem in
  match firestore_stream w (clock s) coll with
  | Raise e =>
      out r = [entry; EvFirestoreStream coll (Raise e)] /\ val r = Raise e /\
      exits r = false
  | Ok [] =>
      out r = [entry; EvFirestoreStream coll (Ok [])] /\
      val r = Ok (PStr "The feedback dataset is empty.") /\ exits r = false
  | Ok docs =>
      exists answer rest,
        out r = entry :: EvFirestoreStream coll (Ok docs)
                :: EvChat InferMentions (mention_messages w q mem) answer :: rest /\
        match ids_of pm am (mentions_of w answer) with
        | Raise e => rest = [] /\ val r = Raise e /\ exits r = false
        | Ok ids =>
            (forall e, val r = Raise e -> exits r = true) /\
            Exists (fun ev => exists messages reply,
                      ev = EvChat ClassifyQueryType messages reply) rest
        end
  end.
Proof.
  cbv zeta. unfold handle_user_feedback_query.
  rewrite out_bind, val_bind, exits_bind. cbn [emit val out st exits app].
  rewrite out_bind, val_bind, exits_bind.
  destruct (get_feedback_data_run w coll s) as [Ho Hraise]. rewrite Ho.
  pose proof (get_feedback_data_value w coll s) as Hv.
  assert (Hx : exits (get_feedback_data_from_firestore w coll s) = false).
  { assert (H : calm (get_feedback_data_from_firestore w coll))
      by (unfold get_feedback_data_from_firestore; py_auto).
    apply H. }
  destruct (firestore_stream w (clock s) coll) as [docs|e].
  2:{ rewrite Hv. cbn [app]. auto. }
  destruct Hv as (data & Hd & Hlen). rewrite Hd.
  destruct docs as [|d docs].
  { destruct data; [|discriminate Hlen]. cbn. auto. }
  destruct data as [|l data]; [discriminate Hlen|].
  cbn [list_truthy negb].
  set (s1 := st (get_feedback_data_from_firestore w coll s)).
  rewrite out_bind, val_bind, exits_bind, infer_mentions_run.
  cbn [val out st exits app].
  set (answer := chat w (clock s1) InferMentions (mention_messages w q mem)).
  exists answer. eexists. split; [reflexivity|].
  unfold ids_of.
  rewrite out_bind, val_bind, exits_bind.
  destruct (resolve_mention pm (mentions_of w answer) "property_id") as [p|e];
    [|cbn; auto].
  cbn [lift ret val out st exits app].
  rewrite out_bind, val_bind, exits_bind.
  destruct (resolve_mention am (mentions_of w answer) "agent_id") as [a|e];
    [|cbn; auto].
  cbn [lift ret val out st exits app].
  rewrite out_bind, val_bind, exits_bind.
  destruct (normalize_ids p) as [prop_ids|e]; [|cbn; auto].
  cbn [lift ret val out st exits app].
  rewrite out_bind, val_bind, exits_bind.
  destruct (normalize_ids a) as [agent_ids|e]; [|cbn; auto].
  cbn [lift ret val out st exits app].
  split.
  - intros e.
    match goal with
    | |- val (?m ?s') = _ -> _ =>
        assert (Hr : results (fun _ => True) (fun _ => False) m)
    end.
    { eapply results_bind with (R := fun _ => True).
      { unfold classify_query_type.
        apply results_try_ret; [apply results_any | auto]. }
      intros query_type _.
      eapply results_bind with (R := fun _ => True).
      { unfold classify_feedback_focus.
        apply results_try_ret; [apply results_any | auto]. }
      intros feedback_focus _.
      apply results_try_ret; [apply results_any | auto]. }
    intros He. specialize (Hr (tick s1)). rewrite He in Hr.
    match goal with
    | |- ?x = true => destruct x; [reflexivity | exfalso; now apply Hr]
    end.
  - rewrite out_bind. apply Exists_app. left.
    unfold classify_query_type. rewrite try_chat_ret. cbn [out].
    apply Exists_cons_hd. eauto.
Qed.

(** X10.  An exception that [except Exception] would catch leaves
    [handle_user_feedback_query] only from what comes before its
    classifiers and its [try]: from the read of the collection, after which
    nothing else has been called, or, once the mentions have been inferred
    and before anything else is called, from the computation of the ids,
    that is from [mentions.get] on inferred mentions that are not an object
    or from [int()] in the normalisation; no classifier has been called. *)
Theorem feedback_handler_escapes (w : World) (user_question collection_name : string)
    (property_mention agent_mention : pyval) (chat_memory_dict : option transcript)
    (s : State) (e : exn) :
  let r := handle_user_feedback_query w user_question collection_name
             property_mention agent_mention chat_memory_dict s in
  let entry := EvHandleUserFeedbackQuery user_question collection_name
                 property_mention agent_mention chat_memory_dict in
  val r = Raise e ->
  exits r = false ->
  (firestore_stream w (clock s) collection_name = Raise e /\
   out r = [entry; EvFirestoreStream collection_name (Raise e)]) \/
  (exists docs answer,
     firestore_stream w (clock s) collection_name = Ok docs /\
     out r = [entry; EvFirestoreStream collection_name (Ok docs);
              EvChat InferMentions
                (mention_messages w user_question chat_memory_dict) answer] /\
     ids_of property_mention agent_mention (mentions_of w answer) = Raise e /\
     (e = no_attribute (mentions_of w answer) "get" \/
      exists raw, normalize_ids raw = Raise e)).
Proof.
  cbv zeta. intros Hv Hx.
  pose proof (feedback_query_after_read w user_question collection_name
                property_mention agent_mention chat_memory_dict s) as H.
  cbv zeta in H.
  destruct (firestore_stream w (clock s) collection_name) as [[|d docs]|e'].
  - destruct H as (_ & H & _). congruence.
  - destruct H as (answer & rest & Ho & H).
    destruct (ids_of property_mention agent_mention (mentions_of w answer))
      as [ids|e'] eqn:Eids.
    + destruct H as [H _]. specialize (H e Hv). congruence.
    + destruct H as (-> & Hv' & _).
      assert (e' = e) as -> by congruence.
      right. exists (d :: docs), answer. split; [reflexivity|].
      split; [exact Ho|]. split; [exact Eids|].
      eapply ids_of_raise. exact Eids.
  - destruct H as (Ho & Hv' & _). left.
    assert (e' = e) as -> by congruence. now split.
Qed.

Lemma feedback_handler_escapes_witness :
  let w := with_firestore offline_world
             (fun _ _ => Ok [feedback_record 1 3 "bright rooms" "answered late"]) in
  let e := invalid_literal "property 5" in
  let entry := EvHandleUserFeedbackQuery "What do people say?" "feedback_feedback"
                 (PList [PStr "property 5"]) PNone None in
  (firestore_stream w 0 "feedback_feedback" = Raise e /\
   out (handle_user_feedback_query w "What do people say?" "feedback_feedback"
          (PList [PStr "property 5"]) PNone None start) =
     [entry; EvFirestoreStream "feedback_feedback" (Raise e)]) \/
  (exists docs answer,
     firestore_stream w 0 "feedback_feedback" = Ok docs /\
     out (handle_user_feedback_query w "What do people say?" "feedback_feedback"
            (PList [PStr "property 5"]) PNone None start) =
       [entry; EvFirestoreStream "feedback_feedback" (Ok docs);
        EvChat InferMentions (mention_messages w "What do people say?" None)
          answer] /\
     ids_of (PList [PStr "property 5"]) PNone (mentions_of w answer) = Raise e /\
     (e = no_attribute (mentions_of w answer) "get" \/
      exists raw, normalize_ids raw = Raise e)).
Proof.
  apply (feedback_handler_escapes
           (with_firestore offline_world
              (fun _ _ => Ok [feedback_record 1 3 "bright rooms" "answered late"]))
           "What do people say?" "feedback_feedback" (PList [PStr "property 5"])
           PNone None start (invalid_literal "property 5"));
    reflexivity.
Defined.

(** X11.  [handle_user_feedback_query] reads the collection before
    anything else.  On an empty collection it answers with its fixed
    message and asks the model nothing; on any other it goes on by asking
    the model for the mentions. *)
Theorem empty_dataset_asks_nothing (w : World) (user_question collection_name : string)
    (property_mention agent_mention : pyval) (chat_memory_dict : option transcript)
    (s : State) :
  let r := handle_user_feedback_query w user_question collection_name
             property_mention agent_mention chat_memory_dict s in
  exists rest,
    out r = EvHandleUserFeedbackQuery user_question collection_name
              property_mention agent_mention chat_memory_dict
            :: EvFirestoreStream collection_name
                 (firestore_stream w (clock s) collection_name) :: rest /\
    (firestore_stream w (clock s) collection_name = Ok [] ->
     rest = [] /\ val r = Ok (PStr "The feedback dataset is empty.")) /\
    (forall doc docs,
       firestore_stream w (clock s) collection_name = Ok (doc :: docs) ->
       exists messages answer rest',
         rest = EvChat InferMentions messages answer :: rest').
Proof.
  cbv zeta. unfold handle_user_feedback_query.
  rewrite out_bind, val_bind. cbn [emit val out st].
  rewrite out_bind, val_bind.
  destruct (get_feedback_data_run w collection_name s) as [Ho _]. rewrite Ho.
  pose proof (get_feedback_data_value w collection_name s) as Hv.
  destruct (firestore_stream w (clock s) collection_name) as [docs|e].
  - destruct Hv as (data & -> & Hlen).
    destruct docs as [|doc docs]; destruct data as [|ref data]; try discriminate;
      cbn [list_truthy negb ret val out app].
    + eexists. split; [reflexivity|]. split; [now split | discriminate].
    + rewrite out_bind. unfold infer_mentions_and_context at 1. cbv zeta.
      rewrite out_try_except, out_bind. unfold chat_create at 1 2, external at 1 2.
      cbn [val out st app].
      eexists. split; [reflexivity|]. split; [discriminate|].
      intros doc' docs' _. eauto.
  - rewrite Hv. cbn [app]. eexists. split; [reflexivity|]. split; discriminate.
Qed.

Lemma emits_bind_results {A B} (P : event -> Prop) (R : A -> Prop)
    (E : exn -> Prop) (m : Py A) (k : A -> Py B) :
  emits P m -> results R E m -> (forall a, R a -> emits P (k a)) ->
  emits P (bind m k).
Proof.
  intros Hm Hr Hk s. rewrite out_bind. apply Forall_app. split; [apply Hm|].
  specialize (Hr s). destruct (val (m s)) as [a|e]; [apply (Hk a Hr) | constructor].
Qed.

#[local] Hint Extern 1 (~ generated_filter _) =>
  (let H := fresh in intro H; exact H) : py.

(** With an id to select by, the records are selected without the model. *)
Lemma answer_feedback_by_ids (w : World) (q : string) (data : list nat)
    (mem : option transcript) (prop_ids agent_ids : list pyval)
    (query_type focus : string) :
  list_truthy prop_ids || list_truthy agent_ids = true ->
  emits (fun ev => ~ generated_filter ev)
    (answer_feedback w q data mem prop_ids agent_ids query_type focus).
Proof.
  intros H. unfold answer_feedback. rewrite H, andb_false_r.
  unfold select_feedback, generate_feedback_analysis, chat_create.
  destruct prop_ids, agent_ids; try discriminate; cbn [list_truthy andb];
    py_auto.
Qed.



(** ** The query that is executed *)

Lemma retry_loop_adjacent (w : World) (k : nat) :
  forall uq prev err s,
    let r := retry_loop w k uq prev err s in
    (forall pre sql answer post,
       out r = pre ++ EvReadSqlQuery sql answer :: post ->
       exists pre' messages content,
         pre = pre' ++ [EvChat GenerateSqlQuery messages (Ok content)] /\
         sql = Str.strip content) /\
    (forall l, val r = Ok (PList l) ->
       exists pre sql rows,
         out r = pre ++ [EvReadSqlQuery sql (Ok rows)] /\ l = map PDict rows).
Proof.
  induction k as [|k IH]; intros uq prev err s; cbv zeta.
  { cbn. split; [|discriminate]. intros [|? ?] ? ? ? H; discriminate. }
  rewrite retry_loop_step. cbv zeta.
  set (messages := sql_messages w (asked_question uq prev err)).
  destruct (chat w (clock s) GenerateSqlQuery messages) as [content|e].
  2:{ cbn. split; [|discriminate].
      intros [|? [|? ?]] ? ? ? H; discriminate. }
  destruct (negb (Str.truthy (Str.strip content))).
  { cbn. split; [|discriminate]. intros [|? [|? ?]] ? ? ? H; discriminate. }
  destruct (negb (looks_like_sql (Str.strip content))).
  { cbn. split; [|discriminate]. intros [|? [|? ?]] ? ? ? H; discriminate. }
  assert (Hfirst : forall pre sql answer post rest x,
            EvChat GenerateSqlQuery messages (Ok content)
              :: EvReadSqlQuery (Str.strip content) x :: rest =
            pre ++ EvReadSqlQuery sql answer :: post ->
            (pre = [EvChat GenerateSqlQuery messages (Ok content)] /\
             sql = Str.strip content) \/
            exists pre'',
              pre = EvChat GenerateSqlQuery messages (Ok content)
                      :: EvReadSqlQuery (Str.strip content) x :: pre'' /\
              rest = pre'' ++ EvReadSqlQuery sql answer :: post).
  { intros [|a [|b pre]] sql answer post rest x H; [discriminate | |].
    - injection H as <- <- _ _. now left.
    - injection H as <- <- H. right. eauto. }
  destruct (read_sql_query w (S (clock s)) (Str.strip content))
    as [[|row rows]|e].
  - cbn [val out]. split; [|discriminate].
    intros pre sql answer post H.
    apply Hfirst in H as [[-> ->] | (pre'' & _ & H)].
    + now exists [], messages, content.
    + destruct pre''; discriminate.
  - cbn [val out]. split.
    + intros pre sql answer post H.
      apply Hfirst in H as [[-> ->] | (pre'' & _ & H)].
      * now exists [], messages, content.
      * destruct pre''; discriminate.
    + intros l [= <-].
      now exists [EvChat GenerateSqlQuery messages (Ok content)],
                 (Str.strip content), (row :: rows).
  - cbn [val out].
    match goal with
    | |- context [retry_loop w k uq ?p ?e' ?s'] =>
        destruct (IH uq p e' s') as [IHa IHb]
    end.
    split.
    + intros pre sql answer post H.
      apply Hfirst in H as [[-> ->] | (pre'' & -> & H)].
      * now exists [], messages, content.
      * destruct (IHa _ _ _ _ H) as (pre' & m & c & -> & ->).
        eexists (_ :: _ :: pre'), m, c. split; reflexivity.
    + intros l Hl. destruct (IHb l Hl) as (pre & sql & rows & -> & ->).
      eexists (_ :: _ :: pre), sql, rows. split; reflexivity.
Qed.

(** X13.  [handle_user_question] executes what the model has just written:
    every query that reaches [pd.read_sql_query] is the stripped answer of
    the generation call right before it.  And the rows that the handler
    returns are those of the last thing it did, a successful execution. *)
Theorem executes_the_generated_query (w : World) (user_question : string)
    (property_mention agent_mention : pyval) (chat_memory_dict : option transcript)
    (max_retries : nat) (s : State) :
  let r := handle_user_question w user_question property_mention agent_mention
             chat_memory_dict max_retries s in
  (forall pre sql answer post,
     out r = pre ++ EvReadSqlQuery sql answer :: post ->
     exists pre' messages content,
       pre = pre' ++ [EvChat GenerateSqlQuery messages (Ok content)] /\
       sql = Str.strip content) /\
  (forall l, val r = Ok (PList l) ->
     exists pre sql rows,
       out r = pre ++ [EvReadSqlQuery sql (Ok rows)] /\ l = map PDict rows).
Proof.
  cbv zeta.
  destruct (handle_user_question_open w user_question property_mention
              agent_mention chat_memory_dict max_retries s)
    as (uq & t & s' & Ho & Hv & Ht).
  destruct (retry_loop_adjacent w max_retries uq None None s') as [Ha Hb].
  rewrite Ho, Hv. split.
  - intros pre sql answer post E.
    destruct (split_after_quiet
                (fun ev => is_execution ev = true)
                (EvHandleUserQuestion user_question property_mention agent_mention
                   chat_memory_dict :: t)
                (out (retry_loop w max_retries uq None None s'))
                pre post (EvReadSqlQuery sql answer))
      as (pre' & -> & E').
    + constructor; [discriminate|].
      eapply Forall_impl; [exact Ht|]. intros ev (m & a & ->). discriminate.
    + reflexivity.
    + exact E.
    + destruct (Ha _ _ _ _ E') as (pre'' & m & c & -> & ->).
      eexists (_ ++ pre''), m, c. split; [|reflexivity].
      now rewrite app_assoc.
  - intros l Hl. destruct (Hb l Hl) as (pre & sql & rows & -> & ->).
    eexists (_ :: t ++ pre), sql, rows. split; [|reflexivity].
    cbn [app]. now rewrite app_assoc.
Qed.

(** ** The data sent for the final answer *)

Lemma map_result_ok {A B} (f : A -> result B) (l : list A) (ys : list B) :
  map_result f l = Ok ys ->
  length ys = length l /\ Forall (fun y => exists x, In x l /\ f x = Ok y) ys.
Proof.
  revert ys. induction l as [|x l IH]; intros ys; simpl.
  - intros [= <-]. split; [reflexivity | constructor].
  - destruct (f x) as [y|e] eqn:E; [|discriminate].
    destruct (map_result f l) as [ys'|e]; [|discriminate].
    intros [= <-]. destruct (IH ys' eq_refl) as [Hlen Hall]. split.
    + simpl. now rewrite Hlen.
    + constructor; [eauto|].
      eapply Forall_impl; [exact Hall|]. intros y' (x' & Hin & Hx'). eauto.
Qed.

Lemma restrict_row_small (keys_to_keep : list string) (row v : pyval) :
  restrict_row keys_to_keep row = Ok v ->
  exists d, v = PDict d /\ (length d <= length keys_to_keep)%nat.
Proof.
  destruct row as [| | | |str|l|d]; simpl.
  - destruct keys_to_keep; [|discriminate]. intros [= <-]. exists []. now split.
  - destruct keys_to_keep; [|discriminate]. intros [= <-]. exists []. now split.
  - destruct keys_to_keep; [|discriminate]. intros [= <-]. exists []. now split.
  - destruct keys_to_keep; [|discriminate]. intros [= <-]. exists []. now split.
  - destruct (existsb _ keys_to_keep); [discriminate|]. intros [= <-].
    exists []. split; [reflexivity | simpl; lia].
  - destruct (existsb _ keys_to_keep); [discriminate|]. intros [= <-].
    exists []. split; [reflexivity | simpl; lia].
  - intros [= <-]. eexists. split; [reflexivity|].
    rewrite length_map. apply List.filter_length_le.
Qed.

(** X14.  Whatever list [generate_natural_answer] is given, the data that
    it sends hold at most ten items, as many as the list has up to ten;
    they are either the first ten items unchanged, or dicts of at most five
    keys each. *)
Theorem truncation_bounds_the_data (l : list pyval) :
  exists sent,
    truncate_rows (PList l) = PList sent /\
    length sent = Nat.min 10 (length l) /\
    (sent = firstn 10 l \/
     Forall (fun v => exists d, v = PDict d /\ (length d <= 5)%nat) sent).
Proof.
  unfold truncate_rows, slice_to.
  destruct (firstn 10 l) as [|first rest] eqn:E.
  - exists []. split; [reflexivity|]. split; [|now left].
    rewrite <- (length_firstn 10 l), E. reflexivity.
  - assert (Hlen : length (first :: rest) = Nat.min 10 (length l))
      by (rewrite <- E; apply length_firstn).
    destruct first as [| | | | | |d];
      try (exists (firstn 10 l); rewrite E;
           split; [reflexivity|]; split; [exact Hlen | now left]).
    destruct (map_result _ (PDict d :: rest)) as [rows|e] eqn:Em.
    + exists rows. split; [reflexivity|].
      destruct (map_result_ok _ _ _ Em) as [Hl Hall]. split; [congruence|].
      right. eapply Forall_impl; [exact Hall|].
      intros v (x & _ & Hx).
      destruct (restrict_row_small _ _ _ Hx) as (d' & -> & Hd).
      exists d'. split; [reflexivity|].
      rewrite length_firstn in Hd. lia.
    + exists (PDict d :: rest). split; [reflexivity|].
      split; [exact Hlen | left; reflexivity].
Qed.

(** ** The summary of the feedback and the chat memory *)

#[local] Hint Extern 1 (~ is_feedback_summary _) =>
  (let H := fresh in intro H; exact H) : py.

Lemma generate_feedback_analysis_without_memory (w : World) (q : string)
    (data : pydata) (focus : string) (n : nat) (s : State) :
  let r := generate_feedback_analysis w q data None focus n s in
  out r = [] /\ exits r = false /\
  exists e,
    val r = Raise e /\
    forall sliced popped,
      data_slice w n data = Ok sliced ->
      val (focus_pops focus sliced s) = Ok popped ->
      e = TypeError "object of type 'NoneType' has no len()".
Proof.
  cbv zeta. unfold generate_feedback_analysis.
  change (fun data0 : list obj + string =>
            if Str.eqb focus "property" then pop_entries "agent_feedback" data0
            else if Str.eqb focus "agent" then pop_entries "property_feedback" data0
            else ret data0) with (focus_pops focus).
  rewrite out_bind, val_bind, exits_bind.
  destruct (data_slice w n data) as [sliced|e];
    cbn [lift ret raise val out st exits app];
    [|split; [reflexivity|]; split; [reflexivity|]; exists e;
      split; [reflexivity | discriminate]].
  change (if Str.eqb focus "property" then pop_entries "agent_feedback" sliced
          else if Str.eqb focus "agent" then pop_entries "property_feedback" sliced
          else ret sliced) with (focus_pops focus sliced).
  rewrite out_bind, val_bind, exits_bind.
  destruct (focus_pops_quiet focus sliced s) as (Ho & _ & _ & Hx).
  rewrite Ho, Hx.
  destruct (val (focus_pops focus sliced s)) as [popped|e] eqn:Ev.
  - cbn. split; [reflexivity|]. split; [reflexivity|]. eexists.
    split; reflexivity.
  - split; [reflexivity|]. split; [reflexivity|]. exists e.
    split; [reflexivity|]. intros sliced' popped' [= <-] H. congruence.
Qed.

Lemma focus_pops_records_val (focus : string) (data : list nat) (s : State) :
  val (focus_pops focus (inl (map Ref data)) s) = Ok (inl (map Ref data)).
Proof.
  unfold focus_pops, pop_entries.
  destruct (Str.eqb focus "property");
    [rewrite val_bind, (proj1 (pop_records_run _ data s)); reflexivity|].
  destruct (Str.eqb focus "agent");
    [rewrite val_bind, (proj1 (pop_records_run _ data s)); reflexivity|].
  reflexivity.
Qed.

(** X15.  The summary of the selected feedback needs a chat memory.  Given
    [None], [generate_feedback_analysis] raises before it calls the model,
    whatever it is given to summarise; given records, what it raises is the
    [TypeError] of [len(None)]; and so, called without a memory, the
    handler never has the selected feedback summarised. *)
Theorem feedback_summary_needs_a_memory (w : World)
    (user_question collection_name : string) (property_mention agent_mention : pyval)
    (s : State) :
  (forall data feedback_focus max_entries,
     let r := generate_feedback_analysis w user_question data None feedback_focus
                max_entries s in
     out r = [] /\ exits r = false /\ exists e, val r = Raise e) /\
  (forall records feedback_focus max_entries,
     val (generate_feedback_analysis w user_question (DList (map Ref records)) None
            feedback_focus max_entries s) =
     Raise (TypeError "object of type 'NoneType' has no len()")) /\
  Forall (fun ev => ~ is_feedback_summary ev)
    (out (handle_user_feedback_query w user_question collection_name
            property_mention agent_mention None s)).
Proof.
  split; [|split].
  - intros data focus n.
    destruct (generate_feedback_analysis_without_memory w user_question data focus
                n s) as (Ho & Hx & e & Hv & _).
    cbv zeta. eauto.
  - intros records focus n.
    destruct (generate_feedback_analysis_without_memory w user_question
                (DList (map Ref records)) focus n s) as (_ & _ & e & Hv & He).
    cbv zeta in Hv. rewrite Hv. f_equal.
    eapply He; [reflexivity|].
    unfold slice_to. rewrite firstn_map.
    apply (focus_pops_records_val focus (firstn n records) s).
  - revert s.
    change (emits (fun ev => ~ is_feedback_summary ev)
              (handle_user_feedback_query w user_question collection_name
                 property_mention agent_mention None)).
    unfold handle_user_feedback_query, get_feedback_data_from_firestore.
    apply emits_bind; [py_auto|]. intros _.
    apply emits_bind; [py_auto|]. intros data.
    destruct (negb (list_truthy data)); [py_auto|].
    apply emits_bind; [unfold infer_mentions_and_context, chat_create; py_auto|].
    intros mentions.
    do 4 (apply emits_bind; [py_auto|]; intro).
    apply emits_bind; [unfold classify_query_type, chat_create; py_auto|].
    intros query_type.
    apply emits_bind; [unfold classify_feedback_focus, chat_create; py_auto|].
    intros feedback_focus.
    apply emits_try_except; [|intro; py_auto].
    unfold answer_feedback.
    destruct (Str.eqb query_type "analysis" && _).
    { unfold extract_trait_summary, chat_create. py_auto. }
    apply emits_bind.
    { unfold select_feedback, generate_filter_code, chat_create.
      py_auto. }
    intros [filtered_data|early]; [|py_auto].
    destruct (data_truthy filtered_data); [|py_auto].
    apply emits_bind; [|intro; py_auto].
    intros s0.
    destruct (generate_feedback_analysis_without_memory w user_question
                filtered_data feedback_focus 120 s0) as [Ho _].
    cbv zeta in Ho. rewrite Ho. constructor.
Qed.

(** ** The answer written from the documents *)

Lemma extract_requested_count_nonneg (w : World) (q : string) (default : Z)
    (s : State) :
  0 <= default ->
  exists n answer,
    0 <= n /\
    extract_requested_count_via_llm w q default s =
    {| val := Ok n;
       out := [EvChat ExtractRequestedCount
                 [Msg System (prompt w ExtractRequestedCount []); Msg User q] answer];
       st := tick s;
       exits := false |}.
Proof.
  intros Hd.
  unfold extract_requested_count_via_llm, try_except, bind, chat_create, external,
    tick. cbn [val out st].
  destruct (chat w (clock s) ExtractRequestedCount _) as [content|e];
    cbn [val out st app]; [|eauto].
  destruct (Str.digit_runs (Str.strip content)) as [|d ds] eqn:E;
    cbn [ret val out st app]; [eauto|].
  rewrite (int_of_first_run _ _ _ E).
  destruct (max_str_digits <? String.length d)%nat;
    cbn [lift raise ret val out st exits app]; [eauto|].
  eexists _, _. split; [|reflexivity]. now apply digits_value_nonneg.
Qed.

Lemma generate_answer_from_context_run (w : World) (q context : string) (s : State) :
  exists n count_call answer reply,
    0 <= n /\
    generate_answer_from_context w q (PStr context) s =
    {| val := Ok reply;
       out := [EvChat ExtractRequestedCount
                 [Msg System (prompt w ExtractRequestedCount []); Msg User q]
                 count_call;
               EvChat GenerateAnswerFromContext
                 [Msg User (prompt w GenerateAnswerFromContext
                              [q; context; py_str w (PInt n)])] answer];
       st := tick (tick s);
       exits := false |}.
Proof.
  destruct (extract_requested_count_nonneg w q 3 s) as (n & c & Hn & E); [lia|].
  unfold generate_answer_from_context. unfold bind at 1. rewrite E.
  cbn [val out st]. rewrite try_chat_ret. cbn [val out st app py_format].
  eexists n, c, _, _. split; [exact Hn | reflexivity].
Qed.

Lemma dispatch_faiss (w : World) (q : string) (mem : option transcript)
    (pm am : pyval) :
  dispatch w q mem (PStr "faiss") pm am =
  (result <- search_property_pdfs w q pm mem 3 ;;
   if dict_mem "error" result || negb (truthy (dict_get "context" result))
   then ret (PNone, PStr "faiss")
   else
     answer <- generate_answer_from_context w q (dict_get "context" result) ;;
     ret (PStr answer, PStr "faiss")).
Proof. reflexivity. Qed.

(** X16.  In the branch of the router for the documents, the model is
    asked to write the answer only from a context that is not empty and
    after a search has found a document, and it is asked for a number of
    properties that is not negative; the branch returns a string, or [None]
    when there is nothing to answer from. *)
Theorem documents_are_answered_from_a_context (w : World) (query : string)
    (memory : option transcript) (property_mention agent_mention : pyval)
    (s : State) :
  let r := dispatch w query memory (PStr "faiss") property_mention agent_mention s in
  (forall messages answer,
     In (EvChat GenerateAnswerFromContext messages answer) (out r) ->
     exists context n,
       context <> EmptyString /\ 0 <= n /\
       messages = [Msg User (prompt w GenerateAnswerFromContext
                               [query; context; py_str w (PInt n)])] /\
       exists key doc docs,
         In (EvSimilaritySearch key query (Ok (doc :: docs))) (out r)) /\
  (forall v d, val r = Ok (v, d) ->
     d = PStr "faiss" /\ (v = PNone \/ is_str_value v)).
Proof.
  cbv zeta. rewrite dispatch_faiss. rewrite out_bind, val_bind.
  destruct (search_property_pdfs_open w query property_mention memory 3 s)
    as (chats & keys & s' & select & Hchats & _ & Hsel & Ho & Hv).
  destruct (search_each_spec w keys query s') as (_ & Hf & _).
  assert (Hpre : forall messages answer,
            ~ In (EvChat GenerateAnswerFromContext messages answer)
                (out (search_property_pdfs w query property_mention memory 3 s))).
  { rewrite Ho. intros messages answer [H | H]; [discriminate|].
    apply in_app_or in H as [H | H].
    - rewrite Forall_forall in Hchats.
      apply list_elem_of_In, Hchats in H as (m & a & [H | H]); discriminate.
    - pose proof (search_each_kinds w keys query s') as Hk.
      rewrite Forall_forall in Hk. apply list_elem_of_In, Hk in H. discriminate. }
  rewrite Hv.
  destruct (val (search_each w keys query s')) as [found|e].
  2:{ rewrite app_nil_r. split; [|discriminate].
      intros messages answer H. now apply Hpre in H. }
  destruct (map snd (select found)) as [|doc0 docs0] eqn:Hdocs;
    cbn [list_truthy negb].
  { cbn. rewrite app_nil_r. split.
    - intros messages answer H. now apply Hpre in H.
    - intros v d [= <- <-]. split; [reflexivity | now left]. }
  change (dict_mem "error"
            [("context", PStr (assemble_context (select found)));
             ("docs", PList (map PStr (doc0 :: docs0)))]) with false.
  change (dict_get "context"
            [("context", PStr (assemble_context (select found)));
             ("docs", PList (map PStr (doc0 :: docs0)))])
    with (PStr (assemble_context (select found))).
  cbn [orb truthy].
  destruct (assemble_context (select found)) as [|a context] eqn:Hctx;
    cbn [Str.truthy negb].
  { cbn. rewrite app_nil_r. split.
    - intros messages answer H. now apply Hpre in H.
    - intros v d [= <- <-]. split; [reflexivity | now left]. }
  rewrite out_bind, val_bind.
  match goal with
  | |- context [generate_answer_from_context w query (PStr ?c) ?s0] =>
      destruct (generate_answer_from_context_run w query c s0)
        as (n & count_call & answer' & reply & Hn & ->)
  end.
  cbn [val out st ret]. rewrite app_nil_r. split.
  - intros messages answer H. apply in_app_or in H as [H | H];
      [now apply Hpre in H|].
    destruct H as [H | [H | []]]; [discriminate|]. injection H as <- _.
    exists (String a context), n. split; [discriminate|]. split; [exact Hn|].
    split; [reflexivity|].
    assert (Hin : In doc0 (map snd (select found))) by (rewrite Hdocs; now left).
    apply in_map_iff in Hin as ([key c] & <- & Hin).
    destruct (Hf found eq_refl key c (Hsel found _ Hin)) as (results & Hev & Hc).
    destruct results as [|doc docs]; [contradiction|].
    exists key, doc, docs. apply in_or_app. left. rewrite Ho. right.
    apply in_or_app. now right.
  - intros v d [= <- <-]. split; [reflexivity|]. right. red. eauto.
Qed.
